(** * MapChat browser client: streaming decoder, session store and reconciler

    A shallow embedding of the client code of the route-planning assistant:
    - [static/js/api.js]: [geocodeAddress] and the server-sent-event decoder
      inside [streamChatMessage] ([processStream]);
    - the form module ([generateRoute], [getPlaces], [getNaturalFeatures],
      [resetCachedData]) with its three module-level variables;
    - [static/js/chat.js]: the three callbacks [sendMessage] hands to the
      decoder;
    - further on: the readers of the route and of the chat history in
      api.js, [loadChatHistory] and the reset button of chat.js, and the
      two lists of the sidebar module ([updatePlacesList],
      [updateFeaturesList]).

    JavaScript values are an inductive type with the coercions the code
    relies on (truthiness, [||], [===] against a literal, ToString and
    [+], with the TypeError of a value that has no string).  The fragments
    of the stream are the texts that
    [TextDecoder.decode(value, { stream: true })] hands to the loop.
    Asynchronous functions are run to completion, one at a time, against a
    network oracle; calls that the decoder starts without awaiting them are
    recorded as started tasks.

    What the browser and the libraries do is left to parameters: the JSON
    parser, the HTML parser on the waypoint template ([waypoint_html]),
    the sum of two numbers ([sum]), [String.prototype.trim] ([trim]), the
    validity of the number inputs of the form ([numbers_valid]),
    [toFixed(6)], the product by 1000, and what a call into the map or the
    sidebar throws ([raises]).  The scenarios instantiate them; the
    instance of [raises] follows the two modules, with Leaflet's own calls
    taken to return.

    The decoder is described for callbacks that return; the callbacks of
    chat.js are modelled with the values on which they throw.  The nodes
    of the page that the scripts look up by a fixed id are there, but for
    the display node of [geocodeAddress], which is looked up in the model.
    Of a line that only logs, the reads that throw on [null] and
    [undefined] are kept. *)

From Stdlib Require Import String Ascii List Bool Arith NArith Lia.
From Stdlib Require Import DecimalString Permutation.
Import ListNotations.
Open Scope string_scope.
Open Scope list_scope.
Set Warnings "-register-all".

(* ================================================================== *)
(** ** JavaScript values *)
(* ================================================================== *)

Module JS.

(** A number is kept as its canonical ECMAScript rendering (the result of
    [Number.prototype.toString]); this is all the code ever observes of a
    number: whether it is zero and what it looks like inside a string. *)
Inductive value : Type :=
| Undefined
| Null
| Bool (b : bool)
| Num (repr : string)
| Str (s : string)
| Obj (props : list (string * value))
| Arr (elems : list value).

(** ToBoolean. *)
Definition truthy (v : value) : bool :=
  match v with
  | Undefined | Null => false
  | Bool b => b
  | Num r => negb ((r =? "0") || (r =? "NaN"))
  | Str s => negb (s =? "")
  | Obj _ | Arr _ => true
  end.

(** [a || b]. *)
Definition or_else (a b : value) : value := if truthy a then a else b.

Fixpoint lookup (k : string) (props : list (string * value)) : value :=
  match props with
  | [] => Undefined
  | (k', v) :: rest => if k' =? k then v else lookup k rest
  end.

(** [v.k] for the property names read by the client, none of which lives
    on a prototype: primitives and arrays answer [undefined].  Reading a
    property of [null] or [undefined] raises a TypeError, see [nullish]. *)
Definition get (v : value) (k : string) : value :=
  match v with
  | Obj props => lookup k props
  | _ => Undefined
  end.

Definition nullish (v : value) : bool :=
  match v with
  | Undefined | Null => true
  | _ => false
  end.

(** [v === 'lit']. *)
Definition is_string (v : value) (lit : string) : bool :=
  match v with
  | Str s => s =? lit
  | _ => false
  end.

Definition is_number (v : value) : bool :=
  match v with
  | Num _ => true
  | _ => false
  end.

(** [Array.isArray(v)]. *)
Definition is_array (v : value) : bool :=
  match v with
  | Arr _ => true
  | _ => false
  end.

(** The object has an own property named [k]. *)
Definition own (k : string) (props : list (string * value)) : bool :=
  existsb (fun p => fst p =? k) props.

(** ToString on a value that [JSON.parse] made, as applied by a template
    literal, by [textContent = v] and to a property key: [None] is the
    TypeError of an object whose own [toString] is not a function, since
    its [valueOf] gives no primitive either.  An array joins its elements
    with commas, [null] and [undefined] as nothing. *)
Fixpoint ToString (v : value) : option string :=
  match v with
  | Undefined => Some "undefined"
  | Null => Some "null"
  | Bool true => Some "true"
  | Bool false => Some "false"
  | Num r => Some r
  | Str s => Some s
  | Obj props => if own "toString" props then None else Some "[object Object]"
  | Arr elems =>
      (fix join (l : list value) : option string :=
         match l with
         | [] => Some ""
         | e :: l' =>
             match (match e with
                    | Undefined | Null => Some ""
                    | _ => ToString e
                    end), l' with
             | None, _ => None
             | Some s, [] => Some s
             | Some s, _ :: _ =>
                 match join l' with
                 | None => None
                 | Some t => Some (s ++ "," ++ t)%string
                 end
             end
         end) elems
  end.

(** [el.textContent = v]: [null] and [undefined] give the empty text. *)
Definition text_of (v : value) : option string :=
  match v with
  | Undefined | Null => Some ""
  | _ => ToString v
  end.

(** ToPrimitive: an object or an array becomes the string its [toString]
    gives, whatever the hint, since the [valueOf] it inherits answers the
    object itself and an own [valueOf] of a parsed object is no function. *)
Definition ToPrimitive (v : value) : option value :=
  match v with
  | Obj _ | Arr _ => option_map Str (ToString v)
  | _ => Some v
  end.

(** ToNumber on a primitive that is not a string, as a rendering. *)
Definition ToNumber (v : value) : string :=
  match v with
  | Null | Bool false => "0"
  | Bool true => "1"
  | Num r => r
  | _ => "NaN"
  end.

Section Plus.

(** The sum of two floating-point numbers, on their renderings. *)
Variable sum : string -> string -> string.

(** [a + b]: the operands are made primitive; if one of them is a string
    the texts are joined, otherwise the numbers are added.  [None] is the
    TypeError of an operand that cannot be made primitive. *)
Definition plus (a b : value) : option value :=
  match ToPrimitive a, ToPrimitive b with
  | Some pa, Some pb =>
      match pa, pb with
      | Str s, _ => option_map (fun t => Str (s ++ t)) (ToString pb)
      | _, Str t => option_map (fun s => Str (s ++ t)) (ToString pa)
      | _, _ => Some (Num (sum (ToNumber pa) (ToNumber pb)))
      end
  | _, _ => None
  end.

End Plus.

End JS.

Import JS.

(* ================================================================== *)
(** ** Strings as the decoder uses them *)
(* ================================================================== *)

Module Sse.

Definition nl : ascii := "010"%char.

(** The message delimiter ["\n\n"]. *)
Definition delimiter : string := String nl (String nl "").

Definition cons_head (c : ascii) (parts : list string) : list string :=
  match parts with
  | [] => [String c ""]
  | p :: ps => String c p :: ps
  end.

(** [s.split('\n\n')]: leftmost, non-overlapping occurrences of the
    delimiter cut the string; the result always has at least one piece. *)
Fixpoint split (s : string) : list string :=
  match s with
  | EmptyString => [EmptyString]
  | String c s' =>
      match s' with
      | EmptyString => [String c EmptyString]
      | String c' s'' =>
          if Ascii.eqb c nl && Ascii.eqb c' nl
          then EmptyString :: split s''
          else cons_head c (split s')
      end
  end.

(** Does the delimiter occur in [s]? *)
Fixpoint has_delimiter (s : string) : bool :=
  match s with
  | EmptyString => false
  | String c s' =>
      match s' with
      | EmptyString => false
      | String c' _ => (Ascii.eqb c nl && Ascii.eqb c' nl) || has_delimiter s'
      end
  end.

(** [s.slice(n)] for [n >= 0]. *)
Fixpoint slice (n : nat) (s : string) : string :=
  match n, s with
  | O, _ => s
  | S n', String _ s' => slice n' s'
  | S _, EmptyString => EmptyString
  end.

(** [s.startsWith(p)]. *)
Definition startsWith (s p : string) : bool := String.prefix p s.

(** The text a list of fragments adds up to. *)
Fixpoint joined (frags : list string) : string :=
  match frags with
  | [] => ""
  | f :: rest => (f ++ joined rest)%string
  end.

(** Segments on the wire: each one followed by the delimiter. *)
Fixpoint framed (segments : list string) : string :=
  match segments with
  | [] => ""
  | m :: rest => (m ++ delimiter ++ framed rest)%string
  end.

(** A segment survives framing when it holds no blank line and does not end
    in a newline (a JSON object text ends in a brace). *)
Definition clean (m : string) : bool :=
  negb (has_delimiter (m ++ String nl "")%string).

End Sse.

Import Sse.

(* ================================================================== *)
(** ** The page state the decoder reads *)
(* ================================================================== *)

(** [currentPlaces] / [currentFeatures] of the form module: an object
    [{ data, radius }]; the radius is the slider's [value], a string. *)
Record cached : Type := { data : value; radius : string }.

(** The three module-level variables of the form module. *)
Record store : Type := {
  currentRoute : value;
  currentPlaces : option cached;
  currentFeatures : option cached
}.

(** The form controls of [index.html] that the scripts read. *)
Record form : Type := {
  origin_input : string;
  destination_input : string;
  waypoint_inputs : list string;
  sample_route : bool;
  sample_method : string;
  interval_km : string;
  every_nth : string;
  show_places : bool;
  places_radius : string;
  show_features : bool;
  features_radius : string
}.

Record page : Type := { vars : store; controls : form }.

(* ================================================================== *)
(** ** api.js: the event-stream decoder of [streamChatMessage] *)
(* ================================================================== *)

Module ApiModule.

(** What the decoder does to its collaborators, in program order: reads
    and cancels on the stream reader, the three callbacks, the log of the
    [catch] clause, and the calls into the page. *)
Inductive action : Type :=
| ReaderRead
| ReaderCancel
| ConsoleError (line : string)
| OnChunk (chunk : value)
| OnComplete (responseText requiresUpdate : value)
| OnError (error : value)
| CheckShowPlaces
| CheckShowFeatures
| GetPlaces (polylineCoords : value) (forceRefresh : bool)
| GetNaturalFeatures (polylineCoords : value) (forceRefresh : bool)
| AppendWaypoint (inputs : list string)
| ClickGenerateRoute.

(** [fullResponse] and [requiresUpdate] of the closure.  The text starts
    as a string and stays one under [+=]; a status message puts
    [data.message || ''] there, whatever that is. *)
Record decoder : Type := { fullResponse : value; requiresUpdate : value }.

Definition initial : decoder :=
  {| fullResponse := Str ""; requiresUpdate := Bool false |}.

(** What the rest of the page reads in the [div] that
    [waypointDiv.innerHTML = `<input ... class="waypoint-input"
    value="${name}"> <button ... class="remove-waypoint">`] fills: the
    values of its waypoint inputs, in document order, and whether
    [querySelector('.remove-waypoint')] finds a button.  For a name without
    markup of its own this is the name and [true]; a double quote in the
    name ends the attribute early, and markup in the name can hide the
    button or bring inputs of its own.  The markup is taken to bring
    nothing else that the scripts read, and no script of its own. *)
Record markup : Type := { fields : list string; remove_button : bool }.

(** How one pass of the [for ... of] body ends: fall through to the next
    line, or [return] out of the read callback. *)
Inductive step : Type :=
| Continue (acts : list action) (d : decoder)
| Return (acts : list action).

(** [onComplete({ responseText, requiresUpdate }); reader.cancel(); return]
    with [fullResponse = data.message || ''] and
    [requiresUpdate = data.requires_ui_update || false]. *)
Definition complete_now (data : value) : list action :=
  [ OnComplete (or_else (get data "message") (Str ""))
               (or_else (get data "requires_ui_update") (Bool false));
    ReaderCancel ].

(** [!current || current.radius !== selected]. *)
Definition forceRefresh (current : option cached) (selected : string) : bool :=
  match current with
  | None => true
  | Some c => negb (radius c =? selected)
  end.

Definition has_polyline (route : value) : bool :=
  truthy route && truthy (get route "polyline_coords").

Definition places_requested (pg : page) : list action :=
  (if show_places (controls pg) then [] else [CheckShowPlaces]) ++
  (if has_polyline (currentRoute (vars pg))
   then [GetPlaces (get (currentRoute (vars pg)) "polyline_coords")
                   (forceRefresh (currentPlaces (vars pg))
                                 (places_radius (controls pg)))]
   else [ClickGenerateRoute]).

Definition features_requested (pg : page) : list action :=
  (if show_features (controls pg) then [] else [CheckShowFeatures]) ++
  (if has_polyline (currentRoute (vars pg))
   then [GetNaturalFeatures (get (currentRoute (vars pg)) "polyline_coords")
                            (forceRefresh (currentFeatures (vars pg))
                                          (features_radius (controls pg)))]
   else [ClickGenerateRoute]).

(** How the [try] block ends: it runs to its end or returns, or an
    exception leaves it after the actions and assignments made so far. *)
Inductive tried : Type :=
| Finished (s : step)
| Thrown (acts : list action) (d : decoder).

(** [fullResponse = data.message || '';
    requiresUpdate = data.requires_ui_update || false], the first statements
    under each of the four statuses. *)
Definition answered (data : value) : decoder :=
  {| fullResponse := or_else (get data "message") (Str "");
     requiresUpdate := or_else (get data "requires_ui_update") (Bool false) |}.

(** The part of the [try] block below the four statuses, after
    [if (data.chunk)]: the [complete] flag and the error. *)
Definition after_chunk (acts : list action) (d : decoder) (data : value) : step :=
  if truthy (get data "error")
  then Return (acts ++ [OnError (get data "error"); ReaderCancel])
  else Continue acts
         (if truthy (get data "complete")
          then {| fullResponse := fullResponse d;
                  requiresUpdate :=
                    or_else (get data "requires_ui_update") (Bool false) |}
          else d).

Section Decoder.

(** [JSON.parse]: [None] when it throws a SyntaxError. *)
Variable JSON_parse : string -> option value.

(** The page as it stands when a status message is handled. *)
Variable pg : page.

(** What the HTML parser makes of the waypoint template with a name. *)
Variable waypoint_html : string -> markup.

(** The sum of two numbers, for [+=] on a text that is a number. *)
Variable sum : string -> string -> string.

(** The body of [if (data.waypoint) { ... }]: the template literal raises a
    TypeError when the name has no string, before anything is added; the
    [div] is appended, and [removeBtn.addEventListener] raises one when
    the markup holds no remove button, before the click. *)
Definition waypoint_added (data : value) : tried :=
  match ToString (or_else (get (get data "waypoint") "display_name") (Str "")) with
  | None => Thrown [] (answered data)
  | Some name =>
      if remove_button (waypoint_html name)
      then Finished (Return ([AppendWaypoint (fields (waypoint_html name));
                              ClickGenerateRoute] ++ complete_now data))
      else Thrown [AppendWaypoint (fields (waypoint_html name))] (answered data)
  end.

(** The body of the [try] block once [JSON.parse] has answered [data].
    [data.status] on [null] raises a TypeError before anything else
    happened, and so does [fullResponse += data.chunk] on a chunk that
    cannot be made primitive, before [onChunk] is called.  The controls
    the block reaches through [getElementById] all exist in [index.html]. *)
Definition handle_data (d : decoder) (data : value) : tried :=
  if nullish data then Thrown [] d
  else
    let status := get data "status" in
    if is_string status "route_generated" then
      Finished (Return (complete_now data))
    else if is_string status "places_requested" then
      Finished (Return ((if truthy (get data "show_places")
                         then places_requested pg else [])
                        ++ complete_now data))
    else if is_string status "features_requested" then
      Finished (Return ((if truthy (get data "show_features")
                         then features_requested pg else [])
                        ++ complete_now data))
    else if is_string status "waypoint_added" then
      if truthy (get data "waypoint") then waypoint_added data
      else Finished (Return (complete_now data))
    else
      let chunk := get data "chunk" in
      if truthy chunk then
        match plus sum (fullResponse d) chunk with
        | None => Thrown [] d
        | Some text =>
            Finished
              (after_chunk [OnChunk chunk]
                 {| fullResponse := text; requiresUpdate := requiresUpdate d |}
                 data)
        end
      else Finished (after_chunk [] d data).

(** One iteration of [for (const line of lines)]; the [catch] clause logs
    and the loop goes on. *)
Definition process_line (d : decoder) (line : string) : step :=
  if startsWith line "data: " then
    match JSON_parse (slice 6 line) with
    | None => Continue [ConsoleError line] d
    | Some data =>
        match handle_data d data with
        | Finished s => s
        | Thrown acts d' => Continue (acts ++ [ConsoleError line]) d'
        end
    end
  else Continue [] d.

Fixpoint process_lines (d : decoder) (lines : list string) : step :=
  match lines with
  | [] => Continue [] d
  | line :: rest =>
      match process_line d line with
      | Return acts => Return acts
      | Continue acts d' =>
          match process_lines d' rest with
          | Return acts' => Return (acts ++ acts')
          | Continue acts' d'' => Continue (acts ++ acts') d''
          end
      end
  end.

(** How the reads on the body end once the fragments are used up. *)
Inductive ending : Type :=
| EndOfStream
| ReadFailure (message : value).

(** [if (done) { ... onComplete(...); return; }] and the [.catch] of the
    read promise.  At [done] a text that is a string is boxed with
    [new String]; it reads the same, and [onComplete] uses it as a text
    only. *)
Definition finish (d : decoder) (e : ending) : list action :=
  match e with
  | EndOfStream => [OnComplete (fullResponse d) (requiresUpdate d)]
  | ReadFailure m => [OnError m]
  end.

(** [processStream]: each call reads once; a fragment is appended to
    [buffer], the buffer is split, the last piece goes back into [buffer]
    and the others are processed; the function calls itself again unless
    the loop body returned. *)
Fixpoint processStream (buffer : string) (d : decoder)
    (frags : list string) (e : ending) : list action :=
  ReaderRead ::
  match frags with
  | [] => finish d e
  | chunk :: rest =>
      let lines := split (buffer ++ chunk)%string in
      match process_lines d (removelast lines) with
      | Return acts => acts
      | Continue acts d' => acts ++ processStream (last lines "") d' rest e
      end
  end.

(** What [fetch('/chat/stream')] leads to. *)
Inductive transport : Type :=
| FetchRejected (message : value)
| HttpError (status : string)
| Body (frags : list string) (e : ending).

Definition streamChatMessage (t : transport) : list action :=
  match t with
  | FetchRejected m => [OnError m]
  | HttpError status => [OnError (Str ("HTTP error! status: " ++ status))]
  | Body frags e => processStream "" initial frags e
  end.

(** A run without its [reader.read()] calls, whose number follows the
    number of fragments. *)
Definition without_reads (tr : list action) : list action :=
  filter (fun a => match a with ReaderRead => false | _ => true end) tr.

(** The events of a run without the reader calls and the log. *)
Definition is_event (a : action) : bool :=
  match a with
  | ReaderRead | ReaderCancel | ConsoleError _ => false
  | _ => true
  end.

(** The events that end a stream. *)
Definition is_terminal (a : action) : bool :=
  match a with
  | OnComplete _ _ | OnError _ => true
  | _ => false
  end.

(** The decoder run on complete segments handed over one by one. *)
Definition decode_segments (segments : list string) (e : ending) : list action :=
  match process_lines initial segments with
  | Return acts => acts
  | Continue acts d => acts ++ finish d e
  end.

End Decoder.

End ApiModule.

Import ApiModule.

(* ================================================================== *)
(** ** The world the asynchronous functions run in *)
(* ================================================================== *)

(** A DOM node that scripts write text into. *)
Record element : Type := { textContent : string; classList : list string }.

(** What [fetch(url, ...)] resolves to, or the message of the error it
    rejects with.  [body = None]: [response.json()] rejects. *)
Inductive response : Type :=
| Rejected (message : string)
| Responded (ok : bool) (body : option value).

Record request : Type := { url : string; payload : value }.

(** Calls into the map and sidebar modules and the browser. *)
Inductive view_call : Type :=
| ShowLoading
| HideLoading
| ShowResults
| ClearMapLayers
| DisplayRoute (routeData : value)
| UpdateRouteInfo (distance duration : value)
| UpdateSampledInfo (sampled_points : value)
| DisplayPlaces (places : value)
| UpdatePlacesList (places : value)
| DisplayFeatures (features : value)
| UpdateFeaturesList (features : value)
| ListError (list_id : string) (message : value)
| Alert (message : value).

(** Asynchronous functions started without [await]. *)
Inductive task : Type :=
| TGetPlaces (polylineCoords : value) (forceRefresh : bool)
| TGetNaturalFeatures (polylineCoords : value) (forceRefresh : bool)
| TGenerateRoute
| TCheckForRouteUpdate.

(** The assistant message under construction in [sendMessage]. *)
Record bubble : Type := {
  text : string;
  cursor : bool;
  error_class : bool
}.

Record world : Type := {
  (** the form module's variables and the form controls *)
  document : page;
  (** nodes looked up by id to show text *)
  elements : list (string * element);
  chat : bubble;
  (** the requests made, oldest first; an asynchronous function enters its
      request here when it goes on after the [await] *)
  requests : list request;
  views : list view_call;
  tasks : list task
}.

Definition set_document (p : page) (w : world) : world :=
  {| document := p; elements := elements w; chat := chat w;
     requests := requests w; views := views w; tasks := tasks w |}.

Definition set_vars (s : store) (w : world) : world :=
  set_document {| vars := s; controls := controls (document w) |} w.

Definition set_controls (f : form) (w : world) : world :=
  set_document {| vars := vars (document w); controls := f |} w.

Definition set_elements (els : list (string * element)) (w : world) : world :=
  {| document := document w; elements := els; chat := chat w;
     requests := requests w; views := views w; tasks := tasks w |}.

Definition set_chat (b : bubble) (w : world) : world :=
  {| document := document w; elements := elements w; chat := b;
     requests := requests w; views := views w; tasks := tasks w |}.

Definition add_request (r : request) (w : world) : world :=
  {| document := document w; elements := elements w; chat := chat w;
     requests := requests w ++ [r]; views := views w; tasks := tasks w |}.

Definition add_view (v : view_call) (w : world) : world :=
  {| document := document w; elements := elements w; chat := chat w;
     requests := requests w; views := views w ++ [v]; tasks := tasks w |}.

Definition add_task (t : task) (w : world) : world :=
  {| document := document w; elements := elements w; chat := chat w;
     requests := requests w; views := views w; tasks := tasks w ++ [t] |}.

(** ** A state and exception monad for [async] functions *)

Module Async.

Inductive outcome (A : Type) : Type :=
| Val (a : A)
| Exn (error : value).
Arguments Val {A} a.
Arguments Exn {A} error.

Definition M (A : Type) : Type := world -> outcome A * world.

Definition ret {A} (a : A) : M A := fun w => (Val a, w).

Definition throw {A} (error : value) : M A := fun w => (Exn error, w).

Definition bind {A B} (m : M A) (k : A -> M B) : M B :=
  fun w =>
    match m w with
    | (Val a, w') => k a w'
    | (Exn error, w') => (Exn error, w')
    end.

(** [try { m } catch (error) { handler }]. *)
Definition try_catch {A} (m : M A) (handler : value -> M A) : M A :=
  fun w =>
    match m w with
    | (Val a, w') => (Val a, w')
    | (Exn error, w') => handler error w'
    end.

(** [try { m } finally { f }] for a [finally] block that cannot fail. *)
Definition finally {A} (m : M A) (f : world -> world) : M A :=
  fun w => let (o, w') := m w in (o, f w').

Definition modify (f : world -> world) : M unit := fun w => (Val tt, f w).

Definition read {A} (f : world -> A) : M A := fun w => (Val (f w), w).

Definition when (b : bool) (m : M unit) : M unit := if b then m else ret tt.

End Async.

Import Async.

Declare Scope async_scope.
Delimit Scope async_scope with async.
Notation "x <- m ;; k" := (bind m (fun x => k))
  (at level 61, m at next level, right associativity) : async_scope.
Notation "m ;;; k" := (bind m (fun _ => k))
  (at level 61, right associativity) : async_scope.
Open Scope async_scope.

(** An [Error] object is kept as its message; a TypeError raised by the
    engine as this fixed value. *)
Definition TypeError : value := Str "TypeError".
Definition SyntaxError : value := Str "SyntaxError".

(** The message of [new Error(v)], the string of [v]; a value without
    string raises a TypeError where the error was to be made. *)
Definition message_of (v : value) : value :=
  match ToString v with
  | Some t => Str t
  | None => TypeError
  end.

(** [throw new Error(v)]. *)
Definition throw_Error {A} (v : value) : M A := throw (message_of v).

Fixpoint find_element (id : string) (els : list (string * element))
  : option element :=
  match els with
  | [] => None
  | (id', el) :: rest => if id' =? id then Some el else find_element id rest
  end.

Fixpoint put_element (id : string) (el : element)
    (els : list (string * element)) : list (string * element) :=
  match els with
  | [] => []
  | (id', el') :: rest =>
      if id' =? id then (id', el) :: rest else (id', el') :: put_element id el rest
  end.

(** [document.getElementById(id).textContent = t]; a TypeError when there
    is no such node. *)
Definition set_textContent (id t : string) : M unit :=
  fun w =>
    match find_element id (elements w) with
    | None => (Exn TypeError, w)
    | Some el =>
        (Val tt,
         set_elements
           (put_element id {| textContent := t; classList := classList el |}
                        (elements w)) w)
    end.

(** [document.getElementById(id).classList.add(c)]: a token list holds a
    class once. *)
Definition classList_add (id c : string) : M unit :=
  fun w =>
    match find_element id (elements w) with
    | None => (Exn TypeError, w)
    | Some el =>
        (Val tt,
         set_elements
           (put_element id {| textContent := textContent el;
                              classList :=
                                if existsb (String.eqb c) (classList el)
                                then classList el
                                else classList el ++ [c] |}
                        (elements w)) w)
    end.

(** [document.getElementById(id).textContent]. *)
Definition get_textContent (id : string) : M string :=
  fun w =>
    match find_element id (elements w) with
    | None => (Exn TypeError, w)
    | Some el => (Val (textContent el), w)
    end.

Section Network.

(** The backend: what the [n]-th request of the session resolves to. *)
Variable net : nat -> response.

(** [x.toFixed(6)] on the number rendered as the argument: the rounding of
    a floating-point number to six decimals. *)
Variable toFixed6 : string -> string.

(** [await fetch(url, { body })]: the response, or the rejection. *)
Definition fetch (u : string) (body : value) : M (bool * option value) :=
  fun w =>
    let w' := add_request {| url := u; payload := body |} w in
    match net (length (requests w)) with
    | Rejected m => (Exn (Str m), w')
    | Responded ok b => (Val (ok, b), w')
    end.

(** [await response.json()]. *)
Definition json (body : option value) : M value :=
  match body with
  | None => throw SyntaxError
  | Some v => ret v
  end.

(** [v.k] where [v] may be [null]. *)
Definition member (v : value) (k : string) : M value :=
  if nullish v then throw TypeError else ret (get v k).

(** [n.toFixed(6)]; a TypeError when [n] is not a number. *)
Definition fixed (n : value) : M string :=
  match n with
  | Num r => ret (toFixed6 r)
  | _ => throw TypeError
  end.

(** [`Lat: ${data.lat.toFixed(6)}, Lng: ${data.lng.toFixed(6)}`]. *)
Definition coordinates_text (data : value) : M string :=
  lat <- member data "lat" ;;
  lat6 <- fixed lat ;;
  lng <- member data "lng" ;;
  lng6 <- fixed lng ;;
  ret ("Lat: " ++ lat6 ++ ", Lng: " ++ lng6)%string.

(** [`${v}`]; a TypeError when [v] has no string. *)
Definition interpolated (v : value) : M string :=
  match ToString v with
  | Some t => ret t
  | None => throw TypeError
  end.

(** [if (displayElementId) { ... }]: the id is [undefined], [null] or a
    string. *)
Definition given (displayElementId : option string) : option string :=
  match displayElementId with
  | Some id => if id =? "" then None else Some id
  | None => None
  end.

(** [if (displayElementId) { el.textContent = `Error: ${msg}`;
    el.classList.add('error'); }], written out twice in [geocodeAddress]. *)
Definition show_error (displayElementId : option string) (msg : value) : M unit :=
  match given displayElementId with
  | Some id =>
      t <- interpolated msg ;;
      set_textContent id ("Error: " ++ t) ;;;
      classList_add id "error"
  | None => ret tt
  end.

(** api.js, [geocodeAddress(address, displayElementId)]. *)
Definition geocodeAddress (address : string) (displayElementId : option string)
  : M value :=
  try_catch
    (r <- fetch "/geocode" (Obj [("address", Str address)]) ;;
     data <- json (snd r) ;;
     if fst r then
       match given displayElementId with
       | Some id =>
           t <- coordinates_text data ;;
           set_textContent id t ;;;
           ret data
       | None => ret data
       end
     else
       err <- member data "error" ;;
       show_error displayElementId err ;;;
       ret Null)
    (fun error =>
       show_error displayElementId error ;;;
       ret Null).

End Network.

(* ================================================================== *)
(** ** The form module *)
(* ================================================================== *)

Module FormModule.

Definition set_currentRoute (r : value) (w : world) : world :=
  set_vars {| currentRoute := r;
              currentPlaces := currentPlaces (vars (document w));
              currentFeatures := currentFeatures (vars (document w)) |} w.

Definition set_currentPlaces (c : option cached) (w : world) : world :=
  set_vars {| currentRoute := currentRoute (vars (document w));
              currentPlaces := c;
              currentFeatures := currentFeatures (vars (document w)) |} w.

Definition set_currentFeatures (c : option cached) (w : world) : world :=
  set_vars {| currentRoute := currentRoute (vars (document w));
              currentPlaces := currentPlaces (vars (document w));
              currentFeatures := c |} w.

(** [resetCachedData()]. *)
Definition resetCachedData (w : world) : world :=
  set_currentFeatures None (set_currentPlaces None w).

(** [current && current.radius === selected]. *)
Definition same_radius (current : option cached) (selected : string) : bool :=
  match current with
  | None => false
  | Some c => radius c =? selected
  end.

Section Requests.

Variable net : nat -> response.
Variable toFixed6 : string -> string.

(** [radiusKm * 1000], a product of floating-point numbers. *)
Variable times_1000 : string -> value.

(** [val.trim()]: the string without the white space and the line
    terminators at its two ends. *)
Variable trim : string -> string.

(** What a call into the map or the sidebar throws, if it throws. *)
Variable raises : view_call -> option value.

Local Abbreviation fetch := (fetch net).
Local Abbreviation geocodeAddress := (geocodeAddress net toFixed6).

(** api.js, [getPlacesRequest] and [getFeaturesRequest]: they differ in the
    path, the method, the result field and the fallback message. *)
Definition along_route (path method field fallback : string)
    (polylineCoords : value) (radiusKm : string) : M value :=
  member polylineCoords "length" ;;;
  r <- fetch path (Obj [("polyline_coords", polylineCoords);
                        ("radius_m", times_1000 radiusKm);
                        ("method", Str method)]) ;;
  if negb (fst r) then
    errorData <- json (snd r) ;;
    err <- member errorData "error" ;;
    throw_Error (or_else err (Str fallback))
  else
    data <- json (snd r) ;;
    member data field.

Definition getPlacesRequest : value -> string -> M value :=
  along_route "/places" "node" "places" "Failed to get places".

Definition getFeaturesRequest : value -> string -> M value :=
  along_route "/natural_features" "way" "features"
              "Failed to get natural features".

(** api.js, [generateRouteRequest]. *)
Definition generateRouteRequest (requestData : value) : M value :=
  r <- fetch "/route" requestData ;;
  routeData <- json (snd r) ;;
  err <- member routeData "error" ;;
  if negb (fst r) || truthy err
  then throw_Error (or_else err (Str "Failed to generate route"))
  else ret routeData.

(** The inner [try { fetch(path); response.json(); ... } catch { log }]
    that tells the backend what is on display. *)
Definition tell_backend (path : string) (body : value) : M unit :=
  try_catch
    (r <- fetch path body ;;
     data <- json (snd r) ;;
     if fst r then ret tt else member data "error" ;;; ret tt)
    (fun _ => ret tt).

(** A call into the map or the sidebar with data of the server: the call
    is made, and it returns or throws. *)
Definition call (v : view_call) : M unit :=
  modify (add_view v) ;;;
  match raises v with
  | Some error => throw error
  | None => ret tt
  end.

(** [getPlaces(polylineCoords, forceRefresh = false)]. *)
Definition getPlaces (polylineCoords : value) (forceRefresh : bool) : M unit :=
  try_catch
    (placesRadiusKm <- read (fun w => places_radius (controls (document w))) ;;
     current <- read (fun w => currentPlaces (vars (document w))) ;;
     if negb forceRefresh && same_radius current placesRadiusKm then
       match current with
       | Some c =>
           call (DisplayPlaces (data c)) ;;;
           call (UpdatePlacesList (data c))
       | None => ret tt
       end
     else
       member polylineCoords "length" ;;;
       places <- getPlacesRequest polylineCoords placesRadiusKm ;;
       modify (set_currentPlaces
                 (Some {| data := places; radius := placesRadiusKm |})) ;;;
       call (DisplayPlaces places) ;;;
       call (UpdatePlacesList places) ;;;
       tell_backend "/update_places_data" (Obj [("places", places)]))
    (fun error => modify (add_view (ListError "places-list" error))).

(** [getNaturalFeatures(polylineCoords, forceRefresh = false)]. *)
Definition getNaturalFeatures (polylineCoords : value) (forceRefresh : bool)
  : M unit :=
  try_catch
    (featuresRadiusKm <-
       read (fun w => features_radius (controls (document w))) ;;
     current <- read (fun w => currentFeatures (vars (document w))) ;;
     if negb forceRefresh && same_radius current featuresRadiusKm then
       match current with
       | Some c =>
           call (DisplayFeatures (data c)) ;;;
           call (UpdateFeaturesList (data c))
       | None => ret tt
       end
     else
       member polylineCoords "length" ;;;
       features <- getFeaturesRequest polylineCoords featuresRadiusKm ;;
       modify (set_currentFeatures
                 (Some {| data := features; radius := featuresRadiusKm |})) ;;;
       call (DisplayFeatures features) ;;;
       call (UpdateFeaturesList features) ;;;
       tell_backend "/update_features_data" (Obj [("features", features)]))
    (fun error => modify (add_view (ListError "features-list" error))).

(** The [for ... of] loop that geocodes the waypoints and keeps the hits. *)
Fixpoint geocode_waypoints (inputs : list string) : M (list value) :=
  match inputs with
  | [] => ret []
  | input :: rest =>
      waypoint <- geocodeAddress input None ;;
      waypoints <- geocode_waypoints rest ;;
      ret (if truthy waypoint then waypoint :: waypoints else waypoints)
  end.

Definition lat_lng (p : value) : value :=
  Obj [("lat", get p "lat"); ("lng", get p "lng")].

Definition named (p : value) (display_name : value) : value :=
  Obj [("lat", get p "lat"); ("lng", get p "lng");
       ("display_name", display_name)].

(** [waypoints.map((wp, i) => ({ ..., display_name: waypointInputs[i] }))]. *)
Fixpoint named_waypoints (waypoints : list value) (inputs : list string)
  : list value :=
  match waypoints with
  | [] => []
  | wp :: rest =>
      match inputs with
      | [] => named wp Undefined :: named_waypoints rest []
      | input :: inputs' => named wp (Str input) :: named_waypoints rest inputs'
      end
  end.

Definition sampling_options (f : form) : list (string * value) :=
  if sample_route f then
    [("sample", Bool true); ("sample_method", Str (sample_method f));
     if sample_method f =? "interval"
     then ("interval_km", Str (interval_km f))
     else ("every_nth", Str (every_nth f))]
  else [].

(** [currentRoute && currentRoute.polyline_coords &&
    Array.isArray(currentRoute.polyline_coords)]. *)
Definition valid_route (route : value) : bool :=
  truthy route && truthy (get route "polyline_coords")
  && is_array (get route "polyline_coords").

(** The markers of [routeData.sampled_points.forEach(point => ...)]: a
    TypeError when the value has no [forEach] or a point is [null]. *)
Definition sampled_markers (sampled_points : value) : M unit :=
  match sampled_points with
  | Arr points => if existsb nullish points then throw TypeError else ret tt
  | _ => throw TypeError
  end.

(** The branch of [generateRoute] under [if (needNewRoute)], which ends
    with the new route in [currentRoute]. *)
Definition new_route (f : form) (waypointInputs : list string) : M value :=
  modify resetCachedData ;;;
  origin <- geocodeAddress (origin_input f) None ;;
  destination <- geocodeAddress (destination_input f) None ;;
  if negb (truthy origin) || negb (truthy destination)
  then throw (Str "Failed to geocode origin or destination")
  else
    waypoints <- geocode_waypoints waypointInputs ;;
    routeData <-
      generateRouteRequest
        (Obj ([("origin", lat_lng origin);
               ("destination", lat_lng destination);
               ("waypoints", Arr (map lat_lng waypoints))]
              ++ sampling_options f)) ;;
    modify (set_currentRoute routeData) ;;;
    if negb (truthy (get routeData "polyline_coords"))
       || negb (is_array (get routeData "polyline_coords"))
    then throw (Str "Invalid route data: missing polyline coordinates")
    else
      tell_backend "/update_conversation_state"
        (Obj [("origin", named origin (Str (origin_input f)));
              ("destination", named destination (Str (destination_input f)));
              ("waypoints", Arr (named_waypoints waypoints waypointInputs));
              ("route_data", routeData)]) ;;;
      ret routeData.

(** Whether [generateRoute] keeps the route it has: a valid route, both
    coordinate displays filled in, sampling as before. *)
Definition reuses_route (route : value) (currentOrigin currentDestination : string)
    (f : form) : bool :=
  valid_route route
  && negb (currentOrigin =? "") && negb (currentDestination =? "")
  && Bool.eqb (sample_route f) (truthy (get route "sampled_points")).

(** [if (routeData.sampled_points) { updateSampledInfo(count); markers }
    else { updateSampledInfo(null) }]. *)
Definition show_sampled (routeData : value) : M unit :=
  if truthy (get routeData "sampled_points") then
    call (UpdateSampledInfo (get routeData "sampled_points")) ;;;
    sampled_markers (get routeData "sampled_points")
  else call (UpdateSampledInfo Null).

(** The part of [generateRoute] after the route is known: the route on the
    map and in the sidebar, the sampled points, then places and features
    where their boxes are checked. *)
Definition show_route (f : form) (routeData : value) : M unit :=
  let polylineCoords := get routeData "polyline_coords" in
  call (DisplayRoute routeData) ;;;
  call (UpdateRouteInfo (get routeData "distance_text")
                        (get routeData "duration_text")) ;;;
  show_sampled routeData ;;;
  when (show_places f) (getPlaces polylineCoords false) ;;;
  when (show_features f) (getNaturalFeatures polylineCoords false) ;;;
  modify (add_view ShowResults).

(** [generateRoute()]. *)
Definition generateRoute : M unit :=
  f <- read (fun w => controls (document w)) ;;
  let waypointInputs :=
    filter (fun v => negb (trim v =? "")) (waypoint_inputs f) in
  modify (add_view ShowLoading) ;;;
  modify (add_view ClearMapLayers) ;;;
  finally
    (try_catch
       (route <- read (fun w => currentRoute (vars (document w))) ;;
        reuse <-
          (if valid_route route then
             currentOrigin <- get_textContent "origin-coords" ;;
             currentDestination <- get_textContent "destination-coords" ;;
             ret (reuses_route route currentOrigin currentDestination f)
           else ret false) ;;
        routeData <- (if reuse then ret route else new_route f waypointInputs) ;;
        show_route f routeData)
       (fun error => modify (add_view (Alert error))))
    (add_view HideLoading).

End Requests.

End FormModule.

(* ================================================================== *)
(** ** chat.js: the callbacks of [sendMessage] *)
(* ================================================================== *)

Module ChatModule.

Definition sorry : string :=
  "Sorry, there was an error processing your request. Please try again.".

(** The placeholder [sendMessage] creates: empty, with the cursor. *)
Definition placeholder : bubble :=
  {| text := ""; cursor := true; error_class := false |}.

(** The three callbacks; [None] is the TypeError a callback raises when
    the value it is to show has no string. *)

(** [textContent += chunk] between taking the cursor off and putting it
    back. *)
Definition onChunk (chunk : value) (w : world) : option world :=
  match ToString chunk with
  | Some t =>
      Some (set_chat {| text := (text (chat w) ++ t)%string;
                        cursor := true;
                        error_class := error_class (chat w) |} w)
  | None => None
  end.

(** [textContent = result && result.responseText || ''], then
    [checkForRouteUpdate()] if [result.requiresUpdate]. *)
Definition onComplete (responseText requiresUpdate : value) (w : world)
  : option world :=
  match ToString (or_else responseText (Str "")) with
  | Some t =>
      let w' := set_chat {| text := t;
                            cursor := false;
                            error_class := error_class (chat w) |} w in
      Some (if truthy requiresUpdate then add_task TCheckForRouteUpdate w' else w')
  | None => None
  end.

Definition onError (error : value) (w : world) : option world :=
  Some (set_chat {| text := sorry; cursor := false; error_class := true |} w).

End ChatModule.

(* ================================================================== *)
(** ** The decoder's actions carried out on the page *)
(* ================================================================== *)

Definition check_show_places (f : form) : form :=
  {| origin_input := origin_input f; destination_input := destination_input f;
     waypoint_inputs := waypoint_inputs f;
     sample_route := sample_route f; sample_method := sample_method f;
     interval_km := interval_km f; every_nth := every_nth f;
     show_places := true; places_radius := places_radius f;
     show_features := show_features f; features_radius := features_radius f |}.

Definition check_show_features (f : form) : form :=
  {| origin_input := origin_input f; destination_input := destination_input f;
     waypoint_inputs := waypoint_inputs f;
     sample_route := sample_route f; sample_method := sample_method f;
     interval_km := interval_km f; every_nth := every_nth f;
     show_places := show_places f; places_radius := places_radius f;
     show_features := true; features_radius := features_radius f |}.

(** [waypointsContainer.appendChild(waypointDiv)]: the waypoint inputs of
    the [div] come after those of the page. *)
Definition append_waypoint (inputs : list string) (f : form) : form :=
  {| origin_input := origin_input f; destination_input := destination_input f;
     waypoint_inputs := waypoint_inputs f ++ inputs;
     sample_route := sample_route f; sample_method := sample_method f;
     interval_km := interval_km f; every_nth := every_nth f;
     show_places := show_places f; places_radius := places_radius f;
     show_features := show_features f; features_radius := features_radius f |}.

(** [index.html] marks the origin and the destination as [required]. *)
Definition required_filled (f : form) : bool :=
  negb (origin_input f =? "") && negb (destination_input f =? "").

Module Page.

Section Validity.

(** Whether the values of the two number inputs, [interval-km] and
    [every-nth], satisfy the [min], [max] and step that [index.html] gives
    them: the browser's check of a number against a range. *)
Variable numbers_valid : string -> string -> bool.

(** A click on the submit button leads to the submit event, and so to
    [generateRoute], when the form is valid: its two required fields are
    filled in and its two number inputs are in range.  The range inputs
    always are, and waypoint inputs have no constraint. *)
Definition submits (f : form) : bool :=
  required_filled f && numbers_valid (interval_km f) (every_nth f).

(** One action of the decoder as [sendMessage] set it up: the callbacks are
    those of chat.js, a checkbox is checked, an asynchronous call is
    started.  A started call is entered in [tasks] and nothing of it is run
    here: the decoder does not await it, and what it does, from its first
    statement on, is described by the function itself.  [None]: a callback
    raised an exception, which the decoder is not described for. *)
Definition dispatch (a : action) (w : world) : option world :=
  match a with
  | ReaderRead | ReaderCancel | ConsoleError _ => Some w
  | OnChunk chunk => ChatModule.onChunk chunk w
  | OnComplete responseText requiresUpdate =>
      ChatModule.onComplete responseText requiresUpdate w
  | OnError error => ChatModule.onError error w
  | CheckShowPlaces =>
      Some (set_controls (check_show_places (controls (document w))) w)
  | CheckShowFeatures =>
      Some (set_controls (check_show_features (controls (document w))) w)
  | GetPlaces coords force => Some (add_task (TGetPlaces coords force) w)
  | GetNaturalFeatures coords force =>
      Some (add_task (TGetNaturalFeatures coords force) w)
  | AppendWaypoint inputs =>
      Some (set_controls (append_waypoint inputs (controls (document w))) w)
  | ClickGenerateRoute =>
      Some (if submits (controls (document w))
            then add_task TGenerateRoute w else w)
  end.

Fixpoint dispatch_all (tr : list action) (w : world) : option world :=
  match tr with
  | [] => Some w
  | a :: rest =>
      match dispatch a w with
      | Some w' => dispatch_all rest w'
      | None => None
      end
  end.

End Validity.

End Page.

Import Page.

(* ================================================================== *)
(** ** A JSON reader for the scenarios *)
(* ================================================================== *)

(** The decoder is stated over an arbitrary [JSON.parse].  The scenarios
    need a concrete one: this reader covers objects, arrays, strings with
    the single-character escapes, [true], [false], [null] and integers of
    at most fifteen digits, and answers [None] on everything else. *)
Module Json.

Definition quote : ascii := "034"%char.
Definition backslash : ascii := "092"%char.

Definition whitespace (c : ascii) : bool :=
  (Ascii.eqb c " " || Ascii.eqb c "009" || Ascii.eqb c "010"
   || Ascii.eqb c "013")%char.

Fixpoint skip_ws (s : string) : string :=
  match s with
  | EmptyString => EmptyString
  | String c s' => if whitespace c then skip_ws s' else s
  end.

Definition unescape (c : ascii) : option ascii :=
  (if Ascii.eqb c quote then Some quote
   else if Ascii.eqb c backslash then Some backslash
   else if Ascii.eqb c "/" then Some "/"
   else if Ascii.eqb c "n" then Some "010"
   else if Ascii.eqb c "t" then Some "009"
   else if Ascii.eqb c "r" then Some "013"
   else if Ascii.eqb c "b" then Some "008"
   else if Ascii.eqb c "f" then Some "012"
   else None)%char.

Definition push (c : ascii) (r : option (string * string))
  : option (string * string) :=
  match r with
  | Some (t, rest) => Some (String c t, rest)
  | None => None
  end.

(** The characters after an opening quote, up to the closing one. *)
Fixpoint string_body (s : string) : option (string * string) :=
  match s with
  | EmptyString => None
  | String c s' =>
      if Ascii.eqb c quote then Some (EmptyString, s')
      else if Ascii.eqb c backslash then
        match s' with
        | EmptyString => None
        | String e s'' =>
            match unescape e with
            | Some ch => push ch (string_body s'')
            | None => None
            end
        end
      else if Nat.ltb (nat_of_ascii c) 32 then None
      else push c (string_body s')
  end.

Definition digit (c : ascii) : bool :=
  Nat.leb 48 (nat_of_ascii c) && Nat.leb (nat_of_ascii c) 57.

Fixpoint digits (s : string) : string * string :=
  match s with
  | EmptyString => (EmptyString, EmptyString)
  | String c s' =>
      if digit c then let (d, rest) := digits s' in (String c d, rest)
      else (EmptyString, s)
  end.

Definition integer (negative : bool) (s : string) : option (value * string) :=
  let (d, rest) := digits s in
  let plain :=
    match rest with
    | String c _ => negb (Ascii.eqb c "." || Ascii.eqb c "e" || Ascii.eqb c "E")%char
    | EmptyString => true
    end in
  let canonical :=
    match d with
    | EmptyString => false
    | String c EmptyString => true
    | String c _ => negb (Ascii.eqb c "0")
    end in
  if plain && canonical && Nat.leb (String.length d) 15 then
    Some (Num (if d =? "0" then "0" else if negative then "-" ++ d else d)%string,
          rest)
  else None.

(** A property set twice keeps its place and takes the later value. *)
Fixpoint set_prop (k : string) (v : value) (props : list (string * value))
  : list (string * value) :=
  match props with
  | [] => [(k, v)]
  | (k', v') :: rest =>
      if k' =? k then (k', v) :: rest else (k', v') :: set_prop k v rest
  end.

Definition literal (word : string) (v : value) (s : string)
  : option (value * string) :=
  if String.prefix word s then Some (v, slice (String.length word) s) else None.

Fixpoint read_value (fuel : nat) (s : string) : option (value * string) :=
  match fuel with
  | O => None
  | S fuel' =>
      match skip_ws s with
      | EmptyString => None
      | String c rest =>
          (if Ascii.eqb c "{" then
             match skip_ws rest with
             | String "}" rest' => Some (Obj [], rest')
             | _ => read_members fuel' [] rest
             end
           else if Ascii.eqb c "[" then
             match skip_ws rest with
             | String "]" rest' => Some (Arr [], rest')
             | _ => read_elements fuel' [] rest
             end
           else if Ascii.eqb c quote then
             match string_body rest with
             | Some (t, rest') => Some (Str t, rest')
             | None => None
             end
           else if Ascii.eqb c "t" then literal "true" (Bool true) (String c rest)
           else if Ascii.eqb c "f" then literal "false" (Bool false) (String c rest)
           else if Ascii.eqb c "n" then literal "null" Null (String c rest)
           else if Ascii.eqb c "-" then integer true rest
           else integer false (String c rest))%char
      end
  end
with read_members (fuel : nat) (acc : list (string * value)) (s : string)
  : option (value * string) :=
  match fuel with
  | O => None
  | S fuel' =>
      match skip_ws s with
      | String c rest =>
          if Ascii.eqb c quote then
            match string_body rest with
            | Some (k, rest1) =>
                match skip_ws rest1 with
                | String ":" rest2 =>
                    match read_value fuel' rest2 with
                    | Some (v, rest3) =>
                        match skip_ws rest3 with
                        | String "," rest4 =>
                            read_members fuel' (set_prop k v acc) rest4
                        | String "}" rest4 => Some (Obj (set_prop k v acc), rest4)
                        | _ => None
                        end
                    | None => None
                    end
                | _ => None
                end
            | None => None
            end
          else None
      | EmptyString => None
      end
  end
with read_elements (fuel : nat) (acc : list value) (s : string)
  : option (value * string) :=
  match fuel with
  | O => None
  | S fuel' =>
      match read_value fuel' s with
      | Some (v, rest) =>
          match skip_ws rest with
          | String "," rest' => read_elements fuel' (acc ++ [v]) rest'
          | String "]" rest' => Some (Arr (acc ++ [v]), rest')
          | _ => None
          end
      | None => None
      end
  end.

Definition parse (s : string) : option value :=
  match read_value (2 * String.length s + 2) s with
  | Some (v, rest) =>
      match skip_ws rest with
      | EmptyString => Some v
      | _ => None
      end
  | None => None
  end.

(** A text between double quotes: a backslash before each double quote
    and each backslash. *)
Fixpoint escape (s : string) : string :=
  match s with
  | EmptyString => EmptyString
  | String c s' =>
      if Ascii.eqb c quote || Ascii.eqb c backslash
      then String backslash (String c (escape s'))
      else String c (escape s')
  end.

(** The text of a value whose strings need no escape but that of the
    double quote and the backslash, as the backend's serializer writes
    it. *)
Fixpoint print (v : value) : string :=
  match v with
  | Undefined | Null => "null"
  | Bool true => "true"
  | Bool false => "false"
  | Num r => r
  | Str s => String quote (escape s ++ String quote "")
  | Obj props =>
      "{" ++
      (fix members (l : list (string * value)) : string :=
         match l with
         | [] => ""
         | (k, v') :: l' =>
             String quote (escape k ++ String quote "") ++ ":" ++ print v' ++
             match l' with
             | [] => ""
             | _ :: _ => "," ++ members l'
             end
         end) props ++ "}"
  | Arr elems =>
      "[" ++
      (fix items (l : list value) : string :=
         match l with
         | [] => ""
         | e :: l' =>
             print e ++
             match l' with
             | [] => ""
             | _ :: _ => "," ++ items l'
             end
         end) elems ++ "]"
  end%string.

(** One message of the event stream: [data: ] and the object's text. *)
Definition message (props : list (string * value)) : string :=
  ("data: " ++ print (Obj props))%string.

End Json.

(* ================================================================== *)
(** ** Vocabulary of the statements *)
(* ================================================================== *)

(** [data.status] is one of the four kinds the decoder knows. *)
Definition named_status (data : value) : bool :=
  is_string (get data "status") "route_generated"
  || is_string (get data "status") "places_requested"
  || is_string (get data "status") "features_requested"
  || is_string (get data "status") "waypoint_added".

(** The objects a list of segments decodes to: the segments that start
    with [data: ], parse, and are not [null]. *)
Definition decoded (JSON_parse : string -> option value) (segments : list string)
  : list value :=
  flat_map
    (fun line =>
       if startsWith line "data: " then
         match JSON_parse (slice 6 line) with
         | Some data => if nullish data then [] else [data]
         | None => []
         end
       else [])
    segments.

(** A message that does not end the stream: no known status, no truthy
    error. *)
Definition plain (data : value) : bool :=
  negb (named_status data) && negb (truthy (get data "error")).

(** A message without known status whose truthy chunk has no string:
    [fullResponse += data.chunk] raises a TypeError, the message is logged
    and nothing else of it is looked at. *)
Definition unreadable (data : value) : bool :=
  negb (named_status data) && truthy (get data "chunk")
  && match ToString (get data "chunk") with
     | Some _ => false
     | None => true
     end.

(** The messages that are not passed over for their chunk. *)
Definition heard (messages : list value) : list value :=
  filter (fun data => negb (unreadable data)) messages.

(** [data.waypoint.display_name || '']. *)
Definition waypoint_name (data : value) : value :=
  or_else (get (get data "waypoint") "display_name") (Str "").

(** A [waypoint_added] message whose handling raises a TypeError before
    the completion: the name has no string, or its markup leaves no remove
    button in the [div]. *)
Definition waypoint_fails (waypoint_html : string -> markup) (data : value)
  : bool :=
  is_string (get data "status") "waypoint_added"
  && truthy (get data "waypoint")
  && match ToString (waypoint_name data) with
     | Some name => negb (remove_button (waypoint_html name))
     | None => true
     end.

(** The field is there, whatever it holds. *)
Definition has_field (data : value) (k : string) : bool :=
  match get data k with
  | Undefined => false
  | _ => true
  end.

(** What the quiet actions leave alone: everything but the bubble. *)
Definition same_page (w w' : world) : Prop :=
  document w' = document w /\ elements w' = elements w /\
  requests w' = requests w /\ views w' = views w /\ tasks w' = tasks w.

(** The value has a string. *)
Definition readable (v : value) : bool :=
  match ToString v with
  | Some _ => true
  | None => false
  end.

(** What the passing actions leave alone: everything but the bubble and
    the waypoint inputs, which may have grown. *)
Definition same_store (w w' : world) : Prop :=
  vars (document w') = vars (document w) /\
  (exists added,
     controls (document w') = append_waypoint added (controls (document w))) /\
  elements w' = elements w /\ requests w' = requests w /\
  views w' = views w /\ tasks w' = tasks w.

(** Actions that neither end the stream nor touch the page; a chunk that
    reaches [onChunk] was added to the text before and so has a string. *)
Definition quiet (a : action) : bool :=
  match a with
  | ReaderRead | ConsoleError _ => true
  | OnChunk chunk => readable chunk
  | _ => false
  end.

(** Actions after which the decoder reads on: the quiet ones and the
    [div] appended for a [waypoint_added] message whose handling raised
    afterwards. *)
Definition passing (a : action) : bool :=
  quiet a || match a with
             | AppendWaypoint _ => true
             | _ => false
             end.

(** Calls into the page made on a status message before it completes. *)
Definition page_call (a : action) : bool :=
  match a with
  | CheckShowPlaces | CheckShowFeatures | GetPlaces _ _
  | GetNaturalFeatures _ _ | AppendWaypoint _ | ClickGenerateRoute => true
  | _ => false
  end.

Definition step_acts (s : step) : list action :=
  match s with
  | Continue acts _ => acts
  | Return acts => acts
  end.

Definition tried_acts (t : tried) : list action :=
  match t with
  | Finished s => step_acts s
  | Thrown acts _ => acts
  end.

(** The complete segments of a text: the pieces before the last cut. *)
Definition segments_of (received : string) : list string :=
  removelast (split received).

(** What ends a run when a message stops it: the page calls of a status
    message and its completion, or an error, and then the cancel. *)
Inductive closing : list action -> Prop :=
| closing_status calls responseText requiresUpdate :
    Forall (fun a => page_call a = true) calls ->
    closing (calls ++ [OnComplete responseText requiresUpdate; ReaderCancel])
| closing_error error :
    closing [OnError error; ReaderCancel].

(** A step that falls through made passing calls only; a step that
    returns made passing calls and then closed the run. *)
Definition step_shape (s : step) : Prop :=
  match s with
  | Continue acts _ => Forall (fun a => passing a = true) acts
  | Return acts =>
      exists body tail,
        acts = body ++ tail /\
        Forall (fun a => passing a = true) body /\ closing tail
  end.

(** The chunk payloads that count: the truthy ones. *)
Definition chunks (messages : list value) : list value :=
  filter truthy (map (fun data => get data "chunk") messages).

(** The string of a value that has one. *)
Definition shown (v : value) : string :=
  match ToString v with
  | Some t => t
  | None => ""
  end.

Fixpoint concat_text (payloads : list value) : string :=
  match payloads with
  | [] => ""
  | p :: rest => (shown p ++ concat_text rest)%string
  end.

(** The flag remembered after the messages: the one of the last message
    with a truthy [complete], [false] when there is none. *)
Definition remember_from (flag : value) (messages : list value) : value :=
  fold_left
    (fun flag data =>
       if truthy (get data "complete")
       then or_else (get data "requires_ui_update") (Bool false)
       else flag)
    messages flag.

Definition remembered : list value -> value := remember_from (Bool false).

(** Follows the spec's words: every message with a [chunk] field emits a
    text-chunk event, and at the natural end one completion carries the
    concatenation of the chunk payloads and the [requires_ui_update] of
    the last message with a [complete] field, [false] when there is none. *)
Definition spec_end_of_stream (messages : list value) : list action :=
  let payloads :=
    map (fun data => get data "chunk")
        (filter (fun data => has_field data "chunk") messages) in
  map OnChunk payloads ++
  [OnComplete
     (Str (concat_text payloads))
     (match rev (filter (fun data => has_field data "complete") messages) with
      | data :: _ => or_else (get data "requires_ui_update") (Bool false)
      | [] => Bool false
      end)].

(** Follows the spec's words: of the terminal-shaped fields of a message
    the error comes first, then a named status. *)
Definition spec_priority (data : value) : list action :=
  if has_field data "error" then [OnError (get data "error")]
  else if named_status data then
    [OnComplete (or_else (get data "message") (Str ""))
                (or_else (get data "requires_ui_update") (Bool false))]
  else [].

Definition count_reads (tr : list action) : nat :=
  length (filter (fun a => match a with ReaderRead => true | _ => false end) tr).

(** How many requests went to a path. *)
Definition count_url (path : string) (reqs : list request) : nat :=
  length (filter (fun r => url r =? path) reqs).

(** How many alerts were shown. *)
Definition alerts (vs : list view_call) : nat :=
  length (filter (fun v => match v with Alert _ => true | _ => false end) vs).

(** What the steps of [generateRoute] other than the two cached fetches
    leave alone: the controls, the nodes and the number of requests for
    places and for features. *)
Definition aside (w w' : world) : Prop :=
  controls (document w') = controls (document w) /\
  elements w' = elements w /\
  alerts (views w') = alerts (views w) /\
  count_url "/places" (requests w') = count_url "/places" (requests w) /\
  count_url "/natural_features" (requests w') =
    count_url "/natural_features" (requests w).



(** The task [onComplete] starts when the message asks for a UI update. *)
Definition update_task (data : value) : list task :=
  if truthy (or_else (get data "requires_ui_update") (Bool false))
  then [TCheckForRouteUpdate] else [].

(** The page after the decoder handled a [places_requested] message whose
    [show_places] is set, and a [features_requested] message whose
    [show_features] is set. *)
Definition on_places_requested (numbers_valid : string -> string -> bool)
    (data : value) (w : world) : option world :=
  dispatch_all numbers_valid
    (places_requested (document w) ++ complete_now data) w.

Definition on_features_requested (numbers_valid : string -> string -> bool)
    (data : value) (w : world) : option world :=
  dispatch_all numbers_valid
    (features_requested (document w) ++ complete_now data) w.

(** Follows the spec's words on a places-requested event whose show
    flag is set: places are fetched for the current route when it has
    coordinates, and a full route generation is triggered when it has
    none. *)
Definition spec_requested_task (w : world) : task :=
  if has_polyline (currentRoute (vars (document w)))
  then TGetPlaces (get (currentRoute (vars (document w))) "polyline_coords")
                  (forceRefresh (currentPlaces (vars (document w)))
                                (places_radius (controls (document w))))
  else TGenerateRoute.

(** The page calls of a message with a known status, as they come before
    its completion. *)
Definition status_calls (pg : page) (waypoint_html : string -> markup)
    (data : value) : list action :=
  if is_string (get data "status") "places_requested" then
    if truthy (get data "show_places") then places_requested pg else []
  else if is_string (get data "status") "features_requested" then
    if truthy (get data "show_features") then features_requested pg else []
  else if is_string (get data "status") "waypoint_added" then
    if truthy (get data "waypoint")
    then [AppendWaypoint (fields (waypoint_html (shown (waypoint_name data))));
          ClickGenerateRoute]
    else []
  else [].

(** The events of the message that ends a stream: the page calls and the
    completion of a known status, or the error of a message without one,
    after its chunk if it has a truthy one. *)
Definition closing_events (pg : page) (waypoint_html : string -> markup)
    (data : value) : list action :=
  if named_status data then
    status_calls pg waypoint_html data
    ++ [OnComplete (or_else (get data "message") (Str ""))
                   (or_else (get data "requires_ui_update") (Bool false))]
  else
    (if truthy (get data "chunk") then [OnChunk (get data "chunk")] else [])
    ++ [OnError (get data "error")].

(** The messages before the first one that ends the stream, and that
    one. *)
Fixpoint before_end (messages : list value) : list value :=
  match messages with
  | [] => []
  | data :: rest => if plain data then data :: before_end rest else []
  end.

Fixpoint first_end (messages : list value) : option value :=
  match messages with
  | [] => None
  | data :: rest => if plain data then first_end rest else Some data
  end.

(** The events of a stream, read off its messages: a chunk event for
    every truthy chunk up to the message that ends the stream and the
    events of that message; without such a message the event of the end,
    a completion with the chunks joined and the flag remembered, or the
    error of the failed read. *)
Definition events_of (pg : page) (waypoint_html : string -> markup)
    (messages : list value) (e : ending) : list action :=
  map OnChunk (chunks (before_end messages)) ++
  match first_end messages with
  | Some data => closing_events pg waypoint_html data
  | None =>
      match e with
      | EndOfStream =>
          [OnComplete (Str (concat_text (chunks messages)))
                      (remembered messages)]
      | ReadFailure m => [OnError m]
      end
  end.

(** The world after [generateRoute] has run. *)
Definition after_generateRoute (net : nat -> response)
    (toFixed6 : string -> string) (times_1000 : string -> value)
    (trim : string -> string) (raises : view_call -> option value)
    (w : world) : world :=
  snd (FormModule.generateRoute net toFixed6 times_1000 trim raises w).

(** A 2xx body [geocodeAddress] can display: numbers under [lat], [lng]. *)
Definition coordinate_object (data : value) : bool :=
  negb (nullish data) && is_number (get data "lat") && is_number (get data "lng").

(** Follows the spec's words on [geocodeAddress]: the parsed body when
    the response is 2xx, [null] when it is not and when the request or the
    parsing fails, and never an exception. *)
Definition spec_geocodeAddress (r : response) : outcome value :=
  match r with
  | Responded true (Some data) => Val data
  | _ => Val Null
  end.

(** ** Scenario data *)

Module Scenario.

(** The page after loading [index.html]: nothing cached, nothing typed,
    the sliders at their initial values. *)
Definition fresh_form : form :=
  {| origin_input := ""; destination_input := ""; waypoint_inputs := [];
     sample_route := false; sample_method := "interval";
     interval_km := "5"; every_nth := "10";
     show_places := false; places_radius := "5";
     show_features := false; features_radius := "1" |}.

Definition fresh_page : page :=
  {| vars := {| currentRoute := Null; currentPlaces := None;
                currentFeatures := None |};
     controls := fresh_form |}.

Definition fresh_world : world :=
  {| document := fresh_page;
     elements := [("origin-coords", {| textContent := ""; classList := ["coordinates"] |});
                  ("destination-coords",
                   {| textContent := ""; classList := ["coordinates"] |})];
     chat := ChatModule.placeholder;
     requests := []; views := []; tasks := [] |}.

(** Cuts a text into fragments of [n + 1] characters. *)
Fixpoint chop_from (n k : nat) (s : string) : string * list string :=
  match s with
  | EmptyString => (EmptyString, [])
  | String c s' =>
      match k with
      | O => let (piece, pieces) := chop_from n n s' in
             (String c EmptyString, piece :: pieces)
      | S k' => let (piece, pieces) := chop_from n k' s' in
                (String c piece, pieces)
      end
  end.

Definition chop (n : nat) (s : string) : list string :=
  let (piece, pieces) := chop_from n n s in piece :: pieces.

(** The three messages of a plain answer. *)
Definition hi_there : list string :=
  [ Json.message [("chunk", Str "Hi")];
    Json.message [("chunk", Str " there")];
    Json.message [("complete", Bool true); ("requires_ui_update", Bool false)] ].


(** A chunk, then an error. *)
Definition failing_answer : transport :=
  Body [ (Json.message [("chunk", Str "Hi")] ++ delimiter)%string;
         (Json.message [("error", Str "boom")] ++ delimiter)%string ]
       EndOfStream.

(** A message with a status and an error at once. *)
Definition status_and_error : value :=
  Obj [("status", Str "route_generated"); ("message", Str "Route ready");
       ("requires_ui_update", Bool true); ("error", Str "boom")].

Definition status_and_error_stream : transport :=
  Body [ ("data: " ++ Json.print status_and_error ++ delimiter)%string ]
       EndOfStream.

(** A message whose chunk is an object with a field named [toString]
    and which carries an error too. *)
Definition keyed_chunk : value :=
  Obj [("chunk", Obj [("toString", Num "1")]); ("error", Str "boom")].

(** An answer with an empty chunk and a [complete] that is [false]. *)
Definition odd_answer : list value :=
  [ Obj [("chunk", Str "Hi")];
    Obj [("chunk", Str "")];
    Obj [("complete", Bool true); ("requires_ui_update", Bool true)];
    Obj [("complete", Bool false); ("requires_ui_update", Bool false)] ].

Definition odd_answer_frags : list string :=
  map (fun data => ("data: " ++ Json.print data ++ delimiter)%string) odd_answer.

(** A segment cut off in the middle of its object, between two good ones. *)
Definition garbled : string := "data: {" ++ String Json.quote "chunk".

(** A geocoder that knows every address. *)
Definition geocoder (n : nat) : response :=
  Responded true (Some (Obj [("lat", Num "40.7128"); ("lng", Num "-74.006")])).

(** A geocoder that sends the coordinates as texts. *)
Definition texts_for_numbers (n : nat) : response :=
  Responded true (Some (Obj [("lat", Str "40.7128"); ("lng", Str "-74.006")])).

(** A geocoder that knows no address. *)
Definition unknown_address (n : nat) : response :=
  Responded false (Some (Obj [("error", Str "Address not found")])).

(** A route from the backend. *)
Definition route_to (distance : string) : value :=
  Obj [("polyline_coords",
        Arr [Arr [Num "40.7128"; Num "-74.006"]; Arr [Num "42.3601"; Num "-71.0589"]]);
       ("distance_text", Str distance); ("duration_text", Str "4 hours")].

(** The page with a route on display, places asked for at 5 km, nothing
    cached yet. *)
Definition routed_world : world :=
  {| document :=
       {| vars := {| currentRoute := route_to "346 km"; currentPlaces := None;
                     currentFeatures := None |};
          controls :=
            {| origin_input := "New York"; destination_input := "Boston";
               waypoint_inputs := [];
               sample_route := false; sample_method := "interval";
               interval_km := "5"; every_nth := "10";
               show_places := true; places_radius := "5";
               show_features := false; features_radius := "1" |} |};
     elements := [("origin-coords", {| textContent := ""; classList := ["coordinates"] |});
                  ("destination-coords",
                   {| textContent := ""; classList := ["coordinates"] |})];
     chat := ChatModule.placeholder;
     requests := []; views := []; tasks := [] |}.

(** A backend that answers every request with places and features. *)
Definition found : value :=
  Obj [("places", Arr [Obj [("name", Str "Diner"); ("type", Str "restaurant")]]);
       ("features", Arr [Obj [("name", Str "Hudson"); ("type", Str "river")]])].

Definition steady (n : nat) : response := Responded true (Some found).


(** The backend asks for places to be shown. *)
Definition places_please : value :=
  Obj [("status", Str "places_requested"); ("show_places", Bool true);
       ("message", Str "Showing places along your route.");
       ("requires_ui_update", Bool false)].

(** A backend for two route generations in a row from [routed_world]: each
    geocodes two addresses, fetches a route, reports it, fetches places
    and reports them; the two routes differ. *)
Definition two_routes (n : nat) : response :=
  match n with
  | 2 => Responded true (Some (route_to "350 km"))
  | 8 => Responded true (Some (route_to "360 km"))
  | 4 | 10 => steady n
  | _ => geocoder n
  end.

(** Six decimals by padding with zeros: what [toFixed(6)] gives on a number
    whose rendering has a point and at most six digits after it, as those
    of the scenarios have. *)
Fixpoint pad (n : nat) (digits : string) : string :=
  match n with
  | O => ""
  | S n' =>
      match digits with
      | EmptyString => String "0" (pad n' "")
      | String c rest => String c (pad n' rest)
      end
  end.

Fixpoint toFixed6 (r : string) : string :=
  match r with
  | EmptyString => ".000000"
  | String c rest =>
      if Ascii.eqb c "." then String c (pad 6 rest) else String c (toFixed6 rest)
  end.

(** Kilometres to metres on a radius that is a whole number, as in the
    scenarios. *)
Definition times_1000 (radiusKm : string) : value := Num (radiusKm ++ "000").

(** [trim] on a text of ASCII characters, as those of the scenarios are:
    the space, the tabs, the form feed and the two line ends go. *)
Definition white (c : ascii) : bool :=
  (Ascii.eqb c " " || Ascii.eqb c "009" || Ascii.eqb c "010"
   || Ascii.eqb c "011" || Ascii.eqb c "012" || Ascii.eqb c "013")%char.

Fixpoint trim_start (s : string) : string :=
  match s with
  | EmptyString => ""
  | String c s' => if white c then trim_start s' else s
  end.

Fixpoint trim_end (s : string) : string :=
  match s with
  | EmptyString => ""
  | String c s' =>
      match trim_end s' with
      | EmptyString => if white c then "" else String c ""
      | t => String c t
      end
  end.

Definition trim (s : string) : string := trim_end (trim_start s).

(** The browser's check of the two number inputs on values that are whole
    numbers in decimal, as those of the scenarios are: from 1 to 100 for
    the interval, from 2 to 100 for every n-th point; an empty input
    passes. *)
Definition within (low high : N) (v : string) : bool :=
  match v with
  | EmptyString => true
  | _ =>
      match NilZero.uint_of_string v with
      | Some n => (low <=? N.of_uint n)%N && (N.of_uint n <=? high)%N
      | None => false
      end
  end.

Definition numbers_valid (interval every : string) : bool :=
  within 1 100 interval && within 2 100 every.

(** The waypoint template on a name without double quote, ampersand,
    angle bracket, NUL and carriage return, as those of the scenarios are:
    the input holds the name, the remove button is there. *)
Definition waypoint_html (name : string) : markup :=
  {| fields := [name]; remove_button := true |}.

(** The sum of two natural numbers in decimal; the scenarios add no
    others. *)
Definition sum (a b : string) : string :=
  match NilZero.uint_of_string a, NilZero.uint_of_string b with
  | Some x, Some y =>
      NilZero.string_of_uint (N.to_uint (N.of_uint x + N.of_uint y))
  | _, _ => "NaN"
  end.

End Scenario.

(* ================================================================== *)
(** * Further parts of the client *)
(* ================================================================== *)

(** ** api.js: the two readers of the route on the backend *)

Section RouteReaders.

Variable net : nat -> response.

(** [response.status] of the [n]-th response, as the number reads. *)
Variable status : nat -> string.

(** api.js, [getCurrentRouteData()].  The fields read for the log make a
    body that is [null] raise inside the [try]. *)
Definition getCurrentRouteData : M value :=
  try_catch
    (n <- read (fun w => length (requests w)) ;;
     r <- fetch net "/get_current_route" Undefined ;;
     if negb (fst r) then
       if status n =? "404" then ret Null
       else throw (Str ("HTTP error! status: " ++ status n))
     else
       data <- json (snd r) ;;
       member data "origin" ;;;
       ret data)
    (fun _ => ret Null).

(** api.js, [getRouteData()]. *)
Definition getRouteData : M value :=
  try_catch
    (r <- fetch net "/get_route" Undefined ;;
     if negb (fst r) then ret Null
     else
       data <- json (snd r) ;;
       ret data)
    (fun _ => ret Null).

End RouteReaders.

(** ** Vocabulary of the further properties *)

(** What a request that cannot be shown as coordinates writes into the
    display node of [geocodeAddress]: the message of the failure. *)
Definition geocode_failure (r : response) : option value :=
  match r with
  | Rejected m => Some (Str m)
  | Responded _ None => Some SyntaxError
  | Responded true (Some data) =>
      if coordinate_object data then None else Some TypeError
  | Responded false (Some data) =>
      if nullish data then Some TypeError
      else Some (message_of (get data "error"))
  end.

(** What [geocodeAddress] returns when it has no node to write to. *)
Definition geocoded (r : response) : value :=
  match r with
  | Responded true (Some data) => data
  | _ => Null
  end.

(** The request [geocodeAddress] sends. *)
Definition geocode_request (address : string) : request :=
  {| url := "/geocode"; payload := Obj [("address", Str address)] |}.

(** The answers to [k] requests in a row, the first being request [n]. *)
Fixpoint answers (net : nat -> response) (n k : nat) : list response :=
  match k with
  | O => []
  | S k' => net n :: answers net (S n) k'
  end.

(** Whether [generateRoute] goes into the branch under
    [if (needNewRoute)]: there is no valid route, or one of the coordinate
    displays is empty, or the sampling box differs from the route. *)
Definition needs_new_route (w : world) : bool :=
  let route := currentRoute (vars (document w)) in
  if FormModule.valid_route route then
    match find_element "origin-coords" (elements w),
          find_element "destination-coords" (elements w) with
    | Some o, Some d =>
        negb (FormModule.reuses_route route (textContent o) (textContent d)
                (controls (document w)))
    | _, _ => false
    end
  else true.

(** Whether [generateRoute] goes on with the route it has. *)
Definition keeps_route (w : world) : bool :=
  let route := currentRoute (vars (document w)) in
  FormModule.valid_route route &&
  match find_element "origin-coords" (elements w),
        find_element "destination-coords" (elements w) with
  | Some o, Some d =>
      FormModule.reuses_route route (textContent o) (textContent d)
        (controls (document w))
  | _, _ => false
  end.

(** The waypoint texts [generateRoute] works with: those that [trim]
    does not empty. *)
Definition waypoint_texts (trim : string -> string) (f : form) : list string :=
  filter (fun v => negb (trim v =? "")) (waypoint_inputs f).

(** The message [getPlacesRequest] or [getFeaturesRequest] throws on an
    answer, [None] when the answer is a result. *)
Definition request_failure (fallback : string) (r : response) : option value :=
  match r with
  | Rejected m => Some (Str m)
  | Responded _ None => Some SyntaxError
  | Responded false (Some errorData) =>
      if nullish errorData then Some TypeError
      else Some (message_of (or_else (get errorData "error") (Str fallback)))
  | Responded true (Some data) =>
      if nullish data then Some TypeError else None
  end.

(** The request [getPlacesRequest] or [getFeaturesRequest] sends. *)
Definition along_route_request (times_1000 : string -> value)
    (path method : string) (polylineCoords : value) (radiusKm : string)
  : request :=
  {| url := path;
     payload := Obj [("polyline_coords", polylineCoords);
                     ("radius_m", times_1000 radiusKm);
                     ("method", Str method)] |}.

(** Several requests entered one after the other. *)
Definition add_requests (rs : list request) (w : world) : world :=
  fold_left (fun w r => add_request r w) rs w.

(** The requests made between two states went to the given paths only. *)
Definition sent_only (paths : list string) (w w' : world) : Prop :=
  exists extra,
    requests w' = requests w ++ extra /\
    Forall (fun r => In (url r) paths) extra.

(** The views that fill the map and the lists, as opposed to those that
    frame a route generation. *)
Definition fills (v : view_call) : bool :=
  match v with
  | ShowLoading | HideLoading | ClearMapLayers | ShowResults | Alert _ => false
  | _ => true
  end.

(** The views shown between two states filled the map and the lists. *)
Definition shown_only (w w' : world) : Prop :=
  exists vs, views w' = views w ++ vs /\ Forall (fun v => fills v = true) vs.

(** What [generateRouteRequest] makes of an answer. *)
Definition route_answer (r : response) : outcome value :=
  match r with
  | Rejected m => Exn (Str m)
  | Responded _ None => Exn SyntaxError
  | Responded ok (Some routeData) =>
      if nullish routeData then Exn TypeError
      else if negb ok || truthy (get routeData "error")
           then Exn (message_of (or_else (get routeData "error")
                                         (Str "Failed to generate route")))
           else Val routeData
  end.

(** The paths [getPlaces] and [getNaturalFeatures] talk to, and those of
    the branch of [generateRoute] that fetches a route. *)
Definition places_paths : list string := ["/places"; "/update_places_data"].

Definition features_paths : list string :=
  ["/natural_features"; "/update_features_data"].

Definition route_paths : list string :=
  ["/geocode"; "/route"; "/update_conversation_state"].

(* ================================================================== *)
(** ** The sidebar module: the two lists *)
(* ================================================================== *)

Module SidebarModule.

(** The children of a list of the sidebar: the paragraph set through
    [innerHTML], the [h4] of a type and the [div.feature-item] of an
    entry, each with its text. *)
Inductive node : Type :=
| Paragraph (text : string)
| Heading (text : string)
| Item (text : string).

(** The property names every object inherits from [Object.prototype]:
    looked up on an object literal they give a function, or for
    [__proto__] the prototype, none of which has a [push]. *)
Definition Object_prototype : list string :=
  [ "constructor"; "hasOwnProperty"; "isPrototypeOf"; "propertyIsEnumerable";
    "toLocaleString"; "toString"; "valueOf"; "__proto__";
    "__defineGetter__"; "__defineSetter__"; "__lookupGetter__";
    "__lookupSetter__" ].

Definition inherited (k : string) : bool :=
  existsb (String.eqb k) Object_prototype.

(** An object whose properties are arrays, in the order of creation. *)
Definition groups : Type := list (string * list value).

Definition has_key (k : string) (byType : groups) : bool :=
  existsb (fun g => fst g =? k) byType.

(** [byType[k].push(x)] on an own property. *)
Fixpoint push (k : string) (x : value) (byType : groups) : groups :=
  match byType with
  | [] => []
  | (k', members) :: rest =>
      if k' =? k then (k', members ++ [x]) :: rest
      else (k', members) :: push k x rest
  end.

(** [updateRouteInfo(distance, duration)], which writes
    [`Distance: ${distance}`] and [`Duration: ${duration}`]. *)
Definition updateRouteInfo (distance duration : value) : outcome unit :=
  if readable distance && readable duration then Val tt else Exn TypeError.

(** [updateSampledInfo(count)] for the [length] of the sampled points,
    which writes [`Route sampled to ${count} points`] when there is a
    count. *)
Definition updateSampledInfo (sampled_points : value) : outcome unit :=
  if readable (get sampled_points "length") then Val tt else Exn TypeError.

(** [places.length === 0]. *)
Definition length_is_zero (v : value) : bool :=
  match v with
  | Arr [] => true
  | Str "" => true
  | Obj props =>
      match lookup "length" props with
      | Num "0" => true
      | _ => false
      end
  | _ => false
  end.

(** [places.forEach(place => { if (placesByType[place.type])
    placesByType[place.type].push(place); })]; [None] is a TypeError. *)
Fixpoint group_places (byType : groups) (places : list value) : option groups :=
  match places with
  | [] => Some byType
  | place :: rest =>
      if nullish place then None
      else
        match ToString (get place "type") with
        | None => None
        | Some k =>
            if has_key k byType then group_places (push k place byType) rest
            else if inherited k then None
            else group_places byType rest
        end
  end.

(** [features.forEach(feature => { if (!featuresByType[feature.type])
    featuresByType[feature.type] = [];
    featuresByType[feature.type].push(feature); })]. *)
Fixpoint group_features (byType : groups) (features : list value)
  : option groups :=
  match features with
  | [] => Some byType
  | feature :: rest =>
      if nullish feature then None
      else
        match ToString (get feature "type") with
        | None => None
        | Some k =>
            if has_key k byType then group_features (push k feature byType) rest
            else if inherited k then None
            else group_features (byType ++ [(k, [feature])]) rest
        end
  end.

(** An array index: the canonical text of an integer from 0 to 2^32 - 2. *)
Definition digit (c : ascii) : option N :=
  let n := N_of_ascii c in
  if (48 <=? n)%N && (n <=? 57)%N then Some (n - 48)%N else None.

Fixpoint number (acc : N) (s : string) : option N :=
  match s with
  | EmptyString => Some acc
  | String c s' =>
      match digit c with
      | Some d => number (acc * 10 + d)%N s'
      | None => None
      end
  end.

Definition array_index (k : string) : option N :=
  match k with
  | EmptyString => None
  | String "0" EmptyString => Some 0%N
  | String "0" _ => None
  | _ =>
      match number 0%N k with
      | Some n => if (n <? 4294967295)%N then Some n else None
      | None => None
      end
  end.

Fixpoint insert (e : N * (string * list value))
    (sorted : list (N * (string * list value)))
  : list (N * (string * list value)) :=
  match sorted with
  | [] => [e]
  | e' :: rest =>
      if (fst e <=? fst e')%N then e :: sorted else e' :: insert e rest
  end.

(** [Object.entries(byType)]: the array indices in ascending order, then
    the other keys in the order of creation. *)
Definition entries (byType : groups) : groups :=
  map snd
      (fold_right insert []
         (flat_map (fun g => match array_index (fst g) with
                             | Some n => [(n, g)]
                             | None => []
                             end) byType))
  ++ filter (fun g => match array_index (fst g) with
                      | Some _ => false
                      | None => true
                      end) byType.

Section Lists.

(** [s.toUpperCase()]. *)
Variable toUpperCase : string -> string.

(** [s.charAt(0)]. *)
Definition charAt0 (s : string) : string :=
  match s with
  | EmptyString => ""
  | String c _ => String c ""
  end.

(** The number of entries as it reads in a text. *)
Definition decimal (n : nat) : string :=
  NilEmpty.string_of_uint (Nat.to_uint n).

(** [`${type.charAt(0).toUpperCase() + type.slice(1)}s (${n})`]. *)
Definition heading (type : string) (n : nat) : string :=
  (toUpperCase (charAt0 type) ++ slice 1 type ++ "s (" ++ decimal n ++ ")")%string.

(** [typeList.forEach(place => { ...; placeItem.textContent = place.name;
    ...; placesList.appendChild(placeItem); })] on the children [shown]. *)
Fixpoint list_places (typeList : list value) (shown : list node)
  : outcome unit * list node :=
  match typeList with
  | [] => (Val tt, shown)
  | place :: rest =>
      if nullish place then (Exn TypeError, shown)
      else
        match text_of (get place "name") with
        | None => (Exn TypeError, shown)
        | Some t => list_places rest (shown ++ [Item t])
        end
  end.

(** The same for features, where [feature.name !== 'unnamed'] guards the
    entry. *)
Fixpoint list_features (typeList : list value) (shown : list node)
  : outcome unit * list node :=
  match typeList with
  | [] => (Val tt, shown)
  | feature :: rest =>
      if nullish feature then (Exn TypeError, shown)
      else if is_string (get feature "name") "unnamed"
      then list_features rest shown
      else
        match text_of (get feature "name") with
        | None => (Exn TypeError, shown)
        | Some t => list_features rest (shown ++ [Item t])
        end
  end.

(** [for (const [type, typeList] of Object.entries(byType)) { if
    (typeList.length > 0) { heading; entries } }]. *)
Fixpoint list_types
    (list_entries : list value -> list node -> outcome unit * list node)
    (byType : groups) (shown : list node) : outcome unit * list node :=
  match byType with
  | [] => (Val tt, shown)
  | (type, typeList) :: rest =>
      if (0 <? length typeList)%nat then
        match list_entries typeList
                (shown ++ [Heading (heading type (length typeList))]) with
        | (Val _, shown') => list_types list_entries rest shown'
        | (Exn error, shown') => (Exn error, shown')
        end
      else list_types list_entries rest shown
  end.

(** [updatePlacesList(places)]: what it returns and the children of
    [places-list] it leaves. *)
Definition updatePlacesList (places : value) : outcome unit * list node :=
  if nullish places then (Exn TypeError, [])
  else if length_is_zero places
  then (Val tt, [Paragraph "No places found along this route."])
  else
    match places with
    | Arr elems =>
        match group_places [("city", []); ("town", []); ("village", [])] elems with
        | None => (Exn TypeError, [])
        | Some placesByType => list_types list_places (entries placesByType) []
        end
    | _ => (Exn TypeError, [])
    end.

(** [updateFeaturesList(features)]. *)
Definition updateFeaturesList (features : value) : outcome unit * list node :=
  if nullish features then (Exn TypeError, [])
  else if length_is_zero features
  then (Val tt, [Paragraph "No natural features found along this route."])
  else
    match features with
    | Arr elems =>
        match group_features [] elems with
        | None => (Exn TypeError, [])
        | Some featuresByType =>
            list_types list_features (entries featuresByType) []
        end
    | _ => (Exn TypeError, [])
    end.

End Lists.

End SidebarModule.

(* ================================================================== *)
(** ** The map module: the markers of places and features *)
(* ================================================================== *)

Module MapModule.

(** [displayRoute(routeData)]: nothing to draw without a non-empty array of
    coordinates; else [polyline_coords.map(point => [point[0], point[1]])],
    where Leaflet's own calls are taken to return. *)
Definition displayRoute (routeData : value) : outcome unit :=
  if nullish routeData then Exn TypeError
  else
    match get routeData "polyline_coords" with
    | Arr points => if existsb nullish points then Exn TypeError else Val tt
    | _ => Val tt
    end.

(** The colour looked up under [x.type] and the popup
    [`<strong>${x.name}</strong><br>${x.type}`] need a string for the type
    and for the name.  Leaflet's own calls are taken to return. *)
Definition marked (x : value) : bool :=
  readable (get x "type") && readable (get x "name").

(** [displayPlaces(places)]: [places.forEach(place => { marker; popup })],
    a TypeError when the value has no [forEach] or an entry is [null]. *)
Definition displayPlaces (places : value) : outcome unit :=
  match places with
  | Arr elems =>
      if forallb (fun place => negb (nullish place) && marked place) elems
      then Val tt else Exn TypeError
  | _ => Exn TypeError
  end.

(** [displayFeatures(features)], where [feature.lat && feature.lon] guards
    the marker. *)
Definition displayFeatures (features : value) : outcome unit :=
  match features with
  | Arr elems =>
      if forallb (fun feature =>
                    negb (nullish feature)
                    && (negb (truthy (get feature "lat")
                              && truthy (get feature "lon"))
                        || marked feature)) elems
      then Val tt else Exn TypeError
  | _ => Exn TypeError
  end.

End MapModule.

(** What a call into the two modules throws, by the definitions above: the
    instance of the parameter [raises] of the form module. *)
Definition thrown (o : outcome unit) : option value :=
  match o with
  | Val _ => None
  | Exn error => Some error
  end.

Definition thrown_by (toUpperCase : string -> string) (v : view_call)
  : option value :=
  match v with
  | DisplayRoute routeData => thrown (MapModule.displayRoute routeData)
  | UpdateRouteInfo distance duration =>
      thrown (SidebarModule.updateRouteInfo distance duration)
  | UpdateSampledInfo sampled_points =>
      thrown (SidebarModule.updateSampledInfo sampled_points)
  | DisplayPlaces places => thrown (MapModule.displayPlaces places)
  | UpdatePlacesList places =>
      thrown (fst (SidebarModule.updatePlacesList toUpperCase places))
  | DisplayFeatures features => thrown (MapModule.displayFeatures features)
  | UpdateFeaturesList features =>
      thrown (fst (SidebarModule.updateFeaturesList toUpperCase features))
  | _ => None
  end.

(** ** Vocabulary of the lists *)

(** The key a place or feature is filed under. *)
Definition type_key (entry : value) : option string :=
  ToString (get entry "type").

Definition of_type (k : string) (entry : value) : bool :=
  match type_key entry with
  | Some k' => k' =? k
  | None => false
  end.

(** An entry the lists can take: not [null], with a type that renders and
    is no inherited property name, and with a name that renders. *)
Definition listable (entry : value) : bool :=
  negb (nullish entry)
  && match type_key entry with
     | Some k => negb (SidebarModule.inherited k)
     | None => false
     end
  && match text_of (get entry "name") with
     | Some _ => true
     | None => false
     end.

(** An entry that makes the grouping loop raise. *)
Definition unlistable (entry : value) : bool :=
  nullish entry
  || match type_key entry with
     | Some k => SidebarModule.inherited k
     | None => true
     end.

Definition item_of (entry : value) : SidebarModule.node :=
  SidebarModule.Item
    match text_of (get entry "name") with
    | Some t => t
    | None => ""
    end.

(** A type with its heading and the entries under it; nothing for a type
    without members. *)
Definition places_section (toUpperCase : string -> string) (type : string)
    (members : list value) : list SidebarModule.node :=
  match members with
  | [] => []
  | _ :: _ =>
      SidebarModule.Heading
        (SidebarModule.heading toUpperCase type (length members))
      :: map item_of members
  end.

Definition has_name (entry : value) : bool :=
  negb (is_string (get entry "name") "unnamed").

(** For features the heading counts all members and the entries are the
    named ones. *)
Definition features_section (toUpperCase : string -> string)
    (g : string * list value) : list SidebarModule.node :=
  match snd g with
  | [] => []
  | _ :: _ =>
      SidebarModule.Heading
        (SidebarModule.heading toUpperCase (fst g) (length (snd g)))
      :: map item_of (filter has_name (snd g))
  end.

(** The types of a list of entries in the order of their first
    appearance, leaving out those already [seen]. *)
Fixpoint first_types (seen : list string) (l : list value) : list string :=
  match l with
  | [] => []
  | entry :: rest =>
      match type_key entry with
      | Some k =>
          if existsb (String.eqb k) seen then first_types seen rest
          else k :: first_types (seen ++ [k]) rest
      | None => first_types seen rest
      end
  end.

(** The entries by type: each type once, in the order of first
    appearance, with its entries in the order of the list. *)
Definition by_type (l : list value) : SidebarModule.groups :=
  map (fun k => (k, filter (of_type k) l)) (first_types [] l).


(** The entries filed in an object of arrays, type after type. *)
Definition members_of (byType : SidebarModule.groups) : list value :=
  flat_map snd byType.

Definition is_item (n : SidebarModule.node) : bool :=
  match n with
  | SidebarModule.Item _ => true
  | _ => false
  end.

(** The type of the entry is among those [seen]. *)
Definition seen_type (seen : list string) (entry : value) : bool :=
  match type_key entry with
  | Some k => existsb (String.eqb k) seen
  | None => false
  end.

(* ================================================================== *)
(** ** The chat history: api.js and chat.js, [loadChatHistory] *)
(* ================================================================== *)

Module ChatHistory.

(** A message of the chat panel: a [div] with its class and its text. *)
Record message_node : Type := { className : string; content : string }.

Definition hello : string :=
  "Hello! I'm MapChat, your route planning assistant. How can I help you today? You can ask me to find routes, show places along a route, or tell you about natural features you'll encounter on your journey.".

(** The greeting appended when the history is empty. *)
Definition greeting : message_node :=
  {| className := "chat-message assistant"; content := hello |}.

Fixpoint spaces (n : nat) : string :=
  match n with
  | O => ""
  | S n' => String " " (spaces n')
  end.

(** The greeting set through [innerHTML] when loading fails: the text of
    the [div] keeps the line breaks and the indentation of the template. *)
Definition fallback : message_node :=
  {| className := "chat-message assistant";
     content := (String nl (spaces 16) ++ hello
                 ++ String nl (spaces 12))%string |}.

(** [history.forEach((message, index) => { ... })] on the emptied panel;
    [None] is a TypeError: a message that is [null], or a role or content
    that does not render as a text. *)
Fixpoint add_messages (history : list value) (shown : list message_node)
  : option (list message_node) :=
  match history with
  | [] => Some shown
  | message :: rest =>
      if nullish message then None
      else
        match ToString (get message "role"),
              text_of (get message "content") with
        | Some role, Some t =>
            add_messages rest
              (shown ++ [{| className := ("chat-message " ++ role)%string;
                            content := t |}])
        | _, _ => None
        end
  end.

Section Loading.

Variable net : nat -> response.

(** api.js, [loadChatHistory()]. *)
Definition loadChatHistoryRequest : M value :=
  r <- fetch net "/chat/history" Undefined ;;
  if negb (fst r) then throw (Str "Failed to load chat history")
  else
    data <- json (snd r) ;;
    member data "history".

(** chat.js, [loadChatHistory()]: the message elements it leaves in
    [chat-messages]. *)
Definition loadChatHistory : M (list message_node) :=
  try_catch
    (history <- loadChatHistoryRequest ;;
     match history with
     | Arr messages =>
         match add_messages messages [] with
         | Some shown =>
             ret (if (length messages =? 0)%nat then shown ++ [greeting]
                  else shown)
         | None => throw TypeError
         end
     | _ => throw TypeError
     end)
    (fun _ => ret [fallback]).

End Loading.

End ChatHistory.

(** The panel for a history of messages that all render. *)
Definition history_node (message : value) : ChatHistory.message_node :=
  {| ChatHistory.className :=
       ("chat-message " ++
        match ToString (get message "role") with
        | Some role => role
        | None => ""
        end)%string;
     ChatHistory.content :=
       match text_of (get message "content") with
       | Some t => t
       | None => ""
       end |}.

(** A message of the history that can be shown. *)
Definition showable (message : value) : bool :=
  negb (nullish message)
  && match ToString (get message "role") with
     | Some _ => true
     | None => false
     end
  && match text_of (get message "content") with
     | Some _ => true
     | None => false
     end.

(** ** chat.js: the reset button of [initChat] *)

Module ChatReset.

(** The greeting set through [innerHTML] after a reset, with the line
    breaks and the indentation of its template. *)
Definition greeting : ChatHistory.message_node :=
  {| ChatHistory.className := "chat-message assistant";
     ChatHistory.content :=
       (String nl (ChatHistory.spaces 24) ++ ChatHistory.hello
        ++ String nl (ChatHistory.spaces 20))%string |}.

Section Reset.

Variable net : nat -> response.

(** api.js, [resetChatConversation()]. *)
Definition resetChatConversation : M bool :=
  r <- fetch net "/chat/reset" Undefined ;;
  json (snd r) ;;;
  ret (fst r).

(** The click handler of the reset button, on the messages the panel
    holds: the messages it leaves. *)
Definition reset_clicked (panel : list ChatHistory.message_node)
  : M (list ChatHistory.message_node) :=
  try_catch
    (success <- resetChatConversation ;;
     if success then
       modify (add_view ClearMapLayers) ;;;
       ret [greeting]
     else ret panel)
    (fun _ => ret panel).

End Reset.

End ChatReset.

(** The state of the page when the decoder, handling a [waypoint_added]
    message with a waypoint, clicks the submit button: the waypoint inputs
    of the new [div] are in the form. *)
Definition at_the_click (inputs : list string) (w : world) : world :=
  set_controls (append_waypoint inputs (controls (document w))) w.

(** ** Scenario data of the further properties *)

Module Cases.



(** The backend added a waypoint. *)
Definition des_moines : value :=
  Obj [("status", Str "waypoint_added");
       ("waypoint", Obj [("display_name", Str "Des Moines")])].

(** A waypoint whose name holds double quotes. *)
Definition the_rock : value :=
  Obj [("status", Str "waypoint_added");
       ("waypoint",
        Obj [("display_name",
              Str ("The " ++ String Json.quote "Rock" ++ String Json.quote ""))]);
       ("message", Str "Added")].

(** A waypoint whose name is an object with a field named [toString]. *)
Definition keyed_waypoint : value :=
  Obj [("status", Str "waypoint_added");
       ("waypoint", Obj [("display_name", Obj [("toString", Num "1")])]);
       ("message", Str "Added")].

(** The text before the first double quote. *)
Fixpoint before_quote (s : string) : string :=
  match s with
  | EmptyString => ""
  | String c s' => if Ascii.eqb c Json.quote then "" else String c (before_quote s')
  end.

(** The waypoint template on a name whose only characters with a meaning
    in HTML are double quotes: the first one ends the attribute, what
    follows is read as attribute names of the input, and the button is
    there. *)
Definition cut_at_quote (name : string) : markup :=
  {| fields := [before_quote name]; remove_button := true |}.

(** A waypoint whose name closes the attribute and the tag and opens a
    comment. *)
Definition into_a_comment : value :=
  Obj [("status", Str "waypoint_added");
       ("waypoint",
        Obj [("display_name",
              Str ("Ames" ++ String Json.quote "><!--"))]);
       ("message", Str "Added")].

(** The waypoint template on such a name: the input is there with the
    text before the quote; the rest of the template, the button with it,
    is inside the comment. *)
Definition cut_at_comment (name : string) : markup :=
  {| fields := [before_quote name]; remove_button := false |}.

(** A waypoint that loses its button, then an error. *)
Definition lost_button_then_error : transport :=
  Body [ ("data: " ++ Json.print into_a_comment ++ delimiter
          ++ Json.message [("error", Str "boom")] ++ delimiter)%string ]
       EndOfStream.

(** A 2xx answer without a list of places. *)
Definition no_list (n : nat) : response := Responded true (Some (Obj [])).

(** A geocoder that is unreachable at first and answers afterwards. *)
Definition recovering (n : nat) : response :=
  match n with
  | O => Rejected "Failed to fetch"
  | S _ => Responded true (Some (Obj [("lat", Num "40.7128");
                                      ("lng", Num "-74.006")]))
  end.

(** A geocoder that does not know any address. *)
Definition unknown (n : nat) : response :=
  Responded false (Some (Obj [("error", Str "Address not found")])).


(** A page with a route on display whose places were fetched at 5 km and
    whose coordinate displays are filled in. *)
Definition shown_world : world :=
  {| document :=
       {| vars := {| currentRoute :=
                       Obj [("polyline_coords",
                             Arr [Arr [Num "40.7128"; Num "-74.006"];
                                  Arr [Num "42.3601"; Num "-71.0589"]]);
                            ("distance_text", Str "346 km");
                            ("duration_text", Str "4 hours")];
                     currentPlaces := Some {| data := Arr []; radius := "5" |};
                     currentFeatures := None |};
          controls :=
            {| origin_input := "Chicago"; destination_input := "Denver";
               waypoint_inputs := ["Omaha"];
               sample_route := false; sample_method := "interval";
               interval_km := "5"; every_nth := "10";
               show_places := true; places_radius := "5";
               show_features := false; features_radius := "1" |} |};
     elements :=
       [("origin-coords",
         {| textContent := "Lat: 40.712800, Lng: -74.006000";
            classList := ["coordinates"] |});
        ("destination-coords",
         {| textContent := "Lat: 42.360100, Lng: -71.058900";
            classList := ["coordinates"] |})];
     chat := ChatModule.placeholder;
     requests := []; views := []; tasks := [] |}.

(** A page without a route, with two addresses typed in. *)
Definition typed_world : world :=
  {| document :=
       {| vars := {| currentRoute := Null; currentPlaces := None;
                     currentFeatures := None |};
          controls :=
            {| origin_input := "New York"; destination_input := "Boston";
               waypoint_inputs := [];
               sample_route := false; sample_method := "interval";
               interval_km := "5"; every_nth := "10";
               show_places := false; places_radius := "5";
               show_features := false; features_radius := "1" |} |};
     elements :=
       [("origin-coords", {| textContent := ""; classList := ["coordinates"] |});
        ("destination-coords",
         {| textContent := ""; classList := ["coordinates"] |})];
     chat := ChatModule.placeholder;
     requests := []; views := []; tasks := [] |}.

(** A router whose answer has no coordinates. *)
Definition no_coordinates : value :=
  Obj [("distance_text", Str "346 km"); ("duration_text", Str "4 hours")].

Definition bad_router (n : nat) : response :=
  match n with
  | 2 => Responded true (Some no_coordinates)
  | _ => Responded true (Some (Obj [("lat", Num "40.7128");
                                    ("lng", Num "-74.006")]))
  end.

(** A backend whose places service is down. *)
Definition places_down (n : nat) : response :=
  Responded false (Some (Obj [("error", Str "Overpass timeout")])).

(** A backend that answers with places and features. *)
Definition both_found : value :=
  Obj [("places", Arr [Obj [("name", Str "Albany"); ("type", Str "city")]]);
       ("features", Arr [Obj [("name", Str "Hudson"); ("type", Str "river")]])].

Definition answering (n : nat) : response := Responded true (Some both_found).

(** Upper case on the letters a to z. *)
Definition upper_letter (c : ascii) : ascii :=
  let n := nat_of_ascii c in
  if ((97 <=? n) && (n <=? 122))%nat then ascii_of_nat (n - 32) else c.

Fixpoint upper (s : string) : string :=
  match s with
  | EmptyString => EmptyString
  | String c s' => String (upper_letter c) (upper s')
  end.

(** What the calls into the map and the sidebar throw. *)
Definition raises : view_call -> option value := thrown_by upper.

(** Places as the backend sends them. *)
Definition some_places : list value :=
  [ Obj [("name", Str "Albany"); ("type", Str "city")];
    Obj [("name", Str "Exit 21"); ("type", Str "motorway_junction")];
    Obj [("name", Str "Troy"); ("type", Str "city")];
    Obj [("name", Str "Catskill"); ("type", Str "village")] ].

Definition other_places : list value :=
  [ Obj [("name", Str "Exit 21"); ("type", Str "motorway_junction")];
    Obj [("name", Str "Sleepy Hollow"); ("type", Str "hamlet")] ].

(** A place whose type is a name every object inherits. *)
Definition odd_places : list value :=
  [ Obj [("name", Str "Albany"); ("type", Str "city")];
    Obj [("name", Str "Nowhere"); ("type", Str "constructor")] ].

(** Features, some of them without a name of their own. *)
Definition some_features : list value :=
  [ Obj [("name", Str "Hudson"); ("type", Str "river")];
    Obj [("name", Str "unnamed"); ("type", Str "peak")];
    Obj [("name", Str "unnamed"); ("type", Str "river")];
    Obj [("name", Str "Kaaterskill"); ("type", Str "waterfall")] ].

End Cases.

(** [routed_world] after one and after two route generations. *)
Abbreviation once_generated :=
  (after_generateRoute Scenario.two_routes Scenario.toFixed6
     Scenario.times_1000 Scenario.trim Cases.raises Scenario.routed_world).

Abbreviation twice_generated :=
  (after_generateRoute Scenario.two_routes Scenario.toFixed6
     Scenario.times_1000 Scenario.trim Cases.raises once_generated).

(* ================================================================== *)
(** * Properties *)
(* ================================================================== *)

(** ** Splitting on the delimiter *)

Section SplitFacts.

Lemma string_pair_ind (P : string -> Prop) :
  P "" ->
  (forall c, P (String c "")) ->
  (forall c c' s, P s -> P (String c' s) -> P (String c (String c' s))) ->
  forall s, P s.
Proof.
  intros H0 H1 H2 s.
  assert (H : P s /\ forall c, P (String c s)).
  { induction s as [|a s [IHs IHc]].
    - split; [exact H0 | exact H1].
    - split; [apply IHc | intro c; apply H2; [exact IHs | apply IHc]]. }
  exact (proj1 H).
Qed.

Lemma cons_head_not_nil c l : cons_head c l <> [].
Proof. destruct l; discriminate. Qed.

Lemma split_not_nil s : split s <> [].
Proof.
  destruct s as [|c [|c' s]]; cbn [split]; try discriminate.
  destruct (Ascii.eqb c nl && Ascii.eqb c' nl); [discriminate|].
  apply cons_head_not_nil.
Qed.

Lemma removelast_cons_head c l :
  l <> [] ->
  removelast (cons_head c l) =
  match removelast l with
  | [] => []
  | _ => cons_head c (removelast l)
  end.
Proof.
  destruct l as [|p [|q l]]; intros H; try congruence; reflexivity.
Qed.

Lemma last_cons_head c l :
  l <> [] ->
  last (cons_head c l) "" =
  match removelast l with
  | [] => String c (last l "")
  | _ => last l ""
  end.
Proof.
  destruct l as [|p [|q l]]; intros H; try congruence; reflexivity.
Qed.

Lemma split_two c c' s :
  split (String c (String c' s)) =
  if Ascii.eqb c nl && Ascii.eqb c' nl
  then "" :: split s
  else cons_head c (split (String c' s)).
Proof. reflexivity. Qed.

(** Where no delimiter starts at the first character, [split] passes the
    character on to the first piece. *)
Lemma split_cons c s :
  match s with
  | String c' _ => Ascii.eqb c nl && Ascii.eqb c' nl
  | EmptyString => false
  end = false ->
  split (String c s) = cons_head c (split s).
Proof.
  destruct s as [|c' s]; intros H; simpl in *.
  - reflexivity.
  - rewrite H. reflexivity.
Qed.

Lemma app_cons_head c l1 l2 :
  l1 <> [] -> cons_head c (l1 ++ l2) = cons_head c l1 ++ l2.
Proof. destruct l1; [congruence | reflexivity]. Qed.

(** Splitting a text that grew: the pieces already cut stay, and the text
    after the last cut is split together with what arrived. *)
Lemma split_app s1 s2 :
  split (s1 ++ s2)%string =
  removelast (split s1) ++ split (last (split s1) "" ++ s2)%string.
Proof.
  induction s1 as [|c|c c' s IH1 IH2] using string_pair_ind.
  - reflexivity.
  - reflexivity.
  - change (String c (String c' s) ++ s2)%string
      with (String c (String c' (s ++ s2)))%string.
    rewrite (split_two c c' s), (split_two c c' (s ++ s2)).
    destruct (Ascii.eqb c nl && Ascii.eqb c' nl) eqn:E.
    + rewrite IH1.
      assert (Hne := split_not_nil s).
      destruct (split s) as [|p ps] eqn:Es; [congruence|].
      change (removelast ("" :: p :: ps)) with ("" :: removelast (p :: ps)).
      change (last ("" :: p :: ps) "") with (last (p :: ps) "").
      reflexivity.
    + change (String c' (s ++ s2))%string with (String c' s ++ s2)%string.
      rewrite IH2.
      assert (Hne := split_not_nil (String c' s)).
      rewrite removelast_cons_head, last_cons_head by exact Hne.
      destruct (removelast (split (String c' s))) as [|q qs] eqn:Er.
      * cbn [app].
        assert (Hl : exists t, last (split (String c' s)) "" = String c' t).
        { clear - E Er Hne. revert Er Hne.
          destruct s as [|c'' s].
          - intros _ _. exists "". reflexivity.
          - rewrite (split_two c' c'' s).
            destruct (Ascii.eqb c' nl && Ascii.eqb c'' nl).
            + assert (H := split_not_nil s).
              destruct (split s); [congruence | discriminate].
            + assert (H := split_not_nil (String c'' s)).
              destruct (split (String c'' s)) as [|p [|p' ps]];
                [congruence | | discriminate].
              intros _ _. exists p. reflexivity. }
        destruct Hl as [t Ht]. rewrite Ht.
        change (String c (String c' t) ++ s2)%string
          with (String c (String c' t ++ s2))%string.
        symmetry. apply split_cons. cbn. exact E.
      * rewrite app_cons_head by discriminate. reflexivity.
Qed.

(** The piece kept in the buffer holds no delimiter. *)
Lemma split_last s : split (last (split s) "") = [last (split s) ""].
Proof.
  induction s as [|c|c c' s IH1 IH2] using string_pair_ind.
  - reflexivity.
  - reflexivity.
  - rewrite (split_two c c' s).
    destruct (Ascii.eqb c nl && Ascii.eqb c' nl) eqn:E.
    + assert (Hne := split_not_nil s).
      destruct (split s) as [|p ps] eqn:Es; [congruence|].
      change (last ("" :: p :: ps) "") with (last (p :: ps) "").
      exact IH1.
    + assert (Hne := split_not_nil (String c' s)).
      rewrite last_cons_head by exact Hne.
      destruct (removelast (split (String c' s))) as [|q qs] eqn:Er;
        [|exact IH2].
      revert IH2 Er. destruct s as [|c'' s].
      * intros _ _. cbn. rewrite E. reflexivity.
      * rewrite (split_two c' c'' s).
        destruct (Ascii.eqb c' nl && Ascii.eqb c'' nl).
        { assert (H := split_not_nil s).
          destruct (split s); [congruence | discriminate]. }
        assert (H := split_not_nil (String c'' s)).
        destruct (split (String c'' s)) as [|p [|p' ps]];
          [congruence | | discriminate].
        cbn [cons_head last removelast]. intros IH _.
        rewrite split_cons; [rewrite IH; reflexivity | cbn; exact E].
Qed.

End SplitFacts.

(** ** The decoder and its buffer *)

Section DecoderFacts.

Variable JSON_parse : string -> option value.
Variable pg : page.
Variable waypoint_html : string -> markup.
Variable sum : string -> string -> string.

Local Abbreviation process_line :=
  (process_line JSON_parse pg waypoint_html sum).
Local Abbreviation process_lines :=
  (process_lines JSON_parse pg waypoint_html sum).
Local Abbreviation processStream :=
  (processStream JSON_parse pg waypoint_html sum).
Local Abbreviation decode_segments :=
  (decode_segments JSON_parse pg waypoint_html sum).

Ltac split_ifs :=
  repeat match goal with
         | |- context [if ?b then _ else _] => destruct b eqn:?
         end.

Lemma handle_data_no_read d data :
  without_reads (tried_acts (handle_data pg waypoint_html sum d data)) =
  tried_acts (handle_data pg waypoint_html sum d data).
Proof.
  unfold handle_data, ApiModule.waypoint_added, after_chunk,
    places_requested, features_requested, complete_now.
  repeat match goal with
         | |- context [if ?b then _ else _] => destruct b eqn:?
         | |- context [match ?o with Some _ => _ | None => _ end] =>
             destruct o eqn:?
         end; reflexivity.
Qed.

Lemma without_reads_app a b :
  without_reads (a ++ b) = without_reads a ++ without_reads b.
Proof. apply filter_app. Qed.

Lemma process_line_no_read d line :
  without_reads (step_acts (process_line d line)) =
  step_acts (process_line d line).
Proof.
  unfold ApiModule.process_line.
  destruct (startsWith line "data: "); [|reflexivity].
  destruct (JSON_parse (slice 6 line)) as [data|]; [|reflexivity].
  assert (H := handle_data_no_read d data).
  destruct (handle_data pg waypoint_html sum d data) as [s|acts d'];
    cbn [tried_acts step_acts] in *; [exact H|].
  rewrite without_reads_app, H. reflexivity.
Qed.

Lemma process_lines_no_read lines : forall d,
  without_reads (step_acts (process_lines d lines)) =
  step_acts (process_lines d lines).
Proof.
  induction lines as [|line rest IH]; intros d; [reflexivity|].
  cbn [ApiModule.process_lines].
  assert (H := process_line_no_read d line).
  destruct (process_line d line) as [acts d'|acts]; [|exact H].
  specialize (IH d').
  destruct (process_lines d' rest) as [acts' d''|acts'];
    cbn [step_acts] in *; rewrite without_reads_app; congruence.
Qed.

Lemma finish_no_read d e : without_reads (finish d e) = finish d e.
Proof. destruct e; reflexivity. Qed.

(** The loop over a list of lines that was cut in two. *)
Lemma process_lines_app l1 l2 : forall d,
  process_lines d (l1 ++ l2) =
  match process_lines d l1 with
  | Return acts => Return acts
  | Continue acts d' =>
      match process_lines d' l2 with
      | Return acts' => Return (acts ++ acts')
      | Continue acts' d'' => Continue (acts ++ acts') d''
      end
  end.
Proof.
  induction l1 as [|line rest IH]; intros d.
  - cbn. destruct (process_lines d l2); reflexivity.
  - cbn [app ApiModule.process_lines].
    destruct (process_line d line) as [acts d'|acts]; [|reflexivity].
    rewrite IH.
    destruct (process_lines d' rest) as [acts1 d1|acts1]; [|reflexivity].
    destruct (process_lines d1 l2) as [acts2 d2|acts2];
      rewrite app_assoc; reflexivity.
Qed.

Lemma append_assoc (a b c : string) :
  ((a ++ b) ++ c = a ++ (b ++ c))%string.
Proof. induction a as [|x a IH]; [reflexivity | cbn; rewrite IH; reflexivity]. Qed.

Lemma append_nil_r (a : string) : (a ++ "" = a)%string.
Proof. induction a as [|x a IH]; [reflexivity | cbn; rewrite IH; reflexivity]. Qed.

Lemma joined_app a b : joined (a ++ b) = (joined a ++ joined b)%string.
Proof.
  induction a as [|f a IH]; [reflexivity|].
  cbn [app joined]. rewrite IH. symmetry. apply append_assoc.
Qed.

Lemma removelast_app_split (l : list string) s :
  removelast (l ++ split s) = l ++ removelast (split s).
Proof. apply removelast_app, split_not_nil. Qed.

(** Reading fragment by fragment with a buffer does what one pass over the
    segments of the whole text does. *)
Lemma processStream_buffer frags e : forall buffer d,
  split buffer = [buffer] ->
  without_reads (processStream buffer d frags e) =
  match process_lines d (removelast (split (buffer ++ joined frags))) with
  | Return acts => acts
  | Continue acts d' => acts ++ finish d' e
  end.
Proof.
  induction frags as [|chunk rest IH]; intros buffer d Hb.
  - cbn [ApiModule.processStream joined without_reads filter].
    rewrite append_nil_r, Hb. cbn. apply finish_no_read.
  - cbn [ApiModule.processStream joined].
    rewrite <- append_assoc, (split_app (buffer ++ chunk) (joined rest)),
      removelast_app_split, process_lines_app.
    match goal with
    | |- without_reads (ReaderRead :: ?x) = _ =>
        change (without_reads (ReaderRead :: x)) with (without_reads x)
    end.
    assert (Hn := process_lines_no_read
                    (removelast (split (buffer ++ chunk))) d).
    destruct (process_lines d (removelast (split (buffer ++ chunk))))
      as [acts d'|acts]; cbn [step_acts] in Hn; [|exact Hn].
    rewrite without_reads_app, Hn, IH by apply split_last.
    destruct (process_lines d' _) as [acts' d''|acts'];
      [rewrite app_assoc|]; reflexivity.
Qed.

Lemma split_no_delimiter s : has_delimiter s = false -> split s = [s].
Proof.
  induction s as [|c|c c' s IH1 IH2] using string_pair_ind; try reflexivity.
  intros H. rewrite split_two.
  change (has_delimiter (String c (String c' s)))
    with ((Ascii.eqb c nl && Ascii.eqb c' nl) || has_delimiter (String c' s))
    in H.
  apply orb_false_elim in H as [H1 H2].
  rewrite H1, (IH2 H2). reflexivity.
Qed.

(** A clean segment followed by the delimiter is cut off whole. *)
Lemma split_clean m rest :
  clean m = true ->
  split (m ++ delimiter ++ rest) = m :: split rest.
Proof.
  unfold clean. rewrite negb_true_iff.
  induction m as [|c m IH]; intros H.
  - reflexivity.
  - change (String c m ++ delimiter ++ rest)%string
      with (String c (m ++ delimiter ++ rest))%string.
    destruct m as [|c' m].
    + cbn in H. rewrite orb_false_r in H.
      rewrite split_cons; [reflexivity|]. cbn. rewrite andb_true_r in *.
      exact H.
    + change (has_delimiter (String c (String c' m) ++ String nl ""))
        with ((Ascii.eqb c nl && Ascii.eqb c' nl)
              || has_delimiter (String c' m ++ String nl "")) in H.
      apply orb_false_elim in H as [H1 H2].
      rewrite split_cons; [rewrite (IH H2); reflexivity|].
      cbn. exact H1.
Qed.

Lemma split_framed segments tail :
  Forall (fun m => clean m = true) segments ->
  has_delimiter tail = false ->
  split (framed segments ++ tail) = segments ++ [tail].
Proof.
  intros Hc Ht. induction Hc as [|m rest Hm _ IH].
  - cbn. apply split_no_delimiter, Ht.
  - cbn [framed app]. rewrite !append_assoc, split_clean by exact Hm.
    rewrite IH. reflexivity.
Qed.

(** A text without blank line that ends in a closing brace, as a JSON
    object does, is a clean segment. *)
Lemma clean_object_text m :
  has_delimiter (m ++ "}") = false -> clean (m ++ "}") = true.
Proof.
  unfold clean. rewrite negb_true_iff.
  induction m as [|c m IH]; intros H; [reflexivity|].
  destruct m as [|c' m].
  - cbn in *. rewrite orb_false_r in *. destruct (Ascii.eqb c nl); reflexivity.
  - change (has_delimiter ((String c (String c' m) ++ "}") ++ String nl ""))
      with ((Ascii.eqb c nl && Ascii.eqb c' nl)
            || has_delimiter ((String c' m ++ "}") ++ String nl "")).
    change (has_delimiter (String c (String c' m) ++ "}"))
      with ((Ascii.eqb c nl && Ascii.eqb c' nl)
            || has_delimiter (String c' m ++ "}")) in H.
    apply orb_false_elim in H as [H1 H2].
    rewrite H1, (IH H2). reflexivity.
Qed.

(** The run on a text of clean segments, whatever the fragments. *)
Lemma processStream_framed segments frags tail e :
  Forall (fun m => clean m = true) segments ->
  has_delimiter tail = false ->
  joined frags = (framed segments ++ tail)%string ->
  without_reads (processStream "" initial frags e) = decode_segments segments e.
Proof.
  intros Hc Ht Hj.
  rewrite processStream_buffer by reflexivity.
  cbn [append]. rewrite Hj, split_framed by assumption.
  rewrite removelast_last. reflexivity.
Qed.

End DecoderFacts.

Import Scenario.

(** The decoder on the three messages of a plain answer, each arriving as
    one fragment: two chunks, then the completion with the whole text. *)
Example plain_answer :
  filter is_event
    (streamChatMessage Json.parse fresh_page waypoint_html sum
       (Body (map (fun m => (m ++ delimiter)%string) hi_there) EndOfStream)) =
  [OnChunk (Str "Hi"); OnChunk (Str " there");
   OnComplete (Str "Hi there") (Bool false)].
Proof. vm_compute. reflexivity. Qed.

(** ** The shape of a run *)

Section DecoderShape.

Variable JSON_parse : string -> option value.
Variable pg : page.
Variable waypoint_html : string -> markup.
Variable sum : string -> string -> string.

Local Abbreviation process_line :=
  (process_line JSON_parse pg waypoint_html sum).
Local Abbreviation process_lines :=
  (process_lines JSON_parse pg waypoint_html sum).
Local Abbreviation processStream :=
  (processStream JSON_parse pg waypoint_html sum).

Ltac split_ifs :=
  repeat match goal with
         | |- context [if ?b then _ else _] => destruct b eqn:?
         end.

Lemma places_requested_calls :
  Forall (fun a => page_call a = true) (places_requested pg).
Proof.
  unfold places_requested. split_ifs; repeat constructor.
Qed.

Lemma features_requested_calls :
  Forall (fun a => page_call a = true) (features_requested pg).
Proof.
  unfold features_requested. split_ifs; repeat constructor.
Qed.

Lemma plus_text t v :
  plus sum (Str t) v = option_map (fun s => Str (t ++ s)) (ToString v).
Proof.
  unfold plus.
  destruct v as [| |[|]|r|s|props|elems]; try reflexivity;
    unfold ToPrimitive; destruct (ToString _); reflexivity.
Qed.

Lemma plus_readable a b v : plus sum a b = Some v -> readable b = true.
Proof.
  unfold plus, readable.
  destruct (ToPrimitive a) as [pa|]; [|discriminate].
  destruct b as [| |[|]|r|s|props|elems]; try reflexivity;
    unfold ToPrimitive; destruct (ToString _); try reflexivity; discriminate.
Qed.

Lemma after_chunk_shape acts d data :
  Forall (fun a => passing a = true) acts -> step_shape (after_chunk acts d data).
Proof.
  intros H. unfold after_chunk.
  destruct (truthy (get data "error")); cbn [step_shape]; [|exact H].
  exists acts, [OnError (get data "error"); ReaderCancel].
  repeat split; [exact H | apply closing_error].
Qed.

Lemma handle_data_shape d data :
  match handle_data pg waypoint_html sum d data with
  | Finished s => step_shape s
  | Thrown acts _ => Forall (fun a => passing a = true) acts
  end.
Proof.
  unfold handle_data.
  destruct (nullish data); [constructor|].
  destruct (is_string (get data "status") "route_generated").
  { exists [], (complete_now data).
    repeat split; [constructor|]. apply (closing_status []). constructor. }
  destruct (is_string (get data "status") "places_requested").
  { exists [], ((if truthy (get data "show_places") then places_requested pg
                 else []) ++ complete_now data).
    repeat split; [constructor|]. apply closing_status.
    destruct (truthy (get data "show_places"));
      [apply places_requested_calls | constructor]. }
  destruct (is_string (get data "status") "features_requested").
  { exists [], ((if truthy (get data "show_features") then features_requested pg
                 else []) ++ complete_now data).
    repeat split; [constructor|]. apply closing_status.
    destruct (truthy (get data "show_features"));
      [apply features_requested_calls | constructor]. }
  destruct (is_string (get data "status") "waypoint_added").
  { destruct (truthy (get data "waypoint")).
    - unfold ApiModule.waypoint_added.
      destruct (ToString _) as [name|]; [|constructor].
      destruct (remove_button (waypoint_html name)); [|repeat constructor].
      exists [], ([AppendWaypoint (fields (waypoint_html name));
                   ClickGenerateRoute] ++ complete_now data).
      repeat split; [constructor|]. apply closing_status. repeat constructor.
    - exists [], (complete_now data).
      repeat split; [constructor|]. apply (closing_status []). constructor. }
  destruct (truthy (get data "chunk")).
  - destruct (plus sum (fullResponse d) (get data "chunk")) as [text|] eqn:E;
      [|constructor].
    apply after_chunk_shape. constructor; [|constructor].
    unfold passing. cbn [quiet]. rewrite (plus_readable _ _ _ E). reflexivity.
  - apply after_chunk_shape. constructor.
Qed.

Lemma process_line_shape d line : step_shape (process_line d line).
Proof.
  unfold ApiModule.process_line.
  destruct (startsWith line "data: "); [|constructor].
  destruct (JSON_parse (slice 6 line)) as [data|]; [|repeat constructor].
  assert (H := handle_data_shape d data).
  destruct (handle_data pg waypoint_html sum d data) as [s|acts d'];
    [exact H|].
  cbn [step_shape]. apply Forall_app. split; [exact H | repeat constructor].
Qed.

Lemma process_lines_shape lines : forall d, step_shape (process_lines d lines).
Proof.
  induction lines as [|line rest IH]; intros d; [constructor|].
  cbn [ApiModule.process_lines].
  assert (H := process_line_shape d line).
  destruct (process_line d line) as [acts d'|acts]; [|exact H].
  specialize (IH d').
  destruct (process_lines d' rest) as [acts' d''|acts']; cbn in *.
  - apply Forall_app; split; assumption.
  - destruct IH as (body & tail & -> & Hb & Hc).
    exists (acts ++ body), tail. rewrite app_assoc.
    repeat split; [apply Forall_app; split; assumption | exact Hc].
Qed.

Lemma count_reads_app a b : count_reads (a ++ b) = count_reads a + count_reads b.
Proof. unfold count_reads. rewrite filter_app, length_app. reflexivity. Qed.

Lemma process_lines_reads lines d :
  count_reads (step_acts (process_lines d lines)) = 0.
Proof.
  assert (H := process_lines_no_read JSON_parse pg waypoint_html sum lines d).
  unfold count_reads, without_reads in *.
  induction (step_acts (process_lines d lines)) as [|a l IH]; [reflexivity|].
  cbn in *. destruct a; cbn in *; try (injection H as H; auto).
  exfalso.
  assert (Hl := filter_length_le
                  (fun a => match a with ReaderRead => false | _ => true end) l).
  rewrite H in Hl. cbn in Hl. lia.
Qed.

(** A run is made of passing calls and one ending: that of a message, reached
    while fragments were still being read, or that of the stream itself,
    after one read more than there are fragments. *)
Lemma processStream_shape frags e : forall buffer d,
  exists body tail,
    processStream buffer d frags e = body ++ tail /\
    Forall (fun a => passing a = true) body /\
    ((closing tail /\ count_reads body <= length frags) \/
     ((exists d', tail = finish d' e) /\ count_reads body = S (length frags))).
Proof.
  induction frags as [|chunk rest IH]; intros buffer d.
  - exists [ReaderRead], (finish d e). cbn.
    repeat split; [repeat constructor|]. right. split; [exists d|]; reflexivity.
  - cbn [ApiModule.processStream].
    assert (Hs := process_lines_shape (removelast (split (buffer ++ chunk))) d).
    assert (Hr := process_lines_reads (removelast (split (buffer ++ chunk))) d).
    destruct (process_lines d (removelast (split (buffer ++ chunk))))
      as [acts d'|acts]; cbn [step_shape step_acts] in Hs, Hr.
    + destruct (IH (last (split (buffer ++ chunk)) "") d')
        as (body & tail & -> & Hb & Ht).
      exists (ReaderRead :: acts ++ body), tail.
      split; [cbn; rewrite app_assoc; reflexivity|].
      split; [constructor; [reflexivity | apply Forall_app; split; assumption]|].
      change (ReaderRead :: acts ++ body) with ([ReaderRead] ++ acts ++ body).
      rewrite !count_reads_app, Hr. cbn [length].
      change (count_reads [ReaderRead]) with 1.
      destruct Ht as [[Hc Hn]|[Hf Hn]]; [left | right]; split; auto; lia.
    + destruct Hs as (body & tail & -> & Hb & Hc).
      exists (ReaderRead :: body), tail.
      split; [reflexivity|]. split; [constructor; [reflexivity | exact Hb]|].
      left. split; [exact Hc|].
      rewrite count_reads_app in Hr.
      change (ReaderRead :: body) with ([ReaderRead] ++ body).
      rewrite count_reads_app. change (count_reads [ReaderRead]) with 1.
      cbn [length]. lia.
Qed.

Lemma quiet_not_terminal a : quiet a = true -> is_terminal a = false.
Proof. destruct a; cbn; congruence. Qed.

Lemma passing_not_terminal a : passing a = true -> is_terminal a = false.
Proof. destruct a; cbn; congruence. Qed.

Lemma page_call_not_terminal a : page_call a = true -> is_terminal a = false.
Proof. destruct a; cbn; congruence. Qed.






End DecoderShape.


(** ** The callbacks on the page *)

Section Reconciler.

Variable numbers_valid : string -> string -> bool.

Variable JSON_parse : string -> option value.
Variable waypoint_html : string -> markup.
Variable sum : string -> string -> string.

Lemma same_page_refl w : same_page w w.
Proof. repeat split. Qed.

Lemma same_page_trans w1 w2 w3 :
  same_page w1 w2 -> same_page w2 w3 -> same_page w1 w3.
Proof.
  unfold same_page. intros (?&?&?&?&?) (?&?&?&?&?).
  repeat split; congruence.
Qed.

Lemma append_waypoint_nil f : append_waypoint [] f = f.
Proof. destruct f. unfold append_waypoint. cbn. rewrite app_nil_r. reflexivity. Qed.

Lemma append_waypoint_app a b f :
  append_waypoint b (append_waypoint a f) = append_waypoint (a ++ b) f.
Proof. unfold append_waypoint. cbn. rewrite app_assoc. reflexivity. Qed.

Lemma same_store_refl w : same_store w w.
Proof.
  repeat split. exists []. symmetry. apply append_waypoint_nil.
Qed.

Lemma same_store_trans w1 w2 w3 :
  same_store w1 w2 -> same_store w2 w3 -> same_store w1 w3.
Proof.
  unfold same_store.
  intros (V1 & [a C1] & E1 & R1 & W1 & T1) (V2 & [b C2] & E2 & R2 & W2 & T2).
  repeat split; try congruence.
  exists (a ++ b). rewrite C2, C1. apply append_waypoint_app.
Qed.

Lemma same_page_store w w' : same_page w w' -> same_store w w'.
Proof.
  intros (D & E & R & V & T). repeat split; try congruence.
  exists []. rewrite D. symmetry. apply append_waypoint_nil.
Qed.

Lemma dispatch_quiet a w :
  quiet a = true -> exists w', dispatch numbers_valid a w = Some w' /\ same_page w w'.
Proof.
  destruct a; cbn; try discriminate; intros H;
    try (exists w; split; [reflexivity | repeat split]).
  unfold ChatModule.onChunk. unfold readable in H.
  destruct (ToString chunk) as [t|]; [|discriminate].
  eexists. split; [reflexivity | repeat split].
Qed.

Lemma dispatch_all_app tr1 : forall tr2 w,
  dispatch_all numbers_valid (tr1 ++ tr2) w =
  match dispatch_all numbers_valid tr1 w with
  | Some w1 => dispatch_all numbers_valid tr2 w1
  | None => None
  end.
Proof.
  induction tr1 as [|a tr1 IH]; intros tr2 w; [reflexivity|].
  cbn [app dispatch_all].
  destruct (dispatch numbers_valid a w); [apply IH | reflexivity].
Qed.

Lemma dispatch_all_quiet body : forall w,
  Forall (fun a => quiet a = true) body ->
  exists w', dispatch_all numbers_valid body w = Some w' /\ same_page w w'.
Proof.
  induction body as [|a body IH]; intros w H.
  - exists w. split; [reflexivity | apply same_page_refl].
  - inversion H as [|? ? Ha Hb]; subst. cbn [dispatch_all].
    destruct (dispatch_quiet a w Ha) as (w1 & -> & S1).
    destruct (IH w1 Hb) as (w' & -> & S2).
    exists w'. split; [reflexivity | exact (same_page_trans _ _ _ S1 S2)].
Qed.

(** The passing actions leave the store alone, and the whole page but the
    bubble when no waypoint was appended. *)
Lemma dispatch_all_passing body : forall w,
  Forall (fun a => passing a = true) body ->
  exists w',
    dispatch_all numbers_valid body w = Some w' /\ same_store w w' /\
    ((forall inputs, ~ In (AppendWaypoint inputs) body) -> same_page w w').
Proof.
  induction body as [|a body IH]; intros w H.
  - exists w. split; [reflexivity|].
    split; [apply same_store_refl | intros _; apply same_page_refl].
  - inversion H as [|? ? Ha Hb]; subst. cbn [dispatch_all].
    unfold passing in Ha. apply orb_true_iff in Ha as [Ha|Ha].
    + destruct (dispatch_quiet a w Ha) as (w1 & -> & S1).
      destruct (IH w1 Hb) as (w' & -> & S2 & S3).
      exists w'. split; [reflexivity|]. split.
      * exact (same_store_trans _ _ _ (same_page_store _ _ S1) S2).
      * intros Hno. apply (same_page_trans _ _ _ S1), S3.
        intros inputs Hin. apply (Hno inputs). right. exact Hin.
    + destruct a; try discriminate. cbn [dispatch].
      destruct (IH (set_controls
                      (append_waypoint inputs (controls (document w))) w) Hb)
        as (w' & -> & S2 & _).
      exists w'. split; [reflexivity|]. split.
      * refine (same_store_trans _ _ _ _ S2).
        repeat split. exists inputs. reflexivity.
      * intros Hno. exfalso. apply (Hno inputs). left. reflexivity.
Qed.

Lemma not_in_passing error body :
  Forall (fun a => passing a = true) body -> ~ In (OnError error) body.
Proof.
  intros H Hin. rewrite Forall_forall in H. specialize (H _ Hin). discriminate.
Qed.

Lemma not_in_page_calls error calls :
  Forall (fun a => page_call a = true) calls -> ~ In (OnError error) calls.
Proof.
  intros H Hin. rewrite Forall_forall in H. specialize (H _ Hin). discriminate.
Qed.

(** C9.  In a run of [streamChatMessage] in which the error callback is
    called every callback returns, and the run leaves the form module's
    variables (route, places, features) as they were, and with them the
    nodes, the requests sent, the views and the tasks started; the pending
    assistant message shows the error text, marked as an error and without
    the cursor.  Of the form controls only the waypoint inputs can have
    grown, by the [div] of a [waypoint_added] message whose handling
    raised an exception before the error arrived; when the run appended
    none, the controls are as they were too. *)
Theorem C9_error_leaves_the_store_alone
    (t : transport) (w : world) (error : value) :
  In (OnError error)
     (streamChatMessage JSON_parse (document w) waypoint_html sum t) ->
  exists w',
    dispatch_all numbers_valid
      (streamChatMessage JSON_parse (document w) waypoint_html sum t) w =
      Some w' /\
    same_store w w' /\
    chat w' =
      {| text := ChatModule.sorry; cursor := false; error_class := true |} /\
    ((forall inputs,
        ~ In (AppendWaypoint inputs)
             (streamChatMessage JSON_parse (document w) waypoint_html sum t)) ->
     same_page w w').
Proof.
  destruct t as [m|status|frags e]; cbn [streamChatMessage].
  - intros _. eexists. split; [reflexivity|].
    split; [apply same_page_store; repeat split|]. split; [reflexivity|].
    intros _. repeat split.
  - intros _. eexists. split; [reflexivity|].
    split; [apply same_page_store; repeat split|]. split; [reflexivity|].
    intros _. repeat split.
  - intros Hin.
    destruct (processStream_shape JSON_parse (document w) waypoint_html sum
                frags e "" initial)
      as (body & tail & Hrun & Hbody & Hend).
    rewrite Hrun in *. rewrite dispatch_all_app.
    destruct (dispatch_all_passing body w Hbody) as (w1 & -> & Hs & Hp).
    apply in_app_or in Hin as [Hin|Hin];
      [exfalso; exact (not_in_passing _ _ Hbody Hin)|].
    assert (Htail : exists err, tail = [OnError err]
                                \/ tail = [OnError err; ReaderCancel]).
    { destruct Hend as [[Hc _]|[[d' ->] _]].
      - destruct Hc as [calls rt ru Hcalls|err].
        + exfalso. apply in_app_or in Hin as [Hin|Hin].
          * exact (not_in_page_calls _ _ Hcalls Hin).
          * cbn in Hin. intuition discriminate.
        + exists err. auto.
      - destruct e as [|m]; cbn in Hin |- *.
        + exfalso. intuition discriminate.
        + exists m. auto. }
    destruct Hs as (V & C & E & R & W & T).
    destruct Htail as [err [-> | ->]]; cbn;
      (eexists; split; [reflexivity|];
       split; [repeat split; assumption|];
       split; [reflexivity|];
       intros Hno;
       destruct Hp as (D' & E' & R' & W' & T');
       [intros inputs Hi; apply (Hno inputs), in_or_app; left; exact Hi|];
       repeat split; assumption).
Qed.

End Reconciler.

Lemma C9_witness :
  In (OnError (Str "boom"))
     (streamChatMessage Json.parse (document fresh_world) waypoint_html sum
        failing_answer) /\
  exists w',
    dispatch_all numbers_valid
      (streamChatMessage Json.parse (document fresh_world) waypoint_html sum
         failing_answer) fresh_world = Some w' /\
    same_store fresh_world w' /\
    chat w' =
      {| text := ChatModule.sorry; cursor := false; error_class := true |} /\
    ((forall inputs,
        ~ In (AppendWaypoint inputs)
             (streamChatMessage Json.parse (document fresh_world)
                waypoint_html sum failing_answer)) ->
     same_page fresh_world w').
Proof.
  assert (Hin : In (OnError (Str "boom"))
                   (streamChatMessage Json.parse (document fresh_world)
                      waypoint_html sum failing_answer))
    by (vm_compute; auto).
  split; [exact Hin|].
  exact (C9_error_leaves_the_store_alone numbers_valid Json.parse waypoint_html sum
           failing_answer fresh_world _ Hin).
Defined.

(** An error after a [waypoint_added] message whose button is lost: the
    input was appended before the button was missed, and it stays; the
    route and the caches are as they were. *)
Example error_after_a_lost_button :
  streamChatMessage Json.parse (document Cases.shown_world)
    Cases.cut_at_comment sum Cases.lost_button_then_error =
  [ReaderRead; AppendWaypoint ["Ames"];
   ConsoleError ("data: " ++ Json.print Cases.into_a_comment);
   OnError (Str "boom"); ReaderCancel] /\
  option_map
    (fun w' => (vars (document w'), waypoint_inputs (controls (document w')),
                text (chat w'), tasks w'))
    (dispatch_all numbers_valid
       (streamChatMessage Json.parse (document Cases.shown_world)
          Cases.cut_at_comment sum Cases.lost_button_then_error)
       Cases.shown_world) =
  Some (vars (document Cases.shown_world), ["Omaha"; "Ames"],
        ChatModule.sorry, []).
Proof. split; vm_compute; reflexivity. Qed.

(** ** What a message yields *)

Section Messages.

Variable JSON_parse : string -> option value.
Variable pg : page.
Variable waypoint_html : string -> markup.
Variable sum : string -> string -> string.

Local Abbreviation handle_data := (handle_data pg waypoint_html sum).
Local Abbreviation process_line :=
  (process_line JSON_parse pg waypoint_html sum).
Local Abbreviation process_lines :=
  (process_lines JSON_parse pg waypoint_html sum).
Local Abbreviation processStream :=
  (processStream JSON_parse pg waypoint_html sum).
Local Abbreviation decode_segments :=
  (decode_segments JSON_parse pg waypoint_html sum).
Local Abbreviation messages_of := (decoded JSON_parse).
Local Abbreviation calls_of := (status_calls pg waypoint_html).
Local Abbreviation fails := (waypoint_fails waypoint_html).


Lemma named_status_false data :
  named_status data = false ->
  is_string (get data "status") "route_generated" = false /\
  is_string (get data "status") "places_requested" = false /\
  is_string (get data "status") "features_requested" = false /\
  is_string (get data "status") "waypoint_added" = false.
Proof.
  unfold named_status. intros H.
  repeat (apply orb_false_elim in H as [H ?]). auto.
Qed.

(** A status is one string: it is one of the four kinds at most. *)
Lemma is_string_other v a b :
  is_string v a = true -> (a =? b) = false -> is_string v b = false.
Proof.
  destruct v; cbn; try discriminate. intros H Hab.
  apply String.eqb_eq in H. subst. exact Hab.
Qed.

Lemma status_calls_page data :
  Forall (fun a => page_call a = true) (calls_of data).
Proof.
  unfold status_calls.
  repeat match goal with
         | |- context [if ?b then _ else _] => destruct b
         end;
    try apply places_requested_calls; try apply features_requested_calls;
    repeat constructor.
Qed.

Lemma waypoint_fails_named data : fails data = true -> named_status data = true.
Proof.
  unfold waypoint_fails, named_status. intros H.
  apply andb_true_iff in H as [H _]. apply andb_true_iff in H as [-> _].
  rewrite !orb_true_r. reflexivity.
Qed.

(** A message with a known status whose handling does not raise returns
    out of the loop with its page calls and its completion. *)
Lemma handle_data_named d data :
  nullish data = false ->
  named_status data = true ->
  fails data = false ->
  handle_data d data =
  Finished (Return (calls_of data ++ complete_now data)).
Proof.
  intros Hn Hs Hf. unfold ApiModule.handle_data, status_calls. rewrite Hn.
  destruct (is_string (get data "status") "route_generated") eqn:E1.
  { rewrite (is_string_other _ _ "places_requested" E1 eq_refl),
      (is_string_other _ _ "features_requested" E1 eq_refl),
      (is_string_other _ _ "waypoint_added" E1 eq_refl). reflexivity. }
  destruct (is_string (get data "status") "places_requested") eqn:E2;
    [reflexivity|].
  destruct (is_string (get data "status") "features_requested") eqn:E3;
    [reflexivity|].
  destruct (is_string (get data "status") "waypoint_added") eqn:E4.
  2:{ unfold named_status in Hs. rewrite E1, E2, E3, E4 in Hs. discriminate. }
  unfold waypoint_fails in Hf. rewrite E4 in Hf.
  destruct (truthy (get data "waypoint")); [|reflexivity].
  cbn [andb] in Hf. unfold ApiModule.waypoint_added, shown.
  fold (waypoint_name data).
  destruct (ToString (waypoint_name data)) as [name|]; [|discriminate].
  apply negb_false_iff in Hf. rewrite Hf. reflexivity.
Qed.

(** A [waypoint_added] message whose handling raises: the two variables
    hold the message and its flag, a [div] may have been appended, and
    neither the click nor a callback happened. *)
Lemma handle_data_fails d data :
  nullish data = false ->
  fails data = true ->
  exists acts,
    handle_data d data = Thrown acts (answered data) /\
    (acts = [] \/ exists inputs, acts = [AppendWaypoint inputs]).
Proof.
  intros Hn Hf. unfold waypoint_fails in Hf.
  apply andb_true_iff in Hf as [Hf Hm]. apply andb_true_iff in Hf as [E4 Hw].
  unfold ApiModule.handle_data. rewrite Hn.
  rewrite (is_string_other _ _ "route_generated" E4 eq_refl),
    (is_string_other _ _ "places_requested" E4 eq_refl),
    (is_string_other _ _ "features_requested" E4 eq_refl), E4, Hw.
  unfold ApiModule.waypoint_added. fold (waypoint_name data).
  destruct (ToString (waypoint_name data)) as [name|].
  - apply negb_true_iff in Hm. rewrite Hm. eexists. split; [reflexivity|].
    right. eexists. reflexivity.
  - exists []. auto.
Qed.

(** A message passed over for its chunk. *)
Lemma handle_data_unreadable d data t :
  nullish data = false ->
  fullResponse d = Str t ->
  unreadable data = true ->
  handle_data d data = Thrown [] d.
Proof.
  intros Hn Ht Hu. unfold unreadable in Hu.
  apply andb_true_iff in Hu as [Hu Hs]. apply andb_true_iff in Hu as [Hu Hc].
  apply negb_true_iff in Hu.
  apply named_status_false in Hu as (H1 & H2 & H3 & H4).
  unfold ApiModule.handle_data. rewrite Hn, H1, H2, H3, H4, Hc, Ht, plus_text.
  destruct (ToString (get data "chunk")); [discriminate | reflexivity].
Qed.

Lemma append_nil_end (a : string) : (a ++ "" = a)%string.
Proof. induction a as [|x a IH]; [reflexivity | cbn; rewrite IH; reflexivity]. Qed.

(** A message without known status that is not passed over: its chunk, if
    truthy, is added to the text and handed to [onChunk]; then come its
    [complete] flag and its error. *)
Lemma handle_data_heard d data t :
  nullish data = false ->
  named_status data = false ->
  unreadable data = false ->
  fullResponse d = Str t ->
  handle_data d data =
  Finished
    (after_chunk
       (if truthy (get data "chunk") then [OnChunk (get data "chunk")] else [])
       {| fullResponse := Str (t ++ concat_text (chunks [data]));
          requiresUpdate := requiresUpdate d |}
       data).
Proof.
  intros Hn Hs Hu Ht. unfold unreadable in Hu. rewrite Hs in Hu.
  cbn [negb andb] in Hu.
  apply named_status_false in Hs as (H1 & H2 & H3 & H4).
  unfold ApiModule.handle_data. rewrite Hn, H1, H2, H3, H4.
  unfold chunks. cbn [map filter].
  destruct (truthy (get data "chunk")) eqn:Hc.
  - rewrite Ht, plus_text. cbn [concat_text]. unfold shown.
    destruct (ToString (get data "chunk")) as [s|]; [|discriminate].
    cbn [option_map]. rewrite append_nil_end. reflexivity.
  - cbn [concat_text]. rewrite append_nil_end. destruct d. cbn in Ht.
    subst. reflexivity.
Qed.

(** C2, as the code has it.  In one decoded message a known status comes
    before the error.  A message with one of the four statuses yields the
    page calls of that status and its completion, whatever else it holds,
    and no error event; only a [waypoint_added] message whose name has no
    string or whose markup hides the remove button raises instead, before
    the click and the completion, and is logged.  A message without such a
    status but with a truthy error yields the error event, after the chunk
    event when it also has a truthy chunk, and its [complete] field yields
    nothing; when that chunk cannot be added to the text the message is
    logged and skipped, error and all. *)
Theorem C2_named_status_before_error (d : decoder) (data : value) :
  nullish data = false ->
  (named_status data = true ->
   Forall (fun a => page_call a = true) (calls_of data) /\
   (fails data = false ->
    handle_data d data =
    Finished (Return (calls_of data ++ complete_now data))) /\
   (fails data = true ->
    exists acts,
      handle_data d data = Thrown acts (answered data) /\
      (acts = [] \/ exists inputs, acts = [AppendWaypoint inputs]))) /\
  (named_status data = false ->
   truthy (get data "error") = true ->
   handle_data d data =
   if truthy (get data "chunk") then
     match plus sum (fullResponse d) (get data "chunk") with
     | Some _ =>
         Finished (Return [OnChunk (get data "chunk");
                           OnError (get data "error"); ReaderCancel])
     | None => Thrown [] d
     end
   else Finished (Return [OnError (get data "error"); ReaderCancel])).
Proof.
  intros Hn. split.
  - intros Hs. split; [apply status_calls_page|]. split.
    + apply handle_data_named; assumption.
    + apply handle_data_fails; assumption.
  - intros Hs He. apply named_status_false in Hs as (H1 & H2 & H3 & H4).
    unfold ApiModule.handle_data, after_chunk.
    rewrite Hn, H1, H2, H3, H4, He.
    destruct (truthy (get data "chunk")); [|reflexivity].
    destruct (plus sum (fullResponse d) (get data "chunk")); reflexivity.
Qed.

Lemma chunks_app a b : chunks (a ++ b) = chunks a ++ chunks b.
Proof. unfold chunks. rewrite map_app, filter_app. reflexivity. Qed.

Lemma concat_text_app a b :
  concat_text (a ++ b) = (concat_text a ++ concat_text b)%string.
Proof.
  induction a as [|x a IH]; [reflexivity|].
  cbn. rewrite IH, append_assoc. reflexivity.
Qed.

Lemma remember_from_app flag a b :
  remember_from flag (a ++ b) = remember_from (remember_from flag a) b.
Proof. apply fold_left_app. Qed.

Lemma heard_app a b : heard (a ++ b) = heard a ++ heard b.
Proof. apply filter_app. Qed.

(** A line that decodes to nothing: no [data: ] prefix, a syntax error,
    or [null]. *)
Lemma process_line_undecoded d line :
  messages_of [line] = [] ->
  exists acts, process_line d line = Continue acts d /\ filter is_event acts = [].
Proof.
  unfold decoded, ApiModule.process_line.
  cbn [flat_map]. rewrite app_nil_r.
  destruct (startsWith line "data: "); [|exists []; auto].
  destruct (JSON_parse (slice 6 line)) as [data|];
    [|exists [ConsoleError line]; auto].
  destruct (nullish data) eqn:Hn; [|discriminate].
  unfold ApiModule.handle_data. rewrite Hn. exists [ConsoleError line]; auto.
Qed.

Lemma process_line_decoded d line data :
  messages_of [line] = [data] ->
  process_line d line =
  match handle_data d data with
  | Finished s => s
  | Thrown acts d' => Continue (acts ++ [ConsoleError line]) d'
  end /\ nullish data = false.
Proof.
  unfold decoded, ApiModule.process_line.
  cbn [flat_map]. rewrite app_nil_r.
  destruct (startsWith line "data: "); [|discriminate].
  destruct (JSON_parse (slice 6 line)) as [data'|]; [|discriminate].
  destruct (nullish data') eqn:Hn; [discriminate|].
  intros H. injection H as <-. auto.
Qed.

Lemma decoded_one line :
  messages_of [line] = [] \/ exists data, messages_of [line] = [data].
Proof.
  unfold decoded. cbn [flat_map]. rewrite app_nil_r.
  destruct (startsWith line "data: "); [|auto].
  destruct (JSON_parse (slice 6 line)) as [data|]; [|auto].
  destruct (nullish data); [auto | right; exists data; reflexivity].
Qed.

Lemma decoded_cons line rest :
  messages_of (line :: rest) = messages_of [line] ++ messages_of rest.
Proof. unfold decoded. cbn [flat_map]. rewrite app_nil_r. reflexivity. Qed.

Lemma decoded_app a b : messages_of (a ++ b) = messages_of a ++ messages_of b.
Proof. unfold decoded. apply flat_map_app. Qed.

Lemma filter_event_calls calls :
  Forall (fun a => page_call a = true) calls -> filter is_event calls = calls.
Proof.
  induction 1 as [|a l Ha _ IH]; [reflexivity|].
  cbn [filter]. rewrite IH. destruct a; try discriminate; reflexivity.
Qed.

Lemma same_text d t :
  fullResponse d = Str t ->
  {| fullResponse := Str (t ++ ""); requiresUpdate := requiresUpdate d |} = d.
Proof. destruct d. cbn. intros ->. rewrite append_nil_end. reflexivity. Qed.

(** The loop over the segments of a stream, read off the messages they
    decode to: up to the first message that ends the stream the loop emits
    the truthy chunks of the messages it hears, in order; it returns with
    the events of that message, or runs to its end with the chunks added
    to the text and the flag of the last truthy [complete] remembered. *)
Lemma process_lines_events segments : forall d t,
  fullResponse d = Str t ->
  Forall (fun data => fails data = false) (messages_of segments) ->
  exists acts,
    filter is_event acts =
      map OnChunk (chunks (before_end (heard (messages_of segments)))) ++
      match first_end (heard (messages_of segments)) with
      | Some data => closing_events pg waypoint_html data
      | None => []
      end /\
    process_lines d segments =
      match first_end (heard (messages_of segments)) with
      | Some _ => Return acts
      | None =>
          Continue acts
            {| fullResponse :=
                 Str (t ++ concat_text (chunks (heard (messages_of segments))));
               requiresUpdate :=
                 remember_from (requiresUpdate d)
                               (heard (messages_of segments)) |}
      end.
Proof.
  induction segments as [|line rest IH]; intros d t Ht Hf.
  - exists []. cbn. rewrite (same_text d t Ht). auto.
  - rewrite decoded_cons in *. cbn [ApiModule.process_lines].
    apply Forall_app in Hf as [Hl Hr].
    destruct (decoded_one line) as [E|[data E]]; rewrite E in *.
    + destruct (process_line_undecoded d line E) as (acts0 & -> & Ha0).
      destruct (IH d t Ht Hr) as (acts & Ha & Hrun).
      exists (acts0 ++ acts). cbn [app]. rewrite filter_app, Ha0. cbn [app].
      split; [exact Ha|]. rewrite Hrun.
      destruct (first_end (heard (messages_of rest))); reflexivity.
    + destruct (process_line_decoded d line data E) as [-> Hn].
      inversion Hl as [|? ? Hd _]; subst.
      rewrite heard_app. unfold heard at 1 3 5 7 9. cbn [filter].
      destruct (unreadable data) eqn:Hu; cbn [negb app].
      * rewrite (handle_data_unreadable d data t Hn Ht Hu).
        destruct (IH d t Ht Hr) as (acts & Ha & Hrun).
        exists (ConsoleError line :: acts). cbn [app filter is_event].
        split; [exact Ha|]. rewrite Hrun.
        destruct (first_end (heard (messages_of rest))); reflexivity.
      * cbn [before_end first_end]. unfold plain.
        destruct (named_status data) eqn:Hs; cbn [negb andb].
        { rewrite (handle_data_named d data Hn Hs Hd).
          eexists. split; [|reflexivity].
          unfold closing_events, complete_now. rewrite Hs.
          rewrite filter_app, (filter_event_calls _ (status_calls_page data)).
          reflexivity. }
        rewrite (handle_data_heard d data t Hn Hs Hu Ht).
        unfold after_chunk.
        destruct (truthy (get data "error")) eqn:He; cbn [negb].
        { eexists. split; [|reflexivity].
          unfold closing_events. rewrite Hs.
          destruct (truthy (get data "chunk")); reflexivity. }
        match goal with
        | |- context [process_lines ?d' rest] =>
            destruct (IH d' (t ++ concat_text (chunks [data]))%string
                        (ltac:(destruct (truthy (get data "complete"));
                               reflexivity)) Hr)
              as (acts & Ha & Hrun)
        end.
        rewrite Hrun.
        exists ((if truthy (get data "chunk")
                 then [OnChunk (get data "chunk")] else []) ++ acts).
        split.
        -- rewrite filter_app, Ha.
           change (data :: before_end (heard (messages_of rest)))
             with ([data] ++ before_end (heard (messages_of rest))).
           rewrite chunks_app, map_app, <- app_assoc. f_equal.
           unfold chunks. cbn [map filter].
           destruct (truthy (get data "chunk")); reflexivity.
        -- destruct (first_end (heard (messages_of rest))); [reflexivity|].
           f_equal.
           change (data :: heard (messages_of rest))
             with ([data] ++ heard (messages_of rest)).
           rewrite chunks_app, concat_text_app, remember_from_app, append_assoc.
           unfold remember_from. cbn [fold_left].
           destruct (truthy (get data "complete")); reflexivity.
Qed.

Lemma before_end_all messages :
  first_end messages = None -> before_end messages = messages.
Proof.
  induction messages as [|data rest IH]; [reflexivity|].
  cbn. destruct (plain data); [|discriminate].
  intros H. rewrite (IH H). reflexivity.
Qed.

Lemma first_end_plain messages :
  Forall (fun data => plain data = true) messages -> first_end messages = None.
Proof.
  induction 1 as [|data rest Hd _ IH]; [reflexivity|].
  cbn. rewrite Hd. exact IH.
Qed.

Lemma events_without_reads tr :
  filter is_event (without_reads tr) = filter is_event tr.
Proof.
  induction tr as [|a tr IH]; [reflexivity|].
  unfold without_reads in *.
  destruct a; cbn [filter is_event]; rewrite ?IH; reflexivity.
Qed.

(** The events of the decoder run on complete segments. *)
Lemma decode_segments_events segments e :
  Forall (fun data => fails data = false) (messages_of segments) ->
  filter is_event (decode_segments segments e) =
  events_of pg waypoint_html (heard (messages_of segments)) e.
Proof.
  intros Hf. unfold ApiModule.decode_segments, events_of.
  destruct (process_lines_events segments initial "" eq_refl Hf)
    as (acts & Ha & ->).
  destruct (first_end (heard (messages_of segments))) eqn:Ee; [exact Ha|].
  rewrite filter_app, Ha, app_nil_r, (before_end_all _ Ee).
  destruct e; reflexivity.
Qed.

(** C1.  Whatever way a text made of segments, each followed by the
    double newline, and of an unfinished tail is cut into fragments, the
    decoder does, apart from the number of reads, exactly what processing
    the segments one after the other does, and the tail is dropped.  Its
    events are those of the messages the segments decode to, in order: a
    chunk event for every truthy chunk up to the first message that ends
    the stream, then the page calls and the completion of that message if
    it has a known status, or its error; and if no message ends the
    stream, the completion with all chunks joined and the remembered flag,
    or the error of a failed read.  This is said for streams in which no
    [waypoint_added] message raises while it is handled. *)
Theorem C1_fragment_boundaries_do_not_matter
    (segments frags : list string) (tail : string) (e : ending) :
  Forall (fun m => clean m = true) segments ->
  has_delimiter tail = false ->
  joined frags = (framed segments ++ tail)%string ->
  without_reads (processStream "" initial frags e) =
    decode_segments segments e /\
  (Forall (fun data => fails data = false) (messages_of segments) ->
   filter is_event (processStream "" initial frags e) =
   events_of pg waypoint_html (heard (messages_of segments)) e).
Proof.
  intros Hc Ht Hj.
  assert (Hrun := processStream_framed JSON_parse pg waypoint_html sum
                    _ _ _ e Hc Ht Hj).
  split; [exact Hrun|].
  intros Hf. rewrite <- events_without_reads, Hrun.
  apply decode_segments_events, Hf.
Qed.

Lemma heard_fails messages :
  Forall (fun data => plain data = true) (heard messages) ->
  Forall (fun data => fails data = false) messages.
Proof.
  induction messages as [|data rest IH]; intros H; [constructor|].
  unfold heard in H. cbn [filter] in H.
  destruct (unreadable data) eqn:Hu; cbn [negb] in H.
  - constructor; [|apply IH, H].
    destruct (fails data) eqn:Hf; [|reflexivity].
    apply waypoint_fails_named in Hf. unfold unreadable in Hu.
    rewrite Hf in Hu. discriminate.
  - inversion H as [|? ? Hd Hr]; subst.
    constructor; [|apply IH, Hr].
    destruct (fails data) eqn:Hf; [|reflexivity].
    apply waypoint_fails_named in Hf. unfold plain in Hd.
    rewrite Hf in Hd. discriminate.
Qed.

(** Over messages that are all plain the loop runs to its end. *)
Lemma process_lines_plain segments d t :
  fullResponse d = Str t ->
  Forall (fun data => plain data = true) (heard (messages_of segments)) ->
  exists acts,
    process_lines d segments =
    Continue acts
      {| fullResponse :=
           Str (t ++ concat_text (chunks (heard (messages_of segments))));
         requiresUpdate :=
           remember_from (requiresUpdate d) (heard (messages_of segments)) |} /\
    filter is_event acts = map OnChunk (chunks (heard (messages_of segments))).
Proof.
  intros Ht Hp.
  destruct (process_lines_events segments d t Ht (heard_fails _ Hp))
    as (acts & Ha & Hrun).
  rewrite (first_end_plain _ Hp) in Ha, Hrun.
  rewrite (before_end_all _ (first_end_plain _ Hp)), app_nil_r in Ha.
  exists acts. auto.
Qed.

(** C3, as the code has it.  When the stream ends naturally and none of the
    messages the decoder hears had a known status or a truthy error, the
    events of the run are one chunk event for every truthy chunk, in order,
    and then exactly one completion whose text is the concatenation of
    those chunks and whose flag is [requires_ui_update || false] of the last
    message with a truthy [complete], [false] when there was none.  A falsy
    chunk (the empty string) emits nothing, a falsy [complete] remembers
    nothing, and a message whose chunk has no string is not heard: it is
    logged and skipped with all its fields. *)
Theorem C3_completion_at_end_of_stream (frags : list string) :
  Forall (fun data => plain data = true)
         (heard (messages_of (segments_of (joined frags)))) ->
  filter is_event (processStream "" initial frags EndOfStream) =
  map OnChunk (chunks (heard (messages_of (segments_of (joined frags))))) ++
  [OnComplete
     (Str (concat_text
             (chunks (heard (messages_of (segments_of (joined frags)))))))
     (remembered (heard (messages_of (segments_of (joined frags)))))].
Proof.
  intros Hp.
  rewrite <- events_without_reads,
    (processStream_buffer JSON_parse pg waypoint_html sum
       frags EndOfStream "" initial eq_refl).
  cbn [append]. fold (segments_of (joined frags)).
  destruct (process_lines_plain _ initial "" eq_refl Hp) as (acts & -> & Ha).
  rewrite filter_app, Ha. reflexivity.
Qed.

(** The events of a stream of plain messages that ends naturally, whatever
    the fragments. *)
Lemma plain_stream_events (frags : list string) :
  Forall (fun data => plain data = true)
         (heard (messages_of (segments_of (joined frags)))) ->
  filter is_event (processStream "" initial frags EndOfStream) =
  map OnChunk (chunks (heard (messages_of (segments_of (joined frags))))) ++
  [OnComplete
     (Str (concat_text
             (chunks (heard (messages_of (segments_of (joined frags)))))))
     (remembered (heard (messages_of (segments_of (joined frags)))))].
Proof.
  intros Hp.
  rewrite <- events_without_reads,
    (processStream_buffer JSON_parse pg waypoint_html sum
       frags EndOfStream "" initial eq_refl).
  cbn [append]. fold (segments_of (joined frags)).
  destruct (process_lines_plain _ initial "" eq_refl Hp) as (acts & -> & Ha).
  rewrite filter_app, Ha. reflexivity.
Qed.

Lemma process_lines_skip bad after d :
  startsWith bad "data: " = true ->
  JSON_parse (slice 6 bad) = None ->
  process_lines d (bad :: after) =
  match process_lines d after with
  | Continue acts d' => Continue (ConsoleError bad :: acts) d'
  | Return acts => Return (ConsoleError bad :: acts)
  end.
Proof.
  intros Hp Hj. cbn [ApiModule.process_lines].
  unfold ApiModule.process_line. rewrite Hp, Hj. reflexivity.
Qed.

(** C4.  A segment that starts with [data: ] and does not parse is logged
    and skipped: whatever the fragments, the events of the run are those of
    the same stream without that segment, which are the events of the
    messages before and after it, in order, as if it were not there (the
    chunk events, and the events of the message or of the end that closes
    the stream); and unless a message before it ended the run, the log
    entry for it is made, which is said once on the messages and once on
    the decoder's way through the segments before. *)
Theorem C4_malformed_message_is_skipped
    (before after frags : list string) (bad tail : string) (e : ending) :
  Forall (fun m => clean m = true) (before ++ bad :: after) ->
  has_delimiter tail = false ->
  startsWith bad "data: " = true ->
  JSON_parse (slice 6 bad) = None ->
  joined frags = (framed (before ++ bad :: after) ++ tail)%string ->
  filter is_event (processStream "" initial frags e) =
    filter is_event (decode_segments (before ++ after) e) /\
  (Forall (fun data => fails data = false) (messages_of (before ++ after)) ->
   filter is_event (processStream "" initial frags e) =
   events_of pg waypoint_html (heard (messages_of (before ++ after))) e) /\
  (Forall (fun data => fails data = false) (messages_of before) ->
   first_end (heard (messages_of before)) = None ->
   In (ConsoleError bad) (processStream "" initial frags e)) /\
  (forall acts d,
     process_lines initial before = Continue acts d ->
     In (ConsoleError bad) (processStream "" initial frags e)).
Proof.
  intros Hc Ht Hp Hj Hf.
  assert (Hrun := processStream_framed JSON_parse pg waypoint_html sum
                    _ _ _ e Hc Ht Hf).
  assert (Hev : filter is_event (processStream "" initial frags e) =
                filter is_event (decode_segments (before ++ after) e)).
  { rewrite <- events_without_reads, Hrun.
    unfold ApiModule.decode_segments. rewrite !process_lines_app.
    destruct (process_lines initial before) as [acts d|acts]; [|reflexivity].
    rewrite (process_lines_skip _ _ _ Hp Hj).
    destruct (process_lines d after) as [acts' d'|acts'];
      rewrite !filter_app; reflexivity. }
  assert (Hlog : forall acts d,
             process_lines initial before = Continue acts d ->
             In (ConsoleError bad) (processStream "" initial frags e)).
  { intros acts d Eb.
    unfold ApiModule.decode_segments in Hrun.
    rewrite process_lines_app, Eb, (process_lines_skip _ _ _ Hp Hj) in Hrun.
    assert (Hin : In (ConsoleError bad)
                     (without_reads (processStream "" initial frags e))).
    { rewrite Hrun.
      match goal with
      | |- context [process_lines ?d after] =>
          destruct (process_lines d after) as [acts' d'|acts']
      end; rewrite ?in_app_iff; cbn; auto. }
    unfold without_reads in Hin. apply filter_In in Hin. tauto. }
  split; [exact Hev|]. split; [|split; [|exact Hlog]].
  - intros Hw. rewrite Hev. apply decode_segments_events, Hw.
  - intros Hw He.
    destruct (process_lines_events before initial "" eq_refl Hw)
      as (acts & _ & Eb).
    rewrite He in Eb. exact (Hlog _ _ Eb).
Qed.

End Messages.

Lemma C1_witness :
  Forall (fun m => clean m = true) hi_there /\
  has_delimiter "data: {" = false /\
  joined (chop 6 (framed hi_there ++ "data: {")) =
    (framed hi_there ++ "data: {")%string /\
  Forall (fun data => waypoint_fails waypoint_html data = false)
         (decoded Json.parse hi_there) /\
  without_reads
    (processStream Json.parse fresh_page waypoint_html sum "" initial
       (chop 6 (framed hi_there ++ "data: {")) EndOfStream) =
    decode_segments Json.parse fresh_page waypoint_html sum hi_there
      EndOfStream /\
  filter is_event
    (processStream Json.parse fresh_page waypoint_html sum "" initial
       (chop 6 (framed hi_there ++ "data: {")) EndOfStream) =
    events_of fresh_page waypoint_html (heard (decoded Json.parse hi_there))
      EndOfStream.
Proof.
  assert (Hc : Forall (fun m => clean m = true) hi_there)
    by (repeat constructor).
  assert (Ht : has_delimiter "data: {" = false) by reflexivity.
  assert (Hj : joined (chop 6 (framed hi_there ++ "data: {")) =
               (framed hi_there ++ "data: {")%string) by reflexivity.
  assert (Hf : Forall (fun data => waypoint_fails waypoint_html data = false)
                      (decoded Json.parse hi_there))
    by (vm_compute; repeat constructor).
  split; [exact Hc | split; [exact Ht | split; [exact Hj | split; [exact Hf|]]]].
  destruct (C1_fragment_boundaries_do_not_matter Json.parse fresh_page
              waypoint_html sum hi_there _ "data: {" EndOfStream Hc Ht Hj)
    as [H1 H2].
  split; [exact H1 | exact (H2 Hf)].
Defined.

(** The events of the plain answer as [events_of] reads them off its three
    messages. *)
Example events_of_plain_answer :
  events_of fresh_page waypoint_html (heard (decoded Json.parse hi_there))
    EndOfStream =
  [OnChunk (Str "Hi"); OnChunk (Str " there");
   OnComplete (Str "Hi there") (Bool false)].
Proof. vm_compute. reflexivity. Qed.

Lemma C2_witness :
  nullish status_and_error = false /\
  (named_status status_and_error = true ->
   Forall (fun a => page_call a = true)
          (status_calls fresh_page waypoint_html status_and_error) /\
   (waypoint_fails waypoint_html status_and_error = false ->
    handle_data fresh_page waypoint_html sum initial status_and_error =
    Finished (Return (status_calls fresh_page waypoint_html status_and_error
                      ++ complete_now status_and_error))) /\
   (waypoint_fails waypoint_html status_and_error = true ->
    exists acts,
      handle_data fresh_page waypoint_html sum initial status_and_error =
        Thrown acts (answered status_and_error) /\
      (acts = [] \/ exists inputs, acts = [AppendWaypoint inputs]))) /\
  (named_status status_and_error = false ->
   truthy (get status_and_error "error") = true ->
   handle_data fresh_page waypoint_html sum initial status_and_error =
   if truthy (get status_and_error "chunk") then
     match plus sum (fullResponse initial) (get status_and_error "chunk") with
     | Some _ =>
         Finished (Return [OnChunk (get status_and_error "chunk");
                           OnError (get status_and_error "error");
                           ReaderCancel])
     | None => Thrown [] initial
     end
   else Finished (Return [OnError (get status_and_error "error");
                          ReaderCancel])).
Proof.
  assert (Hn : nullish status_and_error = false) by reflexivity.
  split; [exact Hn|].
  exact (C2_named_status_before_error fresh_page waypoint_html sum initial
           status_and_error Hn).
Defined.

(** A message with the status [route_generated] and an error: the decoder
    completes with the status message and never calls the error callback,
    where the priority of the spec asks for the error alone. *)
Lemma C2_counterexample :
  filter is_event
    (streamChatMessage Json.parse fresh_page waypoint_html sum
       status_and_error_stream) =
    [OnComplete (Str "Route ready") (Bool true)] /\
  spec_priority status_and_error = [OnError (Str "boom")] /\
  filter is_event
    (streamChatMessage Json.parse fresh_page waypoint_html sum
       status_and_error_stream) <>
    spec_priority status_and_error.
Proof.
  split; [vm_compute; reflexivity|].
  split; [reflexivity|].
  vm_compute. discriminate.
Qed.

(** A message whose chunk is an object with a [toString] field, next to an
    error: adding the chunk to the text raises, the message is logged and
    the stream goes on to its end, with neither the chunk nor the error. *)
Example unreadable_chunk_is_skipped :
  processStream Json.parse fresh_page waypoint_html sum "" initial
    [("data: " ++ Json.print keyed_chunk ++ delimiter)%string] EndOfStream =
  [ReaderRead; ConsoleError ("data: " ++ Json.print keyed_chunk); ReaderRead;
   OnComplete (Str "") (Bool false)].
Proof. vm_compute. reflexivity. Qed.

Lemma C3_witness :
  Forall (fun data => plain data = true)
         (heard (decoded Json.parse
                   (segments_of (joined (chop 6 (framed hi_there)))))) /\
  filter is_event
    (processStream Json.parse fresh_page waypoint_html sum "" initial
       (chop 6 (framed hi_there)) EndOfStream) =
  map OnChunk
    (chunks (heard (decoded Json.parse
                      (segments_of (joined (chop 6 (framed hi_there)))))))
  ++ [OnComplete
        (Str (concat_text
                (chunks (heard (decoded Json.parse
                                  (segments_of
                                     (joined (chop 6 (framed hi_there)))))))))
        (remembered (heard (decoded Json.parse
                              (segments_of
                                 (joined (chop 6 (framed hi_there)))))))].
Proof.
  assert (Hp : Forall (fun data => plain data = true)
                 (heard (decoded Json.parse
                           (segments_of (joined (chop 6 (framed hi_there)))))))
    by (vm_compute; repeat constructor).
  split; [exact Hp|].
  exact (C3_completion_at_end_of_stream Json.parse fresh_page waypoint_html
           sum _ Hp).
Defined.

(** An answer whose second message has an empty chunk and whose last
    message has [complete: false]: one chunk event for two chunk messages,
    and the flag of the earlier [complete] message, not of the last one. *)
Lemma C3_counterexample :
  decoded Json.parse (segments_of (joined odd_answer_frags)) = odd_answer /\
  filter is_event
    (processStream Json.parse fresh_page waypoint_html sum "" initial
       odd_answer_frags EndOfStream) =
    [OnChunk (Str "Hi"); OnComplete (Str "Hi") (Bool true)] /\
  spec_end_of_stream odd_answer =
    [OnChunk (Str "Hi"); OnChunk (Str ""); OnComplete (Str "Hi") (Bool false)] /\
  filter is_event
    (processStream Json.parse fresh_page waypoint_html sum "" initial
       odd_answer_frags EndOfStream) <>
    spec_end_of_stream odd_answer.
Proof.
  split; [vm_compute; reflexivity|].
  split; [vm_compute; reflexivity|].
  split; [vm_compute; reflexivity|].
  vm_compute. discriminate.
Qed.

Lemma C4_witness :
  Forall (fun m => clean m = true)
         ([Json.message [("chunk", Str "Hi")]] ++ garbled ::
          [Json.message [("chunk", Str " there")]]) /\
  has_delimiter "" = false /\
  startsWith garbled "data: " = true /\
  Json.parse (slice 6 garbled) = None /\
  joined (chop 4 (framed ([Json.message [("chunk", Str "Hi")]] ++ garbled ::
                          [Json.message [("chunk", Str " there")]]) ++ "")) =
    (framed ([Json.message [("chunk", Str "Hi")]] ++ garbled ::
             [Json.message [("chunk", Str " there")]]) ++ "")%string /\
  Forall (fun data => waypoint_fails waypoint_html data = false)
         (decoded Json.parse
            ([Json.message [("chunk", Str "Hi")]] ++
             [Json.message [("chunk", Str " there")]])) /\
  Forall (fun data => waypoint_fails waypoint_html data = false)
         (decoded Json.parse [Json.message [("chunk", Str "Hi")]]) /\
  first_end (heard (decoded Json.parse [Json.message [("chunk", Str "Hi")]])) =
    None /\
  filter is_event
    (processStream Json.parse fresh_page waypoint_html sum "" initial
       (chop 4 (framed ([Json.message [("chunk", Str "Hi")]] ++ garbled ::
                        [Json.message [("chunk", Str " there")]]) ++ ""))
       EndOfStream) =
    filter is_event
      (decode_segments Json.parse fresh_page waypoint_html sum
         ([Json.message [("chunk", Str "Hi")]] ++
          [Json.message [("chunk", Str " there")]]) EndOfStream) /\
  filter is_event
    (processStream Json.parse fresh_page waypoint_html sum "" initial
       (chop 4 (framed ([Json.message [("chunk", Str "Hi")]] ++ garbled ::
                        [Json.message [("chunk", Str " there")]]) ++ ""))
       EndOfStream) =
    events_of fresh_page waypoint_html
      (heard (decoded Json.parse
                ([Json.message [("chunk", Str "Hi")]] ++
                 [Json.message [("chunk", Str " there")]]))) EndOfStream /\
  In (ConsoleError garbled)
     (processStream Json.parse fresh_page waypoint_html sum "" initial
        (chop 4 (framed ([Json.message [("chunk", Str "Hi")]] ++ garbled ::
                         [Json.message [("chunk", Str " there")]]) ++ ""))
        EndOfStream).
Proof.
  assert (Hc : Forall (fun m => clean m = true)
                 ([Json.message [("chunk", Str "Hi")]] ++ garbled ::
                  [Json.message [("chunk", Str " there")]]))
    by (repeat constructor).
  assert (Ht : has_delimiter "" = false) by reflexivity.
  assert (Hp : startsWith garbled "data: " = true) by reflexivity.
  assert (Hj : Json.parse (slice 6 garbled) = None) by reflexivity.
  assert (Hf : joined (chop 4 (framed ([Json.message [("chunk", Str "Hi")]]
                                       ++ garbled ::
                                       [Json.message [("chunk", Str " there")]])
                               ++ "")) =
               (framed ([Json.message [("chunk", Str "Hi")]] ++ garbled ::
                        [Json.message [("chunk", Str " there")]]) ++ "")%string)
    by reflexivity.
  assert (Hw : Forall (fun data => waypoint_fails waypoint_html data = false)
                 (decoded Json.parse
                    ([Json.message [("chunk", Str "Hi")]] ++
                     [Json.message [("chunk", Str " there")]])))
    by (vm_compute; repeat constructor).
  assert (Hb : Forall (fun data => waypoint_fails waypoint_html data = false)
                 (decoded Json.parse [Json.message [("chunk", Str "Hi")]]))
    by (vm_compute; repeat constructor).
  assert (He : first_end (heard (decoded Json.parse
                                   [Json.message [("chunk", Str "Hi")]])) = None)
    by reflexivity.
  split; [exact Hc | split; [exact Ht | split; [exact Hp | split; [exact Hj |
    split; [exact Hf | split; [exact Hw | split; [exact Hb |
    split; [exact He|]]]]]]]].
  destruct (C4_malformed_message_is_skipped Json.parse fresh_page
              waypoint_html sum _ _ _ garbled "" EndOfStream Hc Ht Hp Hj Hf)
    as (H1 & H2 & H3 & _).
  split; [exact H1 | split; [exact (H2 Hw) | exact (H3 Hb He)]].
Defined.

(** The same stream as the decoder sees it: both chunks arrive, the log
    entry stands between them, and the text at the end is whole. *)
Example garbled_between_chunks :
  without_reads
    (processStream Json.parse fresh_page waypoint_html sum "" initial
       (chop 4 (framed [Json.message [("chunk", Str "Hi")]; garbled;
                        Json.message [("chunk", Str " there")]]))
       EndOfStream) =
  [OnChunk (Str "Hi"); ConsoleError garbled; OnChunk (Str " there");
   OnComplete (Str "Hi there") (Bool false)].
Proof. vm_compute. reflexivity. Qed.

(** ** geocodeAddress *)

Section Geocode.

Variable net : nat -> response.
Variable toFixed6 : string -> string.

Lemma find_put_element id el els :
  find_element id els <> None ->
  find_element id (put_element id el els) = Some el.
Proof.
  induction els as [|[id' el'] els IH]; cbn; intros H; [congruence|].
  destruct (id' =? id) eqn:E; cbn; rewrite E; [reflexivity | apply IH, H].
Qed.

(** With its node in the page, or with no node asked for, showing an error
    whose message has a string succeeds; the requests are not touched. *)
Lemma show_error_ok display msg t w :
  ToString msg = Some t ->
  (forall id, given display = Some id -> find_element id (elements w) <> None) ->
  exists w', show_error display msg w = (Val tt, w') /\
             requests w' = requests w /\ document w' = document w.
Proof.
  unfold show_error. intros Ht H.
  destruct (given display) as [id|]; [|exists w; auto].
  specialize (H id eq_refl).
  unfold bind, interpolated, set_textContent, classList_add. rewrite Ht.
  unfold ret at 1.
  destruct (find_element id (elements w)) as [el|] eqn:E; [|congruence].
  cbn [elements set_elements].
  rewrite find_put_element by congruence.
  eexists. split; [reflexivity | split; reflexivity].
Qed.

(** A message without string raises before anything is written. *)
Lemma show_error_unreadable display msg w :
  ToString msg = None ->
  show_error display msg w =
  match given display with
  | Some _ => (Exn TypeError, w)
  | None => (Val tt, w)
  end.
Proof.
  unfold show_error, bind, interpolated. intros ->.
  destruct (given display); reflexivity.
Qed.

(** C10, as the code has it.  [geocodeAddress] returns and never throws,
    provided the node named by [displayElementId], when one is named, is
    in the page: it returns the parsed body when the response is 2xx and,
    where the result is to be displayed, the body has numbers under [lat]
    and [lng]; it returns [null] when the response is not 2xx, when
    [fetch] rejects, when the body does not parse, and when a 2xx body
    that is to be displayed has no such numbers. *)
Theorem C10_geocodeAddress_returns
    (address : string) (displayElementId : option string) (w : world) :
  (forall id, given displayElementId = Some id ->
              find_element id (elements w) <> None) ->
  exists w',
    geocodeAddress net toFixed6 address displayElementId w =
    (Val match net (length (requests w)) with
         | Responded true (Some data) =>
             match given displayElementId with
             | None => data
             | Some _ => if coordinate_object data then data else Null
             end
         | _ => Null
         end, w').
Proof.
  intros Hel.
  unfold geocodeAddress, try_catch, bind at 1, fetch.
  set (w1 := add_request _ w).
  assert (Hel1 : forall id, given displayElementId = Some id ->
                            find_element id (elements w1) <> None) by exact Hel.
  assert (Hcatch : forall t w2,
             elements w2 = elements w1 ->
             exists w', bind (show_error displayElementId (Str t))
                             (fun _ => ret Null) w2 = (Val Null, w')).
  { intros t w2 E. unfold bind.
    destruct (show_error_ok displayElementId (Str t) t w2 eq_refl)
      as (w' & -> & _).
    - intros id Hid. rewrite E. apply Hel1, Hid.
    - exists w'. reflexivity. }
  destruct (net (length (requests w))) as [m|ok body].
  { cbn. apply (Hcatch m w1 eq_refl). }
  cbn [fst snd]. unfold bind at 1.
  destruct body as [data|]; cbn [json].
  2:{ unfold throw. destruct ok; apply (Hcatch "SyntaxError" w1 eq_refl). }
  unfold ret at 1. destruct ok.
  - destruct (given displayElementId) as [id|] eqn:Hg.
    2:{ exists w1. reflexivity. }
    unfold coordinates_text, coordinate_object, member, fixed, bind, throw, ret.
    destruct (nullish data) eqn:Hn; cbn [negb andb].
    { apply (Hcatch "TypeError" w1 eq_refl). }
    destruct (get data "lat") eqn:Hlat; cbn [is_number andb];
      try apply (Hcatch "TypeError" w1 eq_refl).
    destruct (get data "lng") eqn:Hlng; cbn [is_number];
      try apply (Hcatch "TypeError" w1 eq_refl).
    unfold set_textContent.
    specialize (Hel1 id eq_refl).
    destruct (find_element id (elements w1)) as [el|]; [|congruence].
    eexists. reflexivity.
  - unfold member, bind at 1, throw, ret.
    destruct (nullish data).
    { apply (Hcatch "TypeError" w1 eq_refl). }
    unfold bind at 1.
    destruct (ToString (get data "error")) as [t|] eqn:Et.
    + destruct (show_error_ok displayElementId (get data "error") t w1 Et Hel1)
        as (w' & -> & _).
      exists w'. reflexivity.
    + rewrite (show_error_unreadable _ _ _ Et).
      destruct (given displayElementId) eqn:Hg.
      * apply (Hcatch "TypeError" w1 eq_refl).
      * exists w1. reflexivity.
Qed.

End Geocode.

Lemma C10_witness :
  (forall id, given (Some "origin-coords") = Some id ->
              find_element id (elements fresh_world) <> None) /\
  exists w',
    geocodeAddress geocoder toFixed6 "New York" (Some "origin-coords") fresh_world =
    (Val match geocoder (length (requests fresh_world)) with
         | Responded true (Some data) =>
             match given (Some "origin-coords") with
             | None => data
             | Some _ => if coordinate_object data then data else Null
             end
         | _ => Null
         end, w').
Proof.
  assert (H : forall id, given (Some "origin-coords") = Some id ->
                         find_element id (elements fresh_world) <> None).
  { intros id E. injection E as <-. discriminate. }
  split; [exact H|].
  exact (C10_geocodeAddress_returns geocoder toFixed6 "New York" (Some "origin-coords")
           fresh_world H).
Defined.

(** Two calls the spec's words do not cover.  A 2xx answer whose [lat] and
    [lng] are strings, to be shown in a node: [toFixed] raises, the node
    shows the error and the call returns [null], not the parsed body.  A
    call that names a node the page does not have, on a response that is
    not 2xx: writing the error raises inside the [catch] clause too, and
    the call rejects. *)
Lemma C10_counterexample :
  fst (geocodeAddress texts_for_numbers toFixed6 "New York"
         (Some "origin-coords") fresh_world) = Val Null /\
  spec_geocodeAddress (texts_for_numbers 0) =
    Val (Obj [("lat", Str "40.7128"); ("lng", Str "-74.006")]) /\
  fst (geocodeAddress texts_for_numbers toFixed6 "New York"
         (Some "origin-coords") fresh_world) <>
    spec_geocodeAddress (texts_for_numbers 0) /\
  fst (geocodeAddress unknown_address toFixed6 "Nowhere" (Some "no-such-node")
         fresh_world) = Exn TypeError /\
  spec_geocodeAddress (unknown_address 0) = Val Null /\
  fst (geocodeAddress unknown_address toFixed6 "Nowhere" (Some "no-such-node")
         fresh_world) <> spec_geocodeAddress (unknown_address 0).
Proof.
  repeat split; try reflexivity; vm_compute; discriminate.
Qed.

(** The three ways of the function: a 2xx answer is returned and shown, a
    non-2xx answer and a rejected request give [null]. *)
Example geocode_found :
  fst (geocodeAddress geocoder toFixed6 "New York" (Some "origin-coords") fresh_world) =
    Val (Obj [("lat", Num "40.7128"); ("lng", Num "-74.006")]) /\
  find_element "origin-coords"
    (elements (snd (geocodeAddress geocoder toFixed6 "New York" (Some "origin-coords")
                      fresh_world))) =
    Some {| textContent := "Lat: 40.712800, Lng: -74.006000";
            classList := ["coordinates"] |}.
Proof. split; reflexivity. Qed.

Example geocode_not_found :
  fst (geocodeAddress
         (fun _ => Responded false (Some (Obj [("error", Str "Address not found")])))
         toFixed6 "Nowhere" (Some "origin-coords") fresh_world) = Val Null /\
  find_element "origin-coords"
    (elements (snd (geocodeAddress
         (fun _ => Responded false (Some (Obj [("error", Str "Address not found")])))
         toFixed6 "Nowhere" (Some "origin-coords") fresh_world))) =
    Some {| textContent := "Error: Address not found";
            classList := ["coordinates"; "error"] |}.
Proof. split; reflexivity. Qed.

Example geocode_offline :
  fst (geocodeAddress (fun _ => Rejected "Failed to fetch") toFixed6
         "New York" None fresh_world) = Val Null.
Proof. reflexivity. Qed.

(** ** Running the asynchronous functions *)

Lemma count_url_app path a b :
  count_url path (a ++ b) = count_url path a + count_url path b.
Proof. unfold count_url. rewrite filter_app, length_app. reflexivity. Qed.

Lemma alerts_app a b : alerts (a ++ b) = alerts a + alerts b.
Proof. unfold alerts. rewrite filter_app, length_app. reflexivity. Qed.

Ltac simpl_world :=
  cbn [requests document elements views tasks chat vars controls
       add_request add_view add_task set_document set_vars set_controls
       set_elements set_chat
       currentRoute currentPlaces currentFeatures
       FormModule.set_currentPlaces FormModule.set_currentRoute
       FormModule.set_currentFeatures FormModule.resetCachedData].

Ltac simpl_world_in H :=
  cbn [requests document elements views tasks chat vars controls
       add_request add_view add_task set_document set_vars set_controls
       set_elements set_chat
       currentRoute currentPlaces currentFeatures
       FormModule.set_currentPlaces FormModule.set_currentRoute
       FormModule.set_currentFeatures FormModule.resetCachedData] in H.

Ltac count_requests :=
  simpl_world; rewrite ?count_url_app, ?alerts_app; cbn; repeat split; lia.

Ltac run_monad :=
  cbv beta iota zeta
      delta [try_catch finally bind read modify throw ret member fetch json
             when fst snd].

(** The calls into the map and the sidebar, each of which returns or
    throws. *)
Ltac split_calls raises :=
  repeat (match goal with
          | |- context [match raises ?v with _ => _ end] => destruct (raises v)
          end; run_monad).

(** ** The cache of the form module *)

Section Cache.

Variable net : nat -> response.
Variable times_1000 : string -> value.
Variable raises : view_call -> option value.

Local Abbreviation getPlaces := (FormModule.getPlaces net times_1000 raises).
Local Abbreviation getNaturalFeatures :=
  (FormModule.getNaturalFeatures net times_1000 raises).

Lemma shown_one w v w' :
  shown_only w w' -> fills v = true -> shown_only w (add_view v w').
Proof.
  intros (vs & E & F) Hv. exists (vs ++ [v]). split.
  - cbn. rewrite E, app_assoc. reflexivity.
  - apply Forall_app. split; [exact F | repeat constructor; exact Hv].
Qed.

Lemma shown_none w : shown_only w w.
Proof. exists []. split; [symmetry; apply app_nil_r | constructor]. Qed.

Lemma getPlaces_cached coords w :
  FormModule.same_radius (currentPlaces (vars (document w)))
                         (places_radius (controls (document w))) = true ->
  exists w',
    getPlaces coords false w = (Val tt, w') /\
    requests w' = requests w /\ document w' = document w /\
    elements w' = elements w /\ tasks w' = tasks w /\ chat w' = chat w /\
    shown_only w w' /\ alerts (views w') = alerts (views w).
Proof.
  intros H. unfold FormModule.getPlaces, FormModule.call. run_monad.
  rewrite H. cbn [negb andb].
  destruct (currentPlaces (vars (document w))) as [c|]; [|discriminate].
  run_monad. split_calls raises;
    (eexists; split; [reflexivity|]; simpl_world;
     repeat split; [repeat apply shown_one; auto using shown_none
                   | rewrite ?alerts_app; cbn; lia]).
Qed.

(** Telling the backend never fails and sends one request to its path. *)
Lemma tell_backend_spec path body w :
  exists w',
    FormModule.tell_backend net path body w = (Val tt, w') /\
    document w' = document w /\ elements w' = elements w /\
    views w' = views w /\ tasks w' = tasks w /\ chat w' = chat w /\
    requests w' = requests w ++ [{| url := path; payload := body |}].
Proof.
  unfold FormModule.tell_backend, try_catch, bind, fetch, json, member, throw, ret.
  destruct (net (length (requests w))) as [m|ok [data|]]; cbn.
  - eexists; repeat split.
  - destruct ok; [eexists; repeat split|].
    destruct (nullish data); eexists; repeat split.
  - eexists; repeat split.
Qed.

(** A call that cannot use the cache sends exactly one request to
    [/places], whatever comes back, and touches neither the route nor the
    features. *)
Lemma getPlaces_miss coords force w :
  negb force
  && FormModule.same_radius (currentPlaces (vars (document w)))
                            (places_radius (controls (document w))) = false ->
  nullish coords = false ->
  exists w',
    getPlaces coords force w = (Val tt, w') /\
    count_url "/places" (requests w') = S (count_url "/places" (requests w)) /\
    currentRoute (vars (document w')) = currentRoute (vars (document w)) /\
    currentFeatures (vars (document w')) = currentFeatures (vars (document w)) /\
    controls (document w') = controls (document w) /\
    elements w' = elements w /\
    alerts (views w') = alerts (views w) /\
    count_url "/natural_features" (requests w') =
      count_url "/natural_features" (requests w).
Proof.
  intros Hmiss Hc.
  unfold FormModule.getPlaces, FormModule.getPlacesRequest, FormModule.along_route,
    FormModule.call.
  run_monad. rewrite Hmiss, Hc. run_monad.
  destruct (net (length (requests w))) as [m|ok [data|]]; run_monad.
  - eexists. split; [reflexivity | count_requests].
  - destruct ok; cbn [negb]; run_monad.
    + destruct (nullish data); run_monad.
      * eexists. split; [reflexivity | count_requests].
      * split_calls raises;
          try (eexists; split; [reflexivity | count_requests]).
        match goal with
        | |- context [FormModule.tell_backend net ?p ?b ?w0] =>
            destruct (tell_backend_spec p b w0)
              as (w' & -> & Hd & He & Hv & _ & _ & Hr)
        end.
        exists w'. split; [reflexivity|].
        rewrite Hd, He, Hv, Hr. count_requests.
    + destruct (nullish data); run_monad;
        (eexists; split; [reflexivity | count_requests]).
  - destruct ok; cbn [negb]; run_monad;
      (eexists; split; [reflexivity | count_requests]).
Qed.

(** A call that cannot use the cache and gets a 2xx answer with a body
    stores the answer's [places] under the selected radius. *)
Lemma getPlaces_fetched coords force w body :
  negb force
  && FormModule.same_radius (currentPlaces (vars (document w)))
                            (places_radius (controls (document w))) = false ->
  nullish coords = false ->
  net (length (requests w)) = Responded true (Some body) ->
  nullish body = false ->
  currentPlaces (vars (document (snd (getPlaces coords force w)))) =
  Some {| data := get body "places";
          radius := places_radius (controls (document w)) |}.
Proof.
  intros Hmiss Hc Hnet Hb.
  unfold FormModule.getPlaces, FormModule.getPlacesRequest, FormModule.along_route,
    FormModule.call.
  run_monad. rewrite Hmiss, Hc. run_monad. rewrite Hnet. cbn [negb]. run_monad.
  rewrite Hb. run_monad.
  split_calls raises; try reflexivity.
  match goal with
  | |- context [FormModule.tell_backend net ?p ?b ?w0] =>
      destruct (tell_backend_spec p b w0) as (w' & -> & Hd & _)
  end.
  cbn [snd]. rewrite Hd. reflexivity.
Qed.


Lemma getNaturalFeatures_cached coords w :
  FormModule.same_radius (currentFeatures (vars (document w)))
                         (features_radius (controls (document w))) = true ->
  exists w',
    getNaturalFeatures coords false w = (Val tt, w') /\
    requests w' = requests w /\ document w' = document w /\
    elements w' = elements w /\ tasks w' = tasks w /\ chat w' = chat w /\
    shown_only w w' /\ alerts (views w') = alerts (views w).
Proof.
  intros H. unfold FormModule.getNaturalFeatures, FormModule.call. run_monad.
  rewrite H. cbn [negb andb].
  destruct (currentFeatures (vars (document w))) as [c|]; [|discriminate].
  run_monad. split_calls raises;
    (eexists; split; [reflexivity|]; simpl_world;
     repeat split; [repeat apply shown_one; auto using shown_none
                   | rewrite ?alerts_app; cbn; lia]).
Qed.

Lemma getNaturalFeatures_miss coords force w :
  negb force
  && FormModule.same_radius (currentFeatures (vars (document w)))
                            (features_radius (controls (document w))) = false ->
  nullish coords = false ->
  exists w',
    getNaturalFeatures coords force w = (Val tt, w') /\
    count_url "/natural_features" (requests w') =
      S (count_url "/natural_features" (requests w)) /\
    count_url "/places" (requests w') = count_url "/places" (requests w) /\
    currentRoute (vars (document w')) = currentRoute (vars (document w)) /\
    currentPlaces (vars (document w')) = currentPlaces (vars (document w)) /\
    controls (document w') = controls (document w) /\
    elements w' = elements w /\
    alerts (views w') = alerts (views w).
Proof.
  intros Hmiss Hc.
  unfold FormModule.getNaturalFeatures, FormModule.getFeaturesRequest,
    FormModule.along_route,
    FormModule.call.
  run_monad. rewrite Hmiss, Hc. run_monad.
  destruct (net (length (requests w))) as [m|ok [data|]]; run_monad.
  - eexists. split; [reflexivity | count_requests].
  - destruct ok; cbn [negb]; run_monad.
    + destruct (nullish data); run_monad.
      * eexists. split; [reflexivity | count_requests].
      * split_calls raises;
          try (eexists; split; [reflexivity | count_requests]).
        match goal with
        | |- context [FormModule.tell_backend net ?p ?b ?w0] =>
            destruct (tell_backend_spec p b w0)
              as (w' & -> & Hd & He & Hv & _ & _ & Hr)
        end.
        exists w'. split; [reflexivity|].
        rewrite Hd, He, Hv, Hr. count_requests.
    + destruct (nullish data); run_monad;
        (eexists; split; [reflexivity | count_requests]).
  - destruct ok; cbn [negb]; run_monad;
      (eexists; split; [reflexivity | count_requests]).
Qed.

Lemma getNaturalFeatures_fetched coords force w body :
  negb force
  && FormModule.same_radius (currentFeatures (vars (document w)))
                            (features_radius (controls (document w))) = false ->
  nullish coords = false ->
  net (length (requests w)) = Responded true (Some body) ->
  nullish body = false ->
  currentFeatures (vars (document (snd (getNaturalFeatures coords force w)))) =
  Some {| data := get body "features";
          radius := features_radius (controls (document w)) |}.
Proof.
  intros Hmiss Hc Hnet Hb.
  unfold FormModule.getNaturalFeatures, FormModule.getFeaturesRequest,
    FormModule.along_route,
    FormModule.call.
  run_monad. rewrite Hmiss, Hc. run_monad. rewrite Hnet. cbn [negb]. run_monad.
  rewrite Hb. run_monad.
  split_calls raises; try reflexivity.
  match goal with
  | |- context [FormModule.tell_backend net ?p ?b ?w0] =>
      destruct (tell_backend_spec p b w0) as (w' & -> & Hd & _)
  end.
  cbn [snd]. rewrite Hd. reflexivity.
Qed.



End Cache.



(** ** generateRoute *)

Section Route.

Variable net : nat -> response.
Variable toFixed6 : string -> string.
Variable times_1000 : string -> value.
Variable trim : string -> string.
Variable raises : view_call -> option value.

Local Abbreviation generateRoute :=
  (FormModule.generateRoute net toFixed6 times_1000 trim raises).
Local Abbreviation new_route := (FormModule.new_route net toFixed6).
Local Abbreviation after := (after_generateRoute net toFixed6 times_1000 trim raises).

Lemma aside_refl w : aside w w.
Proof. repeat split. Qed.

Lemma aside_trans w1 w2 w3 : aside w1 w2 -> aside w2 w3 -> aside w1 w3.
Proof.
  unfold aside. intros (?&?&?&?&?) (?&?&?&?&?). repeat split; congruence.
Qed.

(** Without a node to write to, [geocodeAddress] sends its request and
    changes nothing else. *)
Lemma geocode_plain address w :
  exists v,
    geocodeAddress net toFixed6 address None w =
    (Val v, add_request {| url := "/geocode";
                           payload := Obj [("address", Str address)] |} w).
Proof.
  unfold geocodeAddress, show_error, given. run_monad.
  destruct (net (length (requests w))) as [m|ok [data|]]; run_monad.
  - eexists; reflexivity.
  - destruct ok; run_monad; [eexists; reflexivity|].
    destruct (nullish data); run_monad; eexists; reflexivity.
  - eexists; reflexivity.
Qed.

Lemma geocode_aside address w :
  exists v w',
    geocodeAddress net toFixed6 address None w = (Val v, w') /\
    vars (document w') = vars (document w) /\ aside w w'.
Proof.
  destruct (geocode_plain address w) as [v ->].
  eexists. eexists. split; [reflexivity|].
  split; [reflexivity|]. unfold aside. count_requests.
Qed.

Lemma geocode_waypoints_aside inputs : forall w,
  exists vs w',
    FormModule.geocode_waypoints net toFixed6 inputs w = (Val vs, w') /\
    vars (document w') = vars (document w) /\ aside w w'.
Proof.
  induction inputs as [|input rest IH]; intros w.
  - exists [], w. repeat split.
  - cbn [FormModule.geocode_waypoints]. run_monad.
    destruct (geocode_aside input w) as (v & w1 & -> & Hv & Ha).
    destruct (IH w1) as (vs & w2 & -> & Hv2 & Ha2).
    eexists. exists w2. split; [reflexivity|].
    split; [congruence | exact (aside_trans _ _ _ Ha Ha2)].
Qed.

Lemma generateRouteRequest_aside requestData w :
  exists o w',
    FormModule.generateRouteRequest net requestData w = (o, w') /\
    vars (document w') = vars (document w) /\ aside w w'.
Proof.
  unfold FormModule.generateRouteRequest. run_monad.
  destruct (net (length (requests w))) as [m|ok [data|]]; run_monad.
  - eexists; eexists; split; [reflexivity|].
    split; [reflexivity | unfold aside; count_requests].
  - destruct (nullish data); run_monad.
    + eexists; eexists; split; [reflexivity|].
      split; [reflexivity | unfold aside; count_requests].
    + destruct (negb ok || truthy (get data "error"));
        (eexists; eexists; split; [reflexivity|];
         split; [reflexivity | unfold aside; count_requests]).
  - eexists; eexists; split; [reflexivity|].
    split; [reflexivity | unfold aside; count_requests].
Qed.

Lemma tell_backend_aside path body w :
  path <> "/places" -> path <> "/natural_features" ->
  exists w',
    FormModule.tell_backend net path body w = (Val tt, w') /\
    vars (document w') = vars (document w) /\ aside w w'.
Proof.
  intros H1 H2.
  destruct (tell_backend_spec net path body w)
    as (w' & -> & Hd & He & Hv & _ & _ & Hr).
  exists w'. split; [reflexivity|]. rewrite Hd. split; [reflexivity|].
  unfold aside. rewrite Hd, He, Hv, Hr, !count_url_app.
  apply String.eqb_neq in H1, H2. cbn. rewrite H1, H2. cbn.
  repeat split; lia.
Qed.

(** The branch that fetches a new route leaves both caches empty, however
    it ends; when it ends well, the route it returns is the current one
    and has an array of coordinates. *)
Lemma new_route_spec f inputs w :
  exists o w',
    new_route f inputs w = (o, w') /\
    aside w w' /\
    currentPlaces (vars (document w')) = None /\
    currentFeatures (vars (document w')) = None /\
    match o with
    | Val routeData =>
        currentRoute (vars (document w')) = routeData /\
        nullish (get routeData "polyline_coords") = false
    | Exn _ => True
    end.
Proof.
  unfold FormModule.new_route. run_monad.
  set (w0 := FormModule.resetCachedData w).
  assert (H0 : aside w w0) by (repeat split).
  assert (P0 : currentPlaces (vars (document w0)) = None) by reflexivity.
  assert (F0 : currentFeatures (vars (document w0)) = None) by reflexivity.
  clearbody w0.
  destruct (geocode_aside (origin_input f) w0) as (o1 & w1 & -> & V1 & A1).
  destruct (geocode_aside (destination_input f) w1) as (o2 & w2 & -> & V2 & A2).
  assert (H2 : aside w w2) by eauto using aside_trans.
  assert (P2 : currentPlaces (vars (document w2)) = None) by congruence.
  assert (F2 : currentFeatures (vars (document w2)) = None) by congruence.
  destruct (negb (truthy o1) || negb (truthy o2)).
  { eexists; eexists; split; [reflexivity|]. auto. }
  destruct (geocode_waypoints_aside inputs w2) as (wps & w3 & -> & V3 & A3).
  match goal with
  | |- context [FormModule.generateRouteRequest net ?r w3] =>
      destruct (generateRouteRequest_aside r w3) as (o4 & w4 & -> & V4 & A4)
  end.
  assert (H4 : aside w w4) by eauto using aside_trans.
  assert (P4 : currentPlaces (vars (document w4)) = None) by congruence.
  assert (F4 : currentFeatures (vars (document w4)) = None) by congruence.
  destruct o4 as [routeData|err].
  2:{ eexists; eexists; split; [reflexivity|]. auto. }
  set (w5 := FormModule.set_currentRoute routeData w4).
  assert (H5 : aside w w5)
    by (apply (aside_trans _ _ _ H4); repeat split).
  assert (P5 : currentPlaces (vars (document w5)) = None) by exact P4.
  assert (F5 : currentFeatures (vars (document w5)) = None) by exact F4.
  assert (R5 : currentRoute (vars (document w5)) = routeData) by reflexivity.
  clearbody w5.
  destruct (truthy (get routeData "polyline_coords")) eqn:Ht; cbn [negb orb].
  2:{ eexists; eexists; split; [reflexivity|]. auto. }
  destruct (is_array (get routeData "polyline_coords")) eqn:Ha; cbn [negb].
  2:{ eexists; eexists; split; [reflexivity|]. auto. }
  match goal with
  | |- context [FormModule.tell_backend net ?p ?b w5] =>
      destruct (tell_backend_aside p b w5) as (w6 & -> & V6 & A6);
        [discriminate | discriminate |]
  end.
  eexists; eexists; split; [reflexivity|].
  split; [eauto using aside_trans|].
  rewrite V6. repeat split; auto.
  destruct (get routeData "polyline_coords"); cbn in *; congruence.
Qed.

Local Abbreviation getPlaces := (FormModule.getPlaces net times_1000 raises).
Local Abbreviation getNaturalFeatures :=
  (FormModule.getNaturalFeatures net times_1000 raises).
Local Abbreviation show_route := (FormModule.show_route net times_1000 raises).

(** Whatever happens in it, [getPlaces] returns, and keeps the route, the
    controls and the alerts as they are. *)
Lemma getPlaces_any coords force w :
  exists w',
    getPlaces coords force w = (Val tt, w') /\
    currentRoute (vars (document w')) = currentRoute (vars (document w)) /\
    controls (document w') = controls (document w) /\
    alerts (views w') = alerts (views w).
Proof.
  destruct (negb force
            && FormModule.same_radius (currentPlaces (vars (document w)))
                 (places_radius (controls (document w)))) eqn:Hhit.
  - destruct force; [discriminate|]. cbn [negb andb] in Hhit.
    destruct (getPlaces_cached net times_1000 raises coords w Hhit)
      as (w' & -> & _ & Hd & _ & _ & _ & _ & Ha).
    exists w'. rewrite Hd. auto.
  - destruct (nullish coords) eqn:Hc.
    + unfold FormModule.getPlaces. run_monad. rewrite Hhit, Hc. run_monad.
      eexists; split; [reflexivity | count_requests].
    + destruct (getPlaces_miss net times_1000 raises coords force w Hhit Hc)
        as (w' & -> & _ & Hr & _ & Hctl & _ & Ha & _).
      exists w'. auto.
Qed.

Lemma getNaturalFeatures_any coords force w :
  exists w',
    getNaturalFeatures coords force w = (Val tt, w') /\
    currentRoute (vars (document w')) = currentRoute (vars (document w)) /\
    controls (document w') = controls (document w) /\
    alerts (views w') = alerts (views w).
Proof.
  destruct (negb force
            && FormModule.same_radius (currentFeatures (vars (document w)))
                 (features_radius (controls (document w)))) eqn:Hhit.
  - destruct force; [discriminate|]. cbn [negb andb] in Hhit.
    destruct (getNaturalFeatures_cached net times_1000 raises coords w Hhit)
      as (w' & -> & _ & Hd & _ & _ & _ & _ & Ha).
    exists w'. rewrite Hd. auto.
  - destruct (nullish coords) eqn:Hc.
    + unfold FormModule.getNaturalFeatures. run_monad. rewrite Hhit, Hc.
      run_monad. eexists; split; [reflexivity | count_requests].
    + destruct (getNaturalFeatures_miss net times_1000 raises coords force w Hhit Hc)
        as (w' & -> & _ & _ & Hr & _ & Hctl & _ & Ha).
      exists w'. auto.
Qed.

(** The places step of [show_route]. *)
Lemma places_step (b : bool) coords w :
  exists w',
    when b (getPlaces coords false) w = (Val tt, w') /\
    currentRoute (vars (document w')) = currentRoute (vars (document w)) /\
    controls (document w') = controls (document w) /\
    alerts (views w') = alerts (views w) /\
    (nullish coords = false ->
     currentPlaces (vars (document w)) = None ->
     count_url "/places" (requests w') =
       count_url "/places" (requests w) + (if b then 1 else 0) /\
     count_url "/natural_features" (requests w') =
       count_url "/natural_features" (requests w) /\
     currentFeatures (vars (document w')) = currentFeatures (vars (document w)) /\
     (b = false -> currentPlaces (vars (document w')) = None)).
Proof.
  destruct b; unfold when.
  - destruct (getPlaces_any coords false w) as (w' & E & Hr & Hc & Ha).
    exists w'. split; [exact E|]. split; [exact Hr|]. split; [exact Hc|].
    split; [exact Ha|]. intros Hn Hp.
    destruct (getPlaces_miss net times_1000 raises coords false w)
      as (w1 & E1 & Hk & _ & Hf & _ & _ & _ & Hq);
      [rewrite Hp; reflexivity | exact Hn |].
    rewrite E in E1. injection E1 as <-.
    repeat split; [lia | assumption | assumption | discriminate].
  - exists w. repeat split; try lia. auto.
Qed.

(** The features step of [show_route]. *)
Lemma features_step (b : bool) coords w :
  exists w',
    when b (getNaturalFeatures coords false) w = (Val tt, w') /\
    currentRoute (vars (document w')) = currentRoute (vars (document w)) /\
    controls (document w') = controls (document w) /\
    alerts (views w') = alerts (views w) /\
    (nullish coords = false ->
     currentFeatures (vars (document w)) = None ->
     count_url "/natural_features" (requests w') =
       count_url "/natural_features" (requests w) + (if b then 1 else 0) /\
     count_url "/places" (requests w') = count_url "/places" (requests w) /\
     currentPlaces (vars (document w')) = currentPlaces (vars (document w)) /\
     (b = false -> currentFeatures (vars (document w')) = None)).
Proof.
  destruct b; unfold when.
  - destruct (getNaturalFeatures_any coords false w) as (w' & E & Hr & Hc & Ha).
    exists w'. split; [exact E|]. split; [exact Hr|]. split; [exact Hc|].
    split; [exact Ha|]. intros Hn Hp.
    destruct (getNaturalFeatures_miss net times_1000 raises coords false w)
      as (w1 & E1 & Hk & Hq & _ & Hf & _);
      [rewrite Hp; reflexivity | exact Hn |].
    rewrite E in E1. injection E1 as <-.
    repeat split; [lia | assumption | assumption | discriminate].
  - exists w. repeat split; try lia. auto.
Qed.

Lemma show_sampled_spec routeData w :
  exists o w',
    FormModule.show_sampled raises routeData w = (o, w') /\
    document w' = document w /\ requests w' = requests w /\
    alerts (views w') = alerts (views w).
Proof.
  unfold FormModule.show_sampled, FormModule.sampled_markers, FormModule.call.
  destruct (truthy (get routeData "sampled_points")); run_monad;
    split_calls raises;
    try (eexists; eexists; split; [reflexivity | count_requests]).
  destruct (get routeData "sampled_points");
    try (eexists; eexists; split; [reflexivity | count_requests]).
  destruct (existsb nullish elems);
    (eexists; eexists; split; [reflexivity | count_requests]).
Qed.

(** What [show_route] does to the caches of a route that has none yet. *)
Lemma show_route_spec f routeData w :
  exists o w',
    show_route f routeData w = (o, w') /\
    currentRoute (vars (document w')) = currentRoute (vars (document w)) /\
    controls (document w') = controls (document w) /\
    alerts (views w') = alerts (views w) /\
    match o with
    | Exn _ =>
        vars (document w') = vars (document w) /\
        requests w' = requests w
    | Val _ =>
        nullish (get routeData "polyline_coords") = false ->
        currentPlaces (vars (document w)) = None ->
        currentFeatures (vars (document w)) = None ->
        count_url "/places" (requests w') =
          count_url "/places" (requests w) + (if show_places f then 1 else 0) /\
        count_url "/natural_features" (requests w') =
          count_url "/natural_features" (requests w)
          + (if show_features f then 1 else 0) /\
        (show_places f = false -> currentPlaces (vars (document w')) = None) /\
        (show_features f = false -> currentFeatures (vars (document w')) = None)
    end.
Proof.
  unfold FormModule.show_route, FormModule.call.
  cbv beta iota zeta delta [bind modify throw ret].
  destruct (raises (DisplayRoute routeData)).
  { eexists; eexists; split; [reflexivity | count_requests]. }
  destruct (raises (UpdateRouteInfo _ _)).
  { eexists; eexists; split; [reflexivity | count_requests]. }
  match goal with
  | |- context [FormModule.show_sampled raises routeData ?w0] =>
      destruct (show_sampled_spec routeData w0) as (o2 & w2 & -> & D2 & R2 & A2)
  end.
  simpl_world_in D2. simpl_world_in R2. simpl_world_in A2.
  rewrite !alerts_app in A2. cbn [alerts filter length] in A2.
  rewrite !Nat.add_0_r in A2. fold (alerts (views w)) in A2.
  destruct o2 as [[]|err].
  2:{ eexists; eexists; split; [reflexivity|].
      rewrite D2, R2, A2. repeat split. }
  destruct (places_step (show_places f) (get routeData "polyline_coords") w2)
    as (w3 & -> & Hr3 & Hc3 & Ha3 & Hp3).
  destruct (features_step (show_features f) (get routeData "polyline_coords") w3)
    as (w4 & -> & Hr4 & Hc4 & Ha4 & Hp4).
  eexists; eexists; split; [reflexivity|].
  simpl_world. rewrite alerts_app. cbn [alerts filter length].
  fold (alerts (views w4)).
  rewrite Hr4, Hr3, Hc4, Hc3, Ha4, Ha3, D2, A2.
  split; [reflexivity|]. split; [reflexivity|]. split; [lia|].
  intros Hn P F. rewrite D2 in Hp3.
  destruct (Hp3 Hn P) as (K1 & K2 & K3 & K4).
  rewrite K3 in Hp4.
  destruct (Hp4 Hn F) as (J1 & J2 & J3 & J4).
  rewrite R2 in *.
  repeat split; try lia.
  - intros E. rewrite J3. auto.
  - exact J4.
Qed.

(** How a call of [generateRoute] ends: with the route it had; or stopped
    by an alert after the caches were emptied; or through, with one request
    for places and one for features where their boxes are checked. *)
Lemma generateRoute_spec w :
  exists w',
    generateRoute w = (Val tt, w') /\
    controls (document w') = controls (document w) /\
    (currentRoute (vars (document w')) = currentRoute (vars (document w)) \/
     (currentPlaces (vars (document w')) = None /\
      currentFeatures (vars (document w')) = None /\
      count_url "/places" (requests w') = count_url "/places" (requests w) /\
      count_url "/natural_features" (requests w') =
        count_url "/natural_features" (requests w) /\
      alerts (views w') = S (alerts (views w))) \/
     (alerts (views w') = alerts (views w) /\
      count_url "/places" (requests w') =
        count_url "/places" (requests w)
        + (if show_places (controls (document w)) then 1 else 0) /\
      count_url "/natural_features" (requests w') =
        count_url "/natural_features" (requests w)
        + (if show_features (controls (document w)) then 1 else 0) /\
      (show_places (controls (document w)) = false ->
       currentPlaces (vars (document w')) = None) /\
      (show_features (controls (document w)) = false ->
       currentFeatures (vars (document w')) = None))).
Proof.
  unfold FormModule.generateRoute.
  cbv beta iota zeta delta [bind read modify finally try_catch ret].
  set (f := controls (document w)).
  set (w0 := add_view ClearMapLayers (add_view ShowLoading w)).
  assert (D0 : document w0 = document w) by reflexivity.
  assert (E0 : elements w0 = elements w) by reflexivity.
  assert (R0 : requests w0 = requests w) by reflexivity.
  assert (A0 : alerts (views w0) = alerts (views w)).
  { subst w0. simpl_world. rewrite !alerts_app. cbn. lia. }
  change (currentRoute (vars (document w0)))
    with (currentRoute (vars (document w))).
  clearbody w0.
  (* the branch under [if (needNewRoute)] and what follows it *)
  assert (Hnew : forall inputs,
    exists w',
      (let (o, w') :=
         let (o, w') :=
           let (o, w') := FormModule.new_route net toFixed6 f inputs w0 in
           match o with
           | Val a => show_route f a w'
           | Exn error => (Exn error, w')
           end in
         match o with
         | Val a => (Val a, w')
         | Exn error => (Val tt, add_view (Alert error) w')
         end in
       (o, add_view HideLoading w')) = (Val tt, w') /\
      controls (document w') = controls (document w) /\
      ((currentPlaces (vars (document w')) = None /\
        currentFeatures (vars (document w')) = None /\
        count_url "/places" (requests w') = count_url "/places" (requests w) /\
        count_url "/natural_features" (requests w') =
          count_url "/natural_features" (requests w) /\
        alerts (views w') = S (alerts (views w))) \/
       (alerts (views w') = alerts (views w) /\
        count_url "/places" (requests w') =
          count_url "/places" (requests w) + (if show_places f then 1 else 0) /\
        count_url "/natural_features" (requests w') =
          count_url "/natural_features" (requests w)
          + (if show_features f then 1 else 0) /\
        (show_places f = false -> currentPlaces (vars (document w')) = None) /\
        (show_features f = false ->
         currentFeatures (vars (document w')) = None)))).
  { intros inputs.
    destruct (new_route_spec f inputs w0)
      as (o & w1 & -> & (C1 & _ & A1 & K1 & N1) & P1 & F1 & Ho).
    rewrite D0 in C1. rewrite A0 in A1. rewrite R0 in K1, N1.
    destruct o as [routeData|err].
    - destruct Ho as [_ Hn].
      destruct (show_route_spec f routeData w1)
        as (o2 & w2 & -> & _ & C2 & A2 & Ho2).
      destruct o2 as [[]|err].
      + destruct (Ho2 Hn P1 F1) as (K2 & N2 & P2 & F2).
        eexists. split; [reflexivity|]. simpl_world.
        rewrite alerts_app. cbn [alerts filter length].
        fold (alerts (views w2)).
        split; [congruence|]. right.
        split; [lia|]. split; [lia|]. split; [lia|]. auto.
      + destruct Ho2 as [V2 R2].
        eexists. split; [reflexivity|]. simpl_world.
        rewrite !alerts_app. cbn [alerts filter length].
        fold (alerts (views w2)).
        split; [congruence|]. left. rewrite V2, R2.
        split; [exact P1|]. split; [exact F1|]. split; [lia|]. split; lia.
    - eexists. split; [reflexivity|]. simpl_world.
      rewrite !alerts_app. cbn [alerts filter length].
      fold (alerts (views w1)).
      split; [exact C1|]. left.
      split; [exact P1|]. split; [exact F1|]. split; [lia|]. split; lia. }
  destruct (FormModule.valid_route (currentRoute (vars (document w)))) eqn:V.
  2:{ destruct (Hnew (filter (fun v => negb (trim v =? ""))
                             (waypoint_inputs f))) as (w' & E & C & H).
      exists w'. split; [exact E|]. split; [exact C|]. right. exact H. }
  unfold get_textContent.
  destruct (find_element "origin-coords" (elements w0)) as [el1|].
  2:{ eexists. split; [reflexivity|]. simpl_world. rewrite D0. auto. }
  destruct (find_element "destination-coords" (elements w0)) as [el2|].
  2:{ eexists. split; [reflexivity|]. simpl_world. rewrite D0. auto. }
  destruct (FormModule.reuses_route _ _ _ f).
  2:{ destruct (Hnew (filter (fun v => negb (trim v =? ""))
                             (waypoint_inputs f))) as (w' & E & C & H).
      exists w'. split; [exact E|]. split; [exact C|]. right. exact H. }
  destruct (show_route_spec f (currentRoute (vars (document w))) w0)
    as (o2 & w2 & -> & Hr2 & C2 & _).
  rewrite D0 in Hr2, C2.
  destruct o2 as [[]|err];
    (eexists; split; [reflexivity|]; simpl_world; auto).
Qed.

(** C6.  The branch of [generateRoute] that fetches a new route, the only
    place where [currentRoute] is assigned, leaves [currentPlaces] and
    [currentFeatures] empty however it ends.  So after a call of
    [generateRoute] that replaced the route, a cache whose box is not
    checked is empty, and a cache that is not empty was filled by a request
    of that very call; when the call was not stopped by an alert and the
    places box is checked it made exactly one request for places.  Two
    calls in a row that both replace the route, with the places box
    checked and no alert, make two. *)
Theorem C6_new_route_clears_the_caches (w : world) :
  (forall f inputs,
     currentPlaces (vars (document (snd (new_route f inputs w)))) = None /\
     currentFeatures (vars (document (snd (new_route f inputs w)))) = None) /\
  (currentRoute (vars (document (after w))) <> currentRoute (vars (document w)) ->
   (show_places (controls (document w)) = false ->
    currentPlaces (vars (document (after w))) = None) /\
   (show_features (controls (document w)) = false ->
    currentFeatures (vars (document (after w))) = None) /\
   (currentPlaces (vars (document (after w))) = None \/
    count_url "/places" (requests (after w)) =
      S (count_url "/places" (requests w))) /\
   (currentFeatures (vars (document (after w))) = None \/
    count_url "/natural_features" (requests (after w)) =
      S (count_url "/natural_features" (requests w))) /\
   (alerts (views (after w)) = alerts (views w) ->
    show_places (controls (document w)) = true ->
    count_url "/places" (requests (after w)) =
      S (count_url "/places" (requests w)))) /\
  (currentRoute (vars (document (after w))) <> currentRoute (vars (document w)) ->
   currentRoute (vars (document (after (after w)))) <>
     currentRoute (vars (document (after w))) ->
   alerts (views (after (after w))) = alerts (views w) ->
   show_places (controls (document w)) = true ->
   count_url "/places" (requests (after (after w))) =
     2 + count_url "/places" (requests w)).
Proof.
  split; [|split].
  - intros f inputs.
    destruct (new_route_spec f inputs w) as (o & w' & -> & _ & P & F & _).
    split; assumption.
  - unfold after_generateRoute.
    destruct (generateRoute_spec w) as (w' & -> & C & H). cbn [snd].
    intros Hr.
    destruct H as [H | [(P & F & K & N & A) | (A & K & N & P & F)]];
      [congruence | |].
    + repeat split; auto. lia.
    + split; [exact P|]. split; [exact F|].
      split; [|split].
      * destruct (show_places (controls (document w)));
          [right; lia | left; auto].
      * destruct (show_features (controls (document w)));
          [right; lia | left; auto].
      * intros _ S. rewrite S in K. lia.
  - unfold after_generateRoute.
    destruct (generateRoute_spec w) as (w1 & -> & C1 & H1). cbn [snd].
    destruct (generateRoute_spec w1) as (w2 & -> & C2 & H2). cbn [snd].
    intros Hr1 Hr2 Ha Sp.
    destruct H1 as [H1 | [(_ & _ & _ & _ & A1) | (A1 & K1 & _)]];
      [congruence | |];
      (destruct H2 as [H2 | [(_ & _ & _ & _ & A2) | (A2 & K2 & _)]];
       [congruence | |]); try lia.
    rewrite C1, Sp in K2. rewrite Sp in K1. lia.
Qed.

End Route.

Lemma C6_witness :
  (currentRoute (vars (document once_generated)) <>
     currentRoute (vars (document routed_world)) /\
   currentRoute (vars (document twice_generated)) <>
     currentRoute (vars (document once_generated)) /\
   alerts (views twice_generated) = alerts (views routed_world) /\
   show_places (controls (document routed_world)) = true) /\
  count_url "/places" (requests twice_generated) =
  2 + count_url "/places" (requests routed_world).
Proof.
  assert (H1 : currentRoute (vars (document once_generated)) <>
               currentRoute (vars (document routed_world)))
    by (vm_compute; discriminate).
  assert (H2 : currentRoute (vars (document twice_generated)) <>
               currentRoute (vars (document once_generated)))
    by (vm_compute; discriminate).
  assert (H3 : alerts (views twice_generated) = alerts (views routed_world))
    by (vm_compute; reflexivity).
  assert (H4 : show_places (controls (document routed_world)) = true)
    by reflexivity.
  split; [auto|].
  exact (proj2 (proj2 (C6_new_route_clears_the_caches two_routes toFixed6
                         times_1000 trim Cases.raises routed_world)) H1 H2 H3 H4).
Defined.

(** The requests of the two route generations, in order. *)
Example two_route_generations :
  map url (requests twice_generated) =
  ["/geocode"; "/geocode"; "/route"; "/update_conversation_state";
   "/places"; "/update_places_data";
   "/geocode"; "/geocode"; "/route"; "/update_conversation_state";
   "/places"; "/update_places_data"] /\
  get (currentRoute (vars (document once_generated))) "distance_text" =
    Str "350 km" /\
  get (currentRoute (vars (document twice_generated))) "distance_text" =
    Str "360 km".
Proof. vm_compute. auto. Qed.

(** ** Status messages on the page *)

Section Requested.

Variable numbers_valid : string -> string -> bool.

Variable net : nat -> response.
Variable times_1000 : string -> value.
Variable raises : view_call -> option value.
Variable waypoint_html : string -> markup.
Variable sum : string -> string -> string.

Lemma forceRefresh_same_radius current selected :
  forceRefresh current selected = negb (FormModule.same_radius current selected).
Proof. destruct current; reflexivity. Qed.

Lemma has_polyline_coords route :
  has_polyline route = true -> nullish (get route "polyline_coords") = false.
Proof.
  unfold has_polyline. intros H. apply andb_true_iff in H as [_ H].
  destruct (get route "polyline_coords"); cbn in *; congruence.
Qed.

Lemma or_else_twice v : or_else (or_else v (Str "")) (Str "") = or_else v (Str "").
Proof. unfold or_else. destruct (truthy v) eqn:E; [rewrite E|]; reflexivity. Qed.

(** Carrying out the completion of a status message whose text has a
    string. *)
Lemma dispatch_complete_now data t w :
  ToString (or_else (get data "message") (Str "")) = Some t ->
  dispatch_all numbers_valid (complete_now data) w =
  Some (fold_left (fun w t => add_task t w) (update_task data)
          (set_chat {| text := t;
                       cursor := false;
                       error_class := error_class (chat w) |} w)).
Proof.
  intros Ht. unfold complete_now, update_task. cbn [dispatch_all dispatch].
  unfold ChatModule.onComplete.
  rewrite (or_else_twice (get data "message")), Ht.
  destruct (truthy (or_else (get data "requires_ui_update") (Bool false)));
    reflexivity.
Qed.

(** A status message whose text has no string: the completion callback
    raises. *)
Lemma dispatch_complete_unreadable data w :
  ToString (or_else (get data "message") (Str "")) = None ->
  dispatch_all numbers_valid (complete_now data) w = None.
Proof.
  intros Ht. unfold complete_now. cbn [dispatch_all dispatch].
  unfold ChatModule.onComplete.
  rewrite (or_else_twice (get data "message")), Ht. reflexivity.
Qed.

Lemma submits_check_show_places f :
  submits numbers_valid (check_show_places f) = submits numbers_valid f.
Proof. reflexivity. Qed.

Lemma submits_check_show_features f :
  submits numbers_valid (check_show_features f) = submits numbers_valid f.
Proof. reflexivity. Qed.

Lemma add_tasks_frame ts : forall w,
  document (fold_left (fun w t => add_task t w) ts w) = document w /\
  requests (fold_left (fun w t => add_task t w) ts w) = requests w /\
  chat (fold_left (fun w t => add_task t w) ts w) = chat w /\
  tasks (fold_left (fun w t => add_task t w) ts w) = tasks w ++ ts.
Proof.
  induction ts as [|t ts IH]; intros w; cbn [fold_left].
  - rewrite app_nil_r. repeat split.
  - destruct (IH (add_task t w)) as (-> & -> & -> & ->).
    cbn. rewrite <- app_assoc. repeat split.
Qed.

Lemma on_places_requested_spec data t w :
  ToString (or_else (get data "message") (Str "")) = Some t ->
  exists w',
    on_places_requested numbers_valid data w = Some w' /\
    show_places (controls (document w')) = true /\
    places_radius (controls (document w')) =
      places_radius (controls (document w)) /\
    vars (document w') = vars (document w) /\
    requests w' = requests w /\
    text (chat w') = t /\
    tasks w' =
      tasks w
      ++ (if has_polyline (currentRoute (vars (document w)))
          then [TGetPlaces
                  (get (currentRoute (vars (document w))) "polyline_coords")
                  (forceRefresh (currentPlaces (vars (document w)))
                                (places_radius (controls (document w))))]
          else if submits numbers_valid (controls (document w))
               then [TGenerateRoute] else [])
      ++ update_task data.
Proof.
  intros Ht. unfold on_places_requested. rewrite dispatch_all_app.
  assert (Hcalls : exists w1,
            dispatch_all numbers_valid (places_requested (document w)) w = Some w1 /\
            show_places (controls (document w1)) = true /\
            places_radius (controls (document w1)) =
              places_radius (controls (document w)) /\
            vars (document w1) = vars (document w) /\
            requests w1 = requests w /\
            tasks w1 =
              tasks w
              ++ (if has_polyline (currentRoute (vars (document w)))
                  then [TGetPlaces
                          (get (currentRoute (vars (document w)))
                               "polyline_coords")
                          (forceRefresh (currentPlaces (vars (document w)))
                                        (places_radius (controls (document w))))]
                  else if submits numbers_valid (controls (document w))
                       then [TGenerateRoute] else [])).
  { unfold places_requested.
    destruct (show_places (controls (document w))) eqn:Sp;
      destruct (has_polyline (currentRoute (vars (document w))));
      cbn [app dispatch_all dispatch];
      cbn [set_controls set_document document controls];
      rewrite ?submits_check_show_places;
      try destruct (submits numbers_valid (controls (document w)));
      (eexists; split; [reflexivity|]);
      cbn; rewrite ?Sp, ?app_nil_r; repeat split. }
  destruct Hcalls as (w1 & -> & S1 & S2 & S3 & S4 & S5).
  rewrite (dispatch_complete_now data t w1 Ht).
  eexists. split; [reflexivity|].
  match goal with
  | |- context [fold_left _ (update_task data) ?w0] =>
      destruct (add_tasks_frame (update_task data) w0) as (-> & -> & -> & ->)
  end.
  cbn [document requests chat tasks set_chat text].
  rewrite S5, <- app_assoc. repeat split; assumption.
Qed.

Lemma on_features_requested_spec data t w :
  ToString (or_else (get data "message") (Str "")) = Some t ->
  exists w',
    on_features_requested numbers_valid data w = Some w' /\
    show_features (controls (document w')) = true /\
    features_radius (controls (document w')) =
      features_radius (controls (document w)) /\
    vars (document w') = vars (document w) /\
    requests w' = requests w /\
    text (chat w') = t /\
    tasks w' =
      tasks w
      ++ (if has_polyline (currentRoute (vars (document w)))
          then [TGetNaturalFeatures
                  (get (currentRoute (vars (document w))) "polyline_coords")
                  (forceRefresh (currentFeatures (vars (document w)))
                                (features_radius (controls (document w))))]
          else if submits numbers_valid (controls (document w))
               then [TGenerateRoute] else [])
      ++ update_task data.
Proof.
  intros Ht. unfold on_features_requested. rewrite dispatch_all_app.
  assert (Hcalls : exists w1,
            dispatch_all numbers_valid (features_requested (document w)) w = Some w1 /\
            show_features (controls (document w1)) = true /\
            features_radius (controls (document w1)) =
              features_radius (controls (document w)) /\
            vars (document w1) = vars (document w) /\
            requests w1 = requests w /\
            tasks w1 =
              tasks w
              ++ (if has_polyline (currentRoute (vars (document w)))
                  then [TGetNaturalFeatures
                          (get (currentRoute (vars (document w)))
                               "polyline_coords")
                          (forceRefresh (currentFeatures (vars (document w)))
                                        (features_radius
                                           (controls (document w))))]
                  else if submits numbers_valid (controls (document w))
                       then [TGenerateRoute] else [])).
  { unfold features_requested.
    destruct (show_features (controls (document w))) eqn:Sp;
      destruct (has_polyline (currentRoute (vars (document w))));
      cbn [app dispatch_all dispatch];
      cbn [set_controls set_document document controls];
      rewrite ?submits_check_show_features;
      try destruct (submits numbers_valid (controls (document w)));
      (eexists; split; [reflexivity|]);
      cbn; rewrite ?Sp, ?app_nil_r; repeat split. }
  destruct Hcalls as (w1 & -> & S1 & S2 & S3 & S4 & S5).
  rewrite (dispatch_complete_now data t w1 Ht).
  eexists. split; [reflexivity|].
  match goal with
  | |- context [fold_left _ (update_task data) ?w0] =>
      destruct (add_tasks_frame (update_task data) w0) as (-> & -> & -> & ->)
  end.
  cbn [document requests chat tasks set_chat text].
  rewrite S5, <- app_assoc. repeat split; assumption.
Qed.

Lemma status_not_nullish data lit :
  is_string (get data "status") lit = true -> nullish data = false.
Proof. destruct data; cbn; congruence. Qed.

(** C7, as the code has it.  On a [places_requested] message whose
    [show_places] is set the decoder checks the places box if it is not
    checked, then, when the current route has coordinates, calls
    [getPlaces] on them with [forceRefresh] set exactly when no result is
    cached under the selected radius, so that places are requested from
    the backend in that case and only then; when there is no such route
    it clicks the generate-route button instead, and the click starts
    [generateRoute] only when the form is valid, that is when the two
    required fields, origin and destination, are filled in and the two
    number inputs are within their bounds: on any other form nothing is
    started.  The completion follows in the same step, with
    [data.message || ''] as its text, while the call just started has not
    gone past its first request.  A [features_requested] message whose
    [show_features] is set is handled the same way with the features box,
    [getNaturalFeatures] and the features radius.  The page after the
    completion is described for a message whose text has a string, which
    is what the callback can show. *)
Theorem C7_requested_places_and_features
    (d : decoder) (data : value) (t : string) (w : world) :
  ToString (or_else (get data "message") (Str "")) = Some t ->
  (is_string (get data "status") "places_requested" = true ->
   truthy (get data "show_places") = true ->
   handle_data (document w) waypoint_html sum d data =
     Finished (Return (places_requested (document w) ++ complete_now data)) /\
   exists w',
     on_places_requested numbers_valid data w = Some w' /\
     show_places (controls (document w')) = true /\
     requests w' = requests w /\
     text (chat w') = t /\
     tasks w' =
       tasks w
       ++ (if has_polyline (currentRoute (vars (document w)))
           then [TGetPlaces
                   (get (currentRoute (vars (document w))) "polyline_coords")
                   (negb (FormModule.same_radius
                            (currentPlaces (vars (document w)))
                            (places_radius (controls (document w)))))]
           else if submits numbers_valid (controls (document w))
                then [TGenerateRoute] else [])
       ++ update_task data /\
     (has_polyline (currentRoute (vars (document w))) = true ->
      count_url "/places"
        (requests
           (snd (FormModule.getPlaces net times_1000 raises
                   (get (currentRoute (vars (document w))) "polyline_coords")
                   (negb (FormModule.same_radius
                            (currentPlaces (vars (document w)))
                            (places_radius (controls (document w)))))
                   w'))) =
      count_url "/places" (requests w)
      + (if FormModule.same_radius (currentPlaces (vars (document w)))
                                   (places_radius (controls (document w)))
         then 0 else 1))) /\
  (is_string (get data "status") "features_requested" = true ->
   truthy (get data "show_features") = true ->
   handle_data (document w) waypoint_html sum d data =
     Finished (Return (features_requested (document w) ++ complete_now data)) /\
   exists w',
     on_features_requested numbers_valid data w = Some w' /\
     show_features (controls (document w')) = true /\
     requests w' = requests w /\
     text (chat w') = t /\
     tasks w' =
       tasks w
       ++ (if has_polyline (currentRoute (vars (document w)))
           then [TGetNaturalFeatures
                   (get (currentRoute (vars (document w))) "polyline_coords")
                   (negb (FormModule.same_radius
                            (currentFeatures (vars (document w)))
                            (features_radius (controls (document w)))))]
           else if submits numbers_valid (controls (document w))
                then [TGenerateRoute] else [])
       ++ update_task data /\
     (has_polyline (currentRoute (vars (document w))) = true ->
      count_url "/natural_features"
        (requests
           (snd (FormModule.getNaturalFeatures net times_1000 raises
                   (get (currentRoute (vars (document w))) "polyline_coords")
                   (negb (FormModule.same_radius
                            (currentFeatures (vars (document w)))
                            (features_radius (controls (document w)))))
                   w'))) =
      count_url "/natural_features" (requests w)
      + (if FormModule.same_radius (currentFeatures (vars (document w)))
                                   (features_radius (controls (document w)))
         then 0 else 1))).
Proof.
  intros Ht. split.
  - intros Hs Hshow.
    destruct (on_places_requested_spec data t w Ht)
      as (w' & E & S1 & S2 & S3 & S4 & S5 & S6).
    rewrite forceRefresh_same_radius in S6.
    split.
    { unfold handle_data.
      rewrite (status_not_nullish _ _ Hs), Hs, Hshow.
      destruct (is_string (get data "status") "route_generated") eqn:E1;
        [|reflexivity].
      destruct (get data "status"); try discriminate.
      cbn in Hs, E1. apply String.eqb_eq in Hs, E1. congruence. }
    exists w'. split; [exact E|].
    split; [exact S1|]. split; [exact S4|]. split; [exact S5|].
    split; [exact S6|].
    intros Hp. apply has_polyline_coords in Hp.
    destruct (FormModule.same_radius (currentPlaces (vars (document w)))
                (places_radius (controls (document w)))) eqn:Hr; cbn [negb].
    + destruct (getPlaces_cached net times_1000 raises
                  (get (currentRoute (vars (document w))) "polyline_coords")
                  w') as (w2 & -> & K & _).
      { rewrite S3, S2. exact Hr. }
      cbn [snd]. rewrite K, S4. lia.
    + destruct (getPlaces_miss net times_1000 raises
                  (get (currentRoute (vars (document w))) "polyline_coords")
                  true w' eq_refl Hp)
        as (w2 & -> & K & _).
      cbn [snd]. rewrite K, S4. lia.
  - intros Hs Hshow.
    destruct (on_features_requested_spec data t w Ht)
      as (w' & E & S1 & S2 & S3 & S4 & S5 & S6).
    rewrite forceRefresh_same_radius in S6.
    split.
    { unfold handle_data.
      rewrite (status_not_nullish _ _ Hs), Hs, Hshow.
      destruct (is_string (get data "status") "route_generated") eqn:E1;
        [destruct (get data "status"); try discriminate;
         cbn in Hs, E1; apply String.eqb_eq in Hs, E1; congruence|].
      destruct (is_string (get data "status") "places_requested") eqn:E2;
        [destruct (get data "status"); try discriminate;
         cbn in Hs, E2; apply String.eqb_eq in Hs, E2; congruence|].
      reflexivity. }
    exists w'. split; [exact E|].
    split; [exact S1|]. split; [exact S4|]. split; [exact S5|].
    split; [exact S6|].
    intros Hp. apply has_polyline_coords in Hp.
    destruct (FormModule.same_radius (currentFeatures (vars (document w)))
                (features_radius (controls (document w)))) eqn:Hr; cbn [negb].
    + destruct (getNaturalFeatures_cached net times_1000 raises
                  (get (currentRoute (vars (document w))) "polyline_coords")
                  w') as (w2 & -> & K & _).
      { rewrite S3, S2. exact Hr. }
      cbn [snd]. rewrite K, S4. lia.
    + destruct (getNaturalFeatures_miss net times_1000 raises
                  (get (currentRoute (vars (document w))) "polyline_coords")
                  true w' eq_refl Hp)
        as (w2 & -> & K & _).
      cbn [snd]. rewrite K, S4. lia.
Qed.

End Requested.

(** The message on a page with a route and on a page without one whose
    address fields are filled in. *)
Lemma C7_witness :
  ToString (or_else (get places_please "message") (Str "")) =
    Some "Showing places along your route." /\
  (is_string (get places_please "status") "places_requested" = true /\
   truthy (get places_please "show_places") = true) /\
  (exists w',
     on_places_requested numbers_valid places_please routed_world = Some w' /\
     text (chat w') = "Showing places along your route." /\
     tasks w' =
       [TGetPlaces (get (currentRoute (vars (document routed_world)))
                        "polyline_coords") true]) /\
  (exists w',
     on_places_requested numbers_valid places_please Cases.typed_world = Some w' /\
     show_places (controls (document w')) = true /\
     requests w' = [] /\
     text (chat w') = "Showing places along your route." /\
     tasks w' = [TGenerateRoute]).
Proof.
  assert (Ht : ToString (or_else (get places_please "message") (Str "")) =
               Some "Showing places along your route.") by reflexivity.
  assert (Hs : is_string (get places_please "status") "places_requested" = true)
    by reflexivity.
  assert (Hshow : truthy (get places_please "show_places") = true)
    by reflexivity.
  split; [exact Ht|]. split; [auto|]. split.
  - destruct (proj1 (C7_requested_places_and_features numbers_valid steady
                       times_1000 Cases.raises waypoint_html sum initial places_please _ routed_world
                       Ht) Hs Hshow)
      as (_ & w' & E & _ & _ & T & K & _).
    exists w'. split; [exact E|]. split; [exact T | exact K].
  - destruct (proj1 (C7_requested_places_and_features numbers_valid steady
                       times_1000 Cases.raises waypoint_html sum initial places_please _
                       Cases.typed_world Ht) Hs Hshow)
      as (_ & w' & E & S & R & T & K & _).
    exists w'. split; [exact E|]. split; [exact S|]. split; [exact R|].
    split; [exact T | exact K].
Defined.

(** The same message on the page as it is loaded, the two address fields
    empty: the box is checked and the button clicked, but the form does
    not submit, so that no route generation is started, where the spec's
    words have one triggered. *)
Lemma C7_counterexample :
  has_polyline (currentRoute (vars (document fresh_world))) = false /\
  submits numbers_valid (controls (document fresh_world)) = false /\
  spec_requested_task fresh_world = TGenerateRoute /\
  exists w',
    on_places_requested numbers_valid places_please fresh_world = Some w' /\
    show_places (controls (document w')) = true /\
    tasks w' = [] /\
    ~ In (spec_requested_task fresh_world) (tasks w').
Proof.
  split; [reflexivity|]. split; [reflexivity|]. split; [reflexivity|].
  eexists. split; [reflexivity|]. split; [reflexivity|].
  split; [reflexivity|]. intros [].
Qed.

(** A [places_requested] message on a page without route, in one fragment:
    the box is checked, the button clicked, the completion called with the
    message and the reader cancelled; nothing was requested meanwhile, and
    with the two required fields empty the click starts nothing. *)
Example places_requested_without_route :
  streamChatMessage Json.parse (document fresh_world) waypoint_html sum
    (Body [("data: " ++ Json.print places_please ++ delimiter)%string]
          EndOfStream) =
    [ReaderRead; CheckShowPlaces; ClickGenerateRoute;
     OnComplete (Str "Showing places along your route.") (Bool false);
     ReaderCancel] /\
  option_map requests (on_places_requested numbers_valid places_please fresh_world) =
    Some [] /\
  option_map tasks (on_places_requested numbers_valid places_please fresh_world) = Some [] /\
  option_map (fun w => text (chat w))
    (on_places_requested numbers_valid places_please fresh_world) =
    Some "Showing places along your route.".
Proof. repeat split; vm_compute; reflexivity. Qed.

(* ================================================================== *)
(** * Further properties of the decoder *)
(* ================================================================== *)

Section DecoderEdges.

Variable JSON_parse : string -> option value.
Variable pg : page.
Variable waypoint_html : string -> markup.
Variable sum : string -> string -> string.

Local Abbreviation process_line :=
  (process_line JSON_parse pg waypoint_html sum).
Local Abbreviation process_lines :=
  (process_lines JSON_parse pg waypoint_html sum).
Local Abbreviation processStream :=
  (processStream JSON_parse pg waypoint_html sum).
Local Abbreviation decode_segments :=
  (decode_segments JSON_parse pg waypoint_html sum).

Lemma decode_segments_without before line after e :
  (forall d, process_line d line = Continue [] d) ->
  decode_segments (before ++ line :: after) e = decode_segments (before ++ after) e.
Proof.
  intros Hl. unfold ApiModule.decode_segments.
  rewrite !process_lines_app.
  destruct (process_lines initial before) as [acts d|acts]; [|reflexivity].
  cbn [ApiModule.process_lines]. rewrite Hl.
  destruct (process_lines d after); reflexivity.
Qed.

(** X1.  A segment that does not start with [data: ], such as an empty
    segment or a comment line, is passed over without a callback, a page
    call or a log entry: the run is the run of the stream without it. *)
Theorem X1_other_segments_are_ignored
    (before after frags : list string) (other tail : string) (e : ending) :
  Forall (fun m => clean m = true) (before ++ other :: after) ->
  has_delimiter tail = false ->
  startsWith other "data: " = false ->
  joined frags = (framed (before ++ other :: after) ++ tail)%string ->
  without_reads (processStream "" initial frags e) =
  decode_segments (before ++ after) e.
Proof.
  intros Hc Ht Ho Hj.
  rewrite (processStream_framed JSON_parse pg waypoint_html sum _ _ _ e Hc Ht Hj).
  apply decode_segments_without. intros d.
  unfold ApiModule.process_line. rewrite Ho. reflexivity.
Qed.

(** X3.  A segment [data: null], or any whose text parses to [null], makes
    [data.status] raise a TypeError inside the [try]: it is logged and
    skipped like a syntax error, and the events of the run are those of
    the stream without it. *)
Theorem X3_null_message_is_skipped
    (before after frags : list string) (line tail : string) (data : value)
    (e : ending) :
  Forall (fun m => clean m = true) (before ++ line :: after) ->
  has_delimiter tail = false ->
  startsWith line "data: " = true ->
  JSON_parse (slice 6 line) = Some data ->
  nullish data = true ->
  joined frags = (framed (before ++ line :: after) ++ tail)%string ->
  filter is_event (processStream "" initial frags e) =
    filter is_event (decode_segments (before ++ after) e) /\
  (forall acts d, process_lines initial before = Continue acts d ->
                  In (ConsoleError line) (processStream "" initial frags e)).
Proof.
  intros Hc Ht Hp Hj Hn Hf.
  assert (Hrun := processStream_framed JSON_parse pg waypoint_html sum _ _ _ e Hc Ht Hf).
  assert (Hline : forall d, process_line d line = Continue [ConsoleError line] d).
  { intros d. unfold ApiModule.process_line, handle_data.
    rewrite Hp, Hj, Hn. reflexivity. }
  unfold ApiModule.decode_segments in *.
  rewrite process_lines_app in *.
  split.
  - rewrite <- events_without_reads, Hrun.
    destruct (process_lines initial before) as [acts d|acts]; [|reflexivity].
    cbn [ApiModule.process_lines]. rewrite Hline.
    destruct (process_lines d after) as [acts' d'|acts'];
      rewrite !filter_app; reflexivity.
  - intros acts d E. rewrite E in Hrun.
    cbn [ApiModule.process_lines] in Hrun. rewrite Hline in Hrun.
    assert (Hin : In (ConsoleError line)
                     (without_reads (processStream "" initial frags e))).
    { rewrite Hrun. destruct (process_lines d after) as [acts' d'|acts'];
        rewrite ?in_app_iff; cbn; auto. }
    unfold without_reads in Hin. apply filter_In in Hin. tauto.
Qed.

Lemma filter_terminal_passing body :
  Forall (fun a => passing a = true) body -> filter is_terminal body = [].
Proof.
  induction 1 as [|a l Ha _ IH]; [reflexivity|].
  cbn. rewrite (passing_not_terminal a Ha). exact IH.
Qed.

Lemma filter_terminal_calls calls :
  Forall (fun a => page_call a = true) calls -> filter is_terminal calls = [].
Proof.
  induction 1 as [|a l Ha _ IH]; [reflexivity|].
  cbn. rewrite (page_call_not_terminal a Ha). exact IH.
Qed.

(** X4.  Whatever the transport does, a call of [streamChatMessage] calls
    exactly one of [onComplete] and [onError], exactly once. *)
Theorem X4_exactly_one_terminal_callback (t : transport) :
  length (filter is_terminal (streamChatMessage JSON_parse pg waypoint_html sum t)) = 1.
Proof.
  destruct t as [m|status|frags e]; [reflexivity | reflexivity |].
  cbn [streamChatMessage].
  destruct (processStream_shape JSON_parse pg waypoint_html sum frags e "" initial)
    as (body & tail & -> & Hbody & Hend).
  rewrite filter_app, (filter_terminal_passing _ Hbody). cbn [app].
  destruct Hend as [[Hc _]|[[d' ->] _]].
  - destruct Hc as [calls rt ru Hcalls|err]; [|reflexivity].
    rewrite filter_app, (filter_terminal_calls _ Hcalls). reflexivity.
  - destruct e; reflexivity.
Qed.

End DecoderEdges.

Lemma X1_witness :
  Forall (fun m => clean m = true)
         ([Json.message [("chunk", Str "Hi")]] ++ ": keep-alive" ::
          [""; Json.message [("chunk", Str " there")]]) /\
  has_delimiter "" = false /\
  startsWith ": keep-alive" "data: " = false /\
  joined (chop 5 (framed ([Json.message [("chunk", Str "Hi")]]
                          ++ ": keep-alive" ::
                          [""; Json.message [("chunk", Str " there")]]) ++ "")) =
    (framed ([Json.message [("chunk", Str "Hi")]] ++ ": keep-alive" ::
             [""; Json.message [("chunk", Str " there")]]) ++ "")%string /\
  without_reads
    (processStream Json.parse fresh_page waypoint_html sum "" initial
       (chop 5 (framed ([Json.message [("chunk", Str "Hi")]]
                        ++ ": keep-alive" ::
                        [""; Json.message [("chunk", Str " there")]]) ++ ""))
       EndOfStream) =
  decode_segments Json.parse fresh_page waypoint_html sum
    ([Json.message [("chunk", Str "Hi")]] ++
     [""; Json.message [("chunk", Str " there")]]) EndOfStream.
Proof.
  assert (Hc : Forall (fun m => clean m = true)
                 ([Json.message [("chunk", Str "Hi")]] ++ ": keep-alive" ::
                  [""; Json.message [("chunk", Str " there")]]))
    by (repeat constructor).
  assert (Ht : has_delimiter "" = false) by reflexivity.
  assert (Ho : startsWith ": keep-alive" "data: " = false) by reflexivity.
  assert (Hj : joined (chop 5 (framed ([Json.message [("chunk", Str "Hi")]]
                                       ++ ": keep-alive" ::
                                       [""; Json.message [("chunk", Str " there")]])
                               ++ "")) =
               (framed ([Json.message [("chunk", Str "Hi")]] ++ ": keep-alive" ::
                        [""; Json.message [("chunk", Str " there")]]) ++ "")%string)
    by reflexivity.
  split; [exact Hc | split; [exact Ht | split; [exact Ho | split; [exact Hj|]]]].
  exact (X1_other_segments_are_ignored Json.parse fresh_page waypoint_html sum
           _ _ _ ": keep-alive" "" EndOfStream Hc Ht Ho Hj).
Defined.

Lemma X3_witness :
  Forall (fun m => clean m = true)
         ([Json.message [("chunk", Str "Hi")]] ++ "data: null" ::
          [Json.message [("chunk", Str " there")]]) /\
  has_delimiter "" = false /\
  startsWith "data: null" "data: " = true /\
  Json.parse (slice 6 "data: null") = Some Null /\
  nullish Null = true /\
  joined [(framed ([Json.message [("chunk", Str "Hi")]] ++ "data: null" ::
                   [Json.message [("chunk", Str " there")]]) ++ "")%string] =
    (framed ([Json.message [("chunk", Str "Hi")]] ++ "data: null" ::
             [Json.message [("chunk", Str " there")]]) ++ "")%string /\
  filter is_event
    (processStream Json.parse fresh_page waypoint_html sum "" initial
       [(framed ([Json.message [("chunk", Str "Hi")]] ++ "data: null" ::
                 [Json.message [("chunk", Str " there")]]) ++ "")%string]
       EndOfStream) =
    filter is_event
      (decode_segments Json.parse fresh_page waypoint_html sum
         ([Json.message [("chunk", Str "Hi")]] ++
          [Json.message [("chunk", Str " there")]]) EndOfStream) /\
  (forall acts d,
     process_lines Json.parse fresh_page waypoint_html sum initial
       [Json.message [("chunk", Str "Hi")]] = Continue acts d ->
     In (ConsoleError "data: null")
        (processStream Json.parse fresh_page waypoint_html sum "" initial
           [(framed ([Json.message [("chunk", Str "Hi")]] ++ "data: null" ::
                     [Json.message [("chunk", Str " there")]]) ++ "")%string]
           EndOfStream)).
Proof.
  assert (Hc : Forall (fun m => clean m = true)
                 ([Json.message [("chunk", Str "Hi")]] ++ "data: null" ::
                  [Json.message [("chunk", Str " there")]]))
    by (repeat constructor).
  assert (Ht : has_delimiter "" = false) by reflexivity.
  assert (Hp : startsWith "data: null" "data: " = true) by reflexivity.
  assert (Hj : Json.parse (slice 6 "data: null") = Some Null) by reflexivity.
  assert (Hn : nullish Null = true) by reflexivity.
  assert (Hf : joined [(framed ([Json.message [("chunk", Str "Hi")]]
                                ++ "data: null" ::
                                [Json.message [("chunk", Str " there")]])
                        ++ "")%string] =
               (framed ([Json.message [("chunk", Str "Hi")]] ++ "data: null" ::
                        [Json.message [("chunk", Str " there")]]) ++ "")%string)
    by reflexivity.
  split; [exact Hc | split; [exact Ht | split; [exact Hp | split; [exact Hj |
    split; [exact Hn | split; [exact Hf|]]]]]].
  exact (X3_null_message_is_skipped Json.parse fresh_page waypoint_html sum
           _ _ _ "data: null" "" Null EndOfStream Hc Ht Hp Hj Hn Hf).
Defined.

(** ** What the buffer keeps *)

Section BufferFacts.

Lemma split_singleton_no_delimiter s : split s = [s] -> has_delimiter s = false.
Proof.
  induction s as [|c|c c' s IH1 IH2] using string_pair_ind; try reflexivity.
  rewrite split_two.
  change (has_delimiter (String c (String c' s)))
    with ((Ascii.eqb c nl && Ascii.eqb c' nl) || has_delimiter (String c' s)).
  destruct (Ascii.eqb c nl && Ascii.eqb c' nl); [discriminate|].
  cbn [orb]. intros H. apply IH2.
  assert (Hne := split_not_nil (String c' s)).
  destruct (split (String c' s)) as [|p [|q l]];
    [congruence | | discriminate].
  cbn [cons_head] in H. congruence.
Qed.

Lemma framed_cons_head c q qs :
  framed (cons_head c (q :: qs)) = String c (framed (q :: qs)).
Proof. reflexivity. Qed.

Lemma split_lossless s :
  (framed (removelast (split s)) ++ last (split s) "")%string = s.
Proof.
  induction s as [|c|c c' s IH1 IH2] using string_pair_ind;
    try reflexivity.
  rewrite (split_two c c' s).
  destruct (Ascii.eqb c nl && Ascii.eqb c' nl) eqn:E.
  - apply andb_true_iff in E as [E1 E2].
    apply Ascii.eqb_eq in E1, E2. subst c c'.
    assert (Hne := split_not_nil s).
    destruct (split s) as [|p ps] eqn:Es; [congruence|].
    change (removelast ("" :: p :: ps)) with ("" :: removelast (p :: ps)).
    change (last ("" :: p :: ps) "") with (last (p :: ps) "").
    cbn [framed]. rewrite !append_assoc, IH1. reflexivity.
  - assert (Hne := split_not_nil (String c' s)).
    rewrite removelast_cons_head, last_cons_head by exact Hne.
    destruct (removelast (split (String c' s))) as [|q qs] eqn:Er.
    + cbn [framed append] in *. rewrite IH2. reflexivity.
    + rewrite framed_cons_head. cbn [append]. rewrite IH2. reflexivity.
Qed.

(** X2.  Cutting the received text loses nothing and leaves no message
    behind: the complete segments, each followed by the delimiter, and then
    the piece kept in [buffer] spell the text again, and the kept piece
    holds no delimiter. *)
Theorem X2_buffer_keeps_the_rest (buffer chunk : string) :
  (framed (removelast (split (buffer ++ chunk)))
   ++ last (split (buffer ++ chunk)) "")%string = (buffer ++ chunk)%string /\
  has_delimiter (last (split (buffer ++ chunk)) "") = false.
Proof.
  split; [apply split_lossless|].
  apply split_singleton_no_delimiter, split_last.
Qed.

End BufferFacts.

(** ** The decoder's events on the chat bubble *)

Section Bubble.

Variable numbers_valid : string -> string -> bool.

Variable JSON_parse : string -> option value.
Variable waypoint_html : string -> markup.
Variable sum : string -> string -> string.

Local Abbreviation messages_of := (decoded JSON_parse).

Lemma dispatch_all_events tr : forall w,
  dispatch_all numbers_valid (filter is_event tr) w = dispatch_all numbers_valid tr w.
Proof.
  induction tr as [|a tr IH]; intros w; [reflexivity|].
  destruct a; cbn [filter is_event dispatch_all dispatch];
    try apply IH;
    match goal with
    | |- match ?o with Some _ => _ | None => _ end = _ =>
        destruct o; [apply IH | reflexivity]
    end.
Qed.

(** Chunk events append to the bubble and touch nothing else. *)
Lemma dispatch_chunks payloads : forall w,
  Forall (fun c => readable c = true) payloads ->
  exists w',
    dispatch_all numbers_valid (map OnChunk payloads) w = Some w' /\
    text (chat w') = (text (chat w) ++ concat_text payloads)%string /\
    error_class (chat w') = error_class (chat w) /\
    same_page w w'.
Proof.
  induction payloads as [|p rest IH]; intros w H.
  - exists w. cbn. rewrite append_nil_r. repeat split.
  - inversion H as [|? ? Hp Hr]; subst.
    cbn [map dispatch_all dispatch concat_text].
    unfold ChatModule.onChunk, shown. unfold readable in Hp.
    destruct (ToString p) as [t|]; [|discriminate].
    destruct (IH (set_chat {| text := (text (chat w) ++ t)%string;
                              cursor := true;
                              error_class := error_class (chat w) |} w) Hr)
      as (w' & -> & T & E & S).
    exists w'. split; [reflexivity|].
    cbn [chat set_chat text error_class] in T, E.
    rewrite T, E, append_assoc. split; [reflexivity|]. split; [reflexivity|].
    destruct S as (S1 & S2 & S3 & S4 & S5). repeat split; assumption.
Qed.

(** The chunks of the messages the decoder hears have strings. *)
Lemma heard_chunks_readable messages :
  Forall (fun data => plain data = true) (heard messages) ->
  Forall (fun c => readable c = true) (chunks (heard messages)).
Proof.
  induction messages as [|data rest IH]; intros H; [constructor|].
  unfold heard in *. cbn [filter] in *.
  destruct (unreadable data) eqn:Hu; cbn [negb] in *; [apply IH, H|].
  inversion H as [|? ? Hd Hr]; subst.
  unfold chunks. cbn [map filter]. fold (chunks (filter
    (fun data => negb (unreadable data)) rest)).
  destruct (truthy (get data "chunk")) eqn:Hc; [|apply IH, Hr].
  constructor; [|apply IH, Hr].
  unfold plain in Hd. apply andb_true_iff in Hd as [Hs _].
  unfold unreadable in Hu. rewrite Hs, Hc in Hu. cbn [andb] in Hu.
  unfold readable. destruct (ToString (get data "chunk")); congruence.
Qed.


Lemma removelast_snoc {A} (l : list A) (a : A) : removelast (l ++ [a]) = l.
Proof. apply removelast_last. Qed.

(** X5.  An answer made of chunks, on the page: while it streams, the bubble
    holds its text at the start followed by the truthy chunks received, in
    order; at the natural end of the stream the bubble holds exactly their
    concatenation, the cursor is gone, and the route check is started if
    and only if the remembered flag is truthy.  Nothing else on the page
    changes, and no callback raises.  A message whose chunk has no string
    is not heard and adds nothing. *)
Theorem X5_streamed_answer_in_the_bubble
    (pg : page) (frags : list string) (w : world) :
  Forall (fun data => plain data = true)
         (heard (messages_of (segments_of (joined frags)))) ->
  (exists w1,
     dispatch_all numbers_valid
       (removelast
          (filter is_event
             (processStream JSON_parse pg waypoint_html sum "" initial frags
                EndOfStream))) w = Some w1 /\
     text (chat w1) =
       (text (chat w)
        ++ concat_text
             (chunks (heard (messages_of (segments_of (joined frags))))))%string) /\
  exists w',
    dispatch_all numbers_valid
      (processStream JSON_parse pg waypoint_html sum "" initial frags
         EndOfStream) w = Some w' /\
    text (chat w') =
      concat_text (chunks (heard (messages_of (segments_of (joined frags))))) /\
    cursor (chat w') = false /\
    error_class (chat w') = error_class (chat w) /\
    tasks w' =
      tasks w ++
      (if truthy (remembered (heard (messages_of (segments_of (joined frags)))))
       then [TCheckForRouteUpdate] else []) /\
    document w' = document w /\
    requests w' = requests w /\
    views w' = views w.
Proof.
  intros Hp.
  rewrite <- (dispatch_all_events
                (processStream JSON_parse pg waypoint_html sum "" initial
                   frags _)).
  rewrite (plain_stream_events JSON_parse pg waypoint_html sum frags Hp).
  rewrite removelast_snoc, dispatch_all_app.
  set (hs := heard (messages_of (segments_of (joined frags)))) in *.
  destruct (dispatch_chunks (chunks hs) w (heard_chunks_readable _ Hp))
    as (w1 & -> & Ht & He & Hd & Hel & Hr & Hv & Hk).
  split; [exists w1; auto|].
  cbn [dispatch_all dispatch]. unfold ChatModule.onComplete.
  cbn [or_else truthy].
  assert (Hs : ToString (if negb (concat_text (chunks hs) =? "")
                         then Str (concat_text (chunks hs)) else Str "") =
               Some (concat_text (chunks hs))).
  { destruct (concat_text (chunks hs) =? "") eqn:E; [|reflexivity].
    apply String.eqb_eq in E. rewrite E. reflexivity. }
  unfold or_else. cbn [truthy]. rewrite Hs.
  eexists. split; [reflexivity|].
  destruct (truthy (remembered hs));
    simpl_world; cbn [text cursor error_class];
    rewrite ?app_nil_r; repeat split; congruence.
Qed.


End Bubble.

(** ** geocodeAddress and its display node *)

Section GeocodeDisplay.

Variable net : nat -> response.
Variable toFixed6 : string -> string.

Lemma show_error_missing id msg w :
  id <> "" ->
  find_element id (elements w) = None ->
  show_error (Some id) msg w = (Exn TypeError, w).
Proof.
  intros Hid Hel. unfold show_error, given.
  apply String.eqb_neq in Hid. rewrite Hid.
  unfold bind, interpolated, set_textContent.
  destruct (ToString msg); [unfold ret; rewrite Hel|]; reflexivity.
Qed.

(** X7.  Asked to display its result in a node that is not in the page,
    [geocodeAddress] rejects with a TypeError whatever the backend answers:
    the request is made, and every path ends in a write to the missing
    node, the last one inside the [catch] block. *)
Theorem X7_geocode_missing_node_rejects
    (address id : string) (w : world) :
  id <> "" ->
  find_element id (elements w) = None ->
  geocodeAddress net toFixed6 address (Some id) w =
  (Exn TypeError,
   add_request {| url := "/geocode"; payload := Obj [("address", Str address)] |} w).
Proof.
  intros Hid Hel.
  assert (Hcatch : forall error,
            bind (show_error (Some id) error) (fun _ => ret Null)
                 (add_request {| url := "/geocode";
                                 payload := Obj [("address", Str address)] |} w) =
            (Exn TypeError,
             add_request {| url := "/geocode";
                            payload := Obj [("address", Str address)] |} w)).
  { intros error. unfold bind. rewrite show_error_missing by assumption.
    reflexivity. }
  unfold geocodeAddress, try_catch, bind at 1, fetch.
  destruct (net (length (requests w))) as [m|ok [data|]].
  - apply Hcatch.
  - cbn [fst snd json]. unfold bind at 1, ret at 1.
    destruct ok.
    + unfold given. apply String.eqb_neq in Hid as Hid'. rewrite Hid'.
      unfold bind at 1.
      destruct (coordinates_text toFixed6 data _) as [[t|error] w1] eqn:Ec.
      * assert (w1 = add_request {| url := "/geocode";
                                    payload := Obj [("address", Str address)] |} w).
        { revert Ec. unfold coordinates_text, member, fixed, bind, throw, ret.
          destruct (nullish data); [discriminate|].
          destruct (get data "lat"); try discriminate.
          destruct (get data "lng"); try discriminate.
          intros H; inversion H; reflexivity. }
        subst w1. unfold bind at 1, set_textContent.
        cbn [elements add_request]. rewrite Hel. apply Hcatch.
      * assert (w1 = add_request {| url := "/geocode";
                                    payload := Obj [("address", Str address)] |} w).
        { revert Ec. unfold coordinates_text, member, fixed, bind, throw, ret.
          destruct (nullish data); [intros H; inversion H; reflexivity|].
          destruct (get data "lat"); try (intros H; inversion H; reflexivity).
          destruct (get data "lng"); intros H; inversion H; reflexivity. }
        subst w1. apply Hcatch.
    + unfold bind at 1, member.
      destruct (nullish data); [apply Hcatch|].
      unfold ret at 1. unfold bind at 1.
      rewrite show_error_missing by assumption. apply Hcatch.
  - cbn [fst snd json]. unfold bind at 1, throw. destruct ok; apply Hcatch.
Qed.

End GeocodeDisplay.

Section GeocodeMarks.

Variable net : nat -> response.
Variable toFixed6 : string -> string.

Lemma find_put_element_other id id' el els :
  id' <> id ->
  find_element id' (put_element id el els) = find_element id' els.
Proof.
  intros Hne. induction els as [|[k e] els IH]; [reflexivity|].
  cbn [put_element]. destruct (k =? id) eqn:E; cbn [find_element].
  - apply String.eqb_eq in E. subst k.
    apply String.eqb_neq in Hne. rewrite String.eqb_sym, Hne.
    reflexivity.
  - rewrite IH. reflexivity.
Qed.

(** A failure with the node in the page: the message is written into the
    node and the node is marked. *)
Lemma show_error_found id el msg t w :
  id <> "" ->
  find_element id (elements w) = Some el ->
  ToString msg = Some t ->
  exists w',
    show_error (Some id) msg w = (Val tt, w') /\
    requests w' = requests w /\
    (exists el', find_element id (elements w') = Some el' /\
                 textContent el' = ("Error: " ++ t)%string /\
                 (forall c, In c (classList el) \/ c = "error" <->
                            In c (classList el'))).
Proof.
  intros Hid Hel Ht. unfold show_error, given.
  apply String.eqb_neq in Hid. rewrite Hid.
  unfold bind, interpolated, set_textContent, classList_add. rewrite Ht.
  unfold ret at 1. rewrite Hel.
  cbn [elements set_elements].
  rewrite find_put_element by congruence.
  eexists. split; [reflexivity|]. split; [reflexivity|].
  cbn [elements set_elements]. rewrite find_put_element.
  - eexists. split; [reflexivity|]. cbn [textContent classList].
    split; [reflexivity|]. intros c.
    destruct (existsb (String.eqb "error") (classList el)) eqn:Ex.
    + apply existsb_exists in Ex as (x & Hx & Ex).
      apply String.eqb_eq in Ex. subst x.
      split; [intros [H | ->]; assumption | auto].
    + rewrite in_app_iff. cbn. intuition.
  - rewrite find_put_element by congruence. discriminate.
Qed.

Lemma message_of_shown v : ToString (message_of v) = Some (shown (message_of v)).
Proof.
  unfold message_of, shown. destruct (ToString v); reflexivity.
Qed.

Lemma geocode_shows_failure address id el msg w :
  id <> "" ->
  find_element id (elements w) = Some el ->
  geocode_failure (net (length (requests w))) = Some msg ->
  exists w',
    geocodeAddress net toFixed6 address (Some id) w = (Val Null, w') /\
    requests w' = requests w ++ [geocode_request address] /\
    (exists el', find_element id (elements w') = Some el' /\
                 textContent el' = ("Error: " ++ shown msg)%string /\
                 (forall c, In c (classList el) \/ c = "error" <->
                            In c (classList el'))).
Proof.
  intros Hid Hel Hf.
  set (w1 := add_request (geocode_request address) w).
  assert (Hcatch : forall t,
            Str t = msg ->
            exists w',
              bind (show_error (Some id) (Str t)) (fun _ => ret Null) w1 =
                (Val Null, w') /\
              requests w' = requests w ++ [geocode_request address] /\
              (exists el', find_element id (elements w') = Some el' /\
                 textContent el' = ("Error: " ++ shown msg)%string /\
                 (forall c, In c (classList el) \/ c = "error" <->
                            In c (classList el')))).
  { intros t <-. unfold bind.
    destruct (show_error_found id el (Str t) t w1 Hid Hel eq_refl)
      as (w' & -> & Hr & He).
    exists w'. split; [reflexivity|]. split; [exact Hr | exact He]. }
  unfold geocodeAddress, try_catch, bind at 1, fetch.
  fold (geocode_request address). fold w1.
  unfold geocode_failure in Hf. unfold TypeError, SyntaxError in *.
  destruct (net (length (requests w))) as [m|ok [data|]].
  - apply Hcatch. congruence.
  - cbn [fst snd json]. unfold bind at 1, ret at 1. destruct ok.
    + unfold given. apply String.eqb_neq in Hid as Hid'. rewrite Hid'.
      unfold coordinate_object in Hf.
      unfold coordinates_text, member, fixed, bind, throw, ret.
      destruct (nullish data); cbn [negb andb] in Hf.
      { apply (Hcatch "TypeError"). congruence. }
      destruct (get data "lat"); cbn [is_number andb] in Hf;
        try (apply (Hcatch "TypeError"); congruence).
      destruct (get data "lng"); cbn [is_number] in Hf;
        try (apply (Hcatch "TypeError"); congruence).
      discriminate.
    + unfold bind at 1, member.
      destruct (nullish data); [apply (Hcatch "TypeError"); congruence|].
      unfold ret at 1. unfold bind at 1.
      unfold message_of in Hf.
      destruct (ToString (get data "error")) as [t|] eqn:Et;
        injection Hf as <-.
      * destruct (show_error_found id el (get data "error") t w1 Hid Hel Et)
          as (w' & -> & Hr & He).
        exists w'. split; [reflexivity|]. split; [exact Hr | exact He].
      * replace (show_error (Some id) (get data "error") w1)
          with (@Exn unit (Str "TypeError"), w1).
        2:{ unfold show_error, given.
            apply String.eqb_neq in Hid as Hid'. rewrite Hid'.
            unfold bind, interpolated. rewrite Et. reflexivity. }
        apply (Hcatch "TypeError"). reflexivity.
  - cbn [fst snd json]. unfold bind at 1, throw.
    destruct ok; apply (Hcatch "SyntaxError"); congruence.
Qed.

Lemma geocode_shows_coordinates address id el data lat lng w :
  id <> "" ->
  find_element id (elements w) = Some el ->
  net (length (requests w)) = Responded true (Some data) ->
  get data "lat" = Num lat ->
  get data "lng" = Num lng ->
  exists w',
    geocodeAddress net toFixed6 address (Some id) w = (Val data, w') /\
    requests w' = requests w ++ [geocode_request address] /\
    find_element id (elements w') =
      Some {| textContent :=
                ("Lat: " ++ toFixed6 lat ++ ", Lng: " ++ toFixed6 lng)%string;
              classList := classList el |}.
Proof.
  intros Hid Hel Hnet Hlat Hlng.
  assert (Hn : nullish data = false).
  { destruct data; try reflexivity; discriminate. }
  unfold geocodeAddress, try_catch, bind at 1, fetch. rewrite Hnet.
  cbn [fst snd json]. unfold bind at 1, ret at 1.
  unfold given. apply String.eqb_neq in Hid as Hid'. rewrite Hid'.
  unfold coordinates_text, member, fixed, bind, throw, ret.
  rewrite Hn, Hlat, Hlng.
  unfold set_textContent. cbn [elements add_request]. rewrite Hel.
  eexists. split; [reflexivity|]. split; [reflexivity|].
  cbn [elements set_elements]. apply find_put_element. congruence.
Qed.

(** X8.  The error mark on a display node is never taken off.  After a
    failed geocoding and then a successful one shown in the same node, the
    node holds the coordinates of the second answer and still carries the
    class [error] of the first. *)
Theorem X8_error_mark_outlives_success
    (first second id lat lng : string) (el : element) (msg data : value)
    (w : world) :
  id <> "" ->
  find_element id (elements w) = Some el ->
  geocode_failure (net (length (requests w))) = Some msg ->
  net (S (length (requests w))) = Responded true (Some data) ->
  get data "lat" = Num lat ->
  get data "lng" = Num lng ->
  exists w' el',
    (geocodeAddress net toFixed6 first (Some id) ;;;
     geocodeAddress net toFixed6 second (Some id)) w = (Val data, w') /\
    find_element id (elements w') = Some el' /\
    textContent el' =
      ("Lat: " ++ toFixed6 lat ++ ", Lng: " ++ toFixed6 lng)%string /\
    In "error" (classList el').
Proof.
  intros Hid Hel Hf Hnet Hlat Hlng.
  destruct (geocode_shows_failure first id el msg w Hid Hel Hf)
    as (w1 & E1 & R1 & el1 & F1 & _ & C1).
  assert (Hnet1 : net (length (requests w1)) = Responded true (Some data)).
  { rewrite R1, length_app, Nat.add_1_r. exact Hnet. }
  destruct (geocode_shows_coordinates second id el1 data lat lng w1
              Hid F1 Hnet1 Hlat Hlng) as (w2 & E2 & _ & F2).
  exists w2. eexists. unfold bind. rewrite E1, E2.
  split; [reflexivity|]. split; [exact F2|].
  cbn [textContent classList]. split; [reflexivity|].
  apply C1. right. reflexivity.
Qed.

End GeocodeMarks.

(* ================================================================== *)
(** * Further properties of the form module *)
(* ================================================================== *)

Section Fetching.

Variable net : nat -> response.
Variable times_1000 : string -> value.
Variable raises : view_call -> option value.

Local Abbreviation getPlaces := (FormModule.getPlaces net times_1000 raises).
Local Abbreviation getNaturalFeatures :=
  (FormModule.getNaturalFeatures net times_1000 raises).

(** X9.  With [forceRefresh] set the cache is not consulted: even when the
    cached result has the selected radius, the call sends one request, and
    a 2xx answer with a body replaces what was cached. *)
Theorem X9_force_refresh_bypasses_the_cache
    (coords body : value) (w : world) :
  nullish coords = false ->
  net (length (requests w)) = Responded true (Some body) ->
  nullish body = false ->
  (count_url "/places" (requests (snd (getPlaces coords true w))) =
     S (count_url "/places" (requests w)) /\
   currentPlaces (vars (document (snd (getPlaces coords true w)))) =
     Some {| data := get body "places";
             radius := places_radius (controls (document w)) |}) /\
  (count_url "/natural_features"
     (requests (snd (getNaturalFeatures coords true w))) =
     S (count_url "/natural_features" (requests w)) /\
   currentFeatures (vars (document (snd (getNaturalFeatures coords true w)))) =
     Some {| data := get body "features";
             radius := features_radius (controls (document w)) |}).
Proof.
  intros Hc Hnet Hb. split.
  - split.
    + destruct (getPlaces_miss net times_1000 raises coords true w eq_refl Hc)
        as (w' & -> & Hk & _). exact Hk.
    + exact (getPlaces_fetched net times_1000 raises coords true w body eq_refl
               Hc Hnet Hb).
  - split.
    + destruct (getNaturalFeatures_miss net times_1000 raises coords true w eq_refl Hc)
        as (w' & -> & Hk & _). exact Hk.
    + exact (getNaturalFeatures_fetched net times_1000 raises coords true w body
               eq_refl Hc Hnet Hb).
Qed.

(** X10.  A request for places or features that fails (the fetch rejects,
    the answer is not 2xx, or the body does not parse or is [null]) is
    reported in the list of the sidebar and nowhere else: no alert, no
    exception, and the variables of the module stay as they were, so that
    an earlier result remains cached. *)
Theorem X10_failed_request_is_reported_in_the_list
    (coords msg : value) (force : bool) (w : world) :
  nullish coords = false ->
  (negb force
   && FormModule.same_radius (currentPlaces (vars (document w)))
        (places_radius (controls (document w))) = false ->
   request_failure "Failed to get places" (net (length (requests w))) =
     Some msg ->
   getPlaces coords force w =
   (Val tt,
    add_view (ListError "places-list" msg)
      (add_request
         (along_route_request times_1000 "/places" "node" coords
            (places_radius (controls (document w)))) w))) /\
  (negb force
   && FormModule.same_radius (currentFeatures (vars (document w)))
        (features_radius (controls (document w))) = false ->
   request_failure "Failed to get natural features"
     (net (length (requests w))) = Some msg ->
   getNaturalFeatures coords force w =
   (Val tt,
    add_view (ListError "features-list" msg)
      (add_request
         (along_route_request times_1000 "/natural_features" "way" coords
            (features_radius (controls (document w)))) w))).
Proof.
  intros Hc. split; intros Hmiss Hf.
  - unfold FormModule.getPlaces, FormModule.getPlacesRequest,
      FormModule.along_route, request_failure in *.
    run_monad. rewrite Hmiss, Hc. run_monad.
    destruct (net (length (requests w))) as [m|ok [data|]]; run_monad.
    + injection Hf as <-. reflexivity.
    + destruct ok; cbn [negb]; run_monad;
        destruct (nullish data); run_monad; try discriminate;
        injection Hf as <-; reflexivity.
    + destruct ok; cbn [negb]; run_monad; injection Hf as <-; reflexivity.
  - unfold FormModule.getNaturalFeatures, FormModule.getFeaturesRequest,
      FormModule.along_route, request_failure in *.
    run_monad. rewrite Hmiss, Hc. run_monad.
    destruct (net (length (requests w))) as [m|ok [data|]]; run_monad.
    + injection Hf as <-. reflexivity.
    + destruct ok; cbn [negb]; run_monad;
        destruct (nullish data); run_monad; try discriminate;
        injection Hf as <-; reflexivity.
    + destruct ok; cbn [negb]; run_monad; injection Hf as <-; reflexivity.
Qed.

End Fetching.

(** ** What a step sends and shows *)

Section Frames.

Lemma sent_only_refl paths w : sent_only paths w w.
Proof. exists []. rewrite app_nil_r. split; [reflexivity | constructor]. Qed.

Lemma sent_only_trans paths w1 w2 w3 :
  sent_only paths w1 w2 -> sent_only paths w2 w3 -> sent_only paths w1 w3.
Proof.
  intros (e1 & R1 & F1) (e2 & R2 & F2). exists (e1 ++ e2).
  rewrite R2, R1, app_assoc. split; [reflexivity|].
  apply Forall_app. split; assumption.
Qed.

Lemma sent_only_incl paths paths' w w' :
  incl paths paths' -> sent_only paths w w' -> sent_only paths' w w'.
Proof.
  intros Hi (e & R & F). exists e. split; [exact R|].
  eapply Forall_impl; [|exact F]. intros r. apply Hi.
Qed.

Lemma sent_only_same paths w w' :
  requests w' = requests w -> sent_only paths w w'.
Proof.
  intros H. exists []. rewrite app_nil_r. split; [exact H | constructor].
Qed.

Lemma sent_only_count paths path w w' :
  sent_only paths w w' -> ~ In path paths ->
  count_url path (requests w') = count_url path (requests w).
Proof.
  intros (e & -> & F) Hn. rewrite count_url_app.
  assert (H : count_url path e = 0).
  { induction F as [|r e Hr _ IH]; [reflexivity|].
    unfold count_url in *. cbn [filter].
    destruct (url r =? path) eqn:E; [|exact IH].
    apply String.eqb_eq in E. subst path. contradiction. }
  lia.
Qed.

Lemma shown_only_refl w : shown_only w w.
Proof. exists []. rewrite app_nil_r. split; [reflexivity | constructor]. Qed.

Lemma shown_only_trans w1 w2 w3 :
  shown_only w1 w2 -> shown_only w2 w3 -> shown_only w1 w3.
Proof.
  intros (e1 & R1 & F1) (e2 & R2 & F2). exists (e1 ++ e2).
  rewrite R2, R1, app_assoc. split; [reflexivity|].
  apply Forall_app. split; assumption.
Qed.

Lemma shown_only_same w w' : views w' = views w -> shown_only w w'.
Proof.
  intros H. exists []. rewrite app_nil_r. split; [exact H | constructor].
Qed.

End Frames.

Ltac frame_sent :=
  first
    [ apply sent_only_same; reflexivity
    | eexists; split;
      [ simpl_world; rewrite <- ?app_assoc; reflexivity
      | repeat (apply Forall_cons; [cbn; auto 10|]); apply Forall_nil ] ].

Ltac frame_shown :=
  first
    [ apply shown_only_same; reflexivity
    | eexists; split;
      [ simpl_world; rewrite <- ?app_assoc; reflexivity
      | repeat constructor ] ].

Section FetchingFrames.

Variable net : nat -> response.
Variable times_1000 : string -> value.
Variable raises : view_call -> option value.

Local Abbreviation getPlaces := (FormModule.getPlaces net times_1000 raises).
Local Abbreviation getNaturalFeatures :=
  (FormModule.getNaturalFeatures net times_1000 raises).

Lemma tell_backend_frame path body w :
  exists w',
    FormModule.tell_backend net path body w = (Val tt, w') /\
    document w' = document w /\ elements w' = elements w /\
    views w' = views w /\ tasks w' = tasks w /\ chat w' = chat w /\
    sent_only [path] w w'.
Proof.
  destruct (tell_backend_spec net path body w)
    as (w' & E & Hd & He & Hv & Ht & Hc & Hr).
  exists w'. repeat (split; [assumption|]).
  exists [{| url := path; payload := body |}]. split; [exact Hr|].
  repeat constructor.
Qed.

Lemma getPlaces_frame coords force w :
  exists w',
    getPlaces coords force w = (Val tt, w') /\
    sent_only places_paths w w' /\ shown_only w w' /\
    elements w' = elements w /\ tasks w' = tasks w /\ chat w' = chat w /\
    controls (document w') = controls (document w) /\
    currentRoute (vars (document w')) = currentRoute (vars (document w)) /\
    currentFeatures (vars (document w')) = currentFeatures (vars (document w)).
Proof.
  unfold FormModule.getPlaces, FormModule.getPlacesRequest, FormModule.along_route,
    FormModule.call.
  run_monad.
  destruct (negb force && _).
  { destruct (currentPlaces (vars (document w))); run_monad;
      split_calls raises;
      (eexists; split; [reflexivity|]; split; [frame_sent|];
       split; [frame_shown|]; repeat split). }
  destruct (nullish coords); run_monad.
  { eexists; split; [reflexivity|]; split; [frame_sent|];
      split; [frame_shown|]; repeat split. }
  destruct (net (length (requests w))) as [m|ok [data|]]; run_monad.
  - eexists; split; [reflexivity|]; split; [frame_sent|];
      split; [frame_shown|]; repeat split.
  - destruct ok; cbn [negb]; run_monad.
    + destruct (nullish data); run_monad.
      * eexists; split; [reflexivity|]; split; [frame_sent|];
          split; [frame_shown|]; repeat split.
      * split_calls raises;
          try (eexists; split; [reflexivity|]; split; [frame_sent|];
               split; [frame_shown|]; repeat split).
        match goal with
        | |- context [FormModule.tell_backend net ?p ?b ?w0] =>
            destruct (tell_backend_frame p b w0)
              as (w' & -> & Hd & He & Hv & Ht & Hc & Hs)
        end.
        exists w'. split; [reflexivity|].
        split.
        { eapply sent_only_trans;
            [|eapply sent_only_incl; [|exact Hs]].
          - frame_sent.
          - intros x [<-|[]]. cbn. auto. }
        split.
        { destruct (shown_only_same _ _ Hv) as (vs & Hvs & Fvs).
          eapply shown_only_trans; [|exists vs; split; eassumption].
          frame_shown. }
        rewrite He, Ht, Hc, Hd. repeat split.
    + destruct (nullish data); run_monad;
        (eexists; split; [reflexivity|]; split; [frame_sent|];
         split; [frame_shown|]; repeat split).
  - destruct ok; cbn [negb]; run_monad;
      (eexists; split; [reflexivity|]; split; [frame_sent|];
       split; [frame_shown|]; repeat split).
Qed.

Lemma getNaturalFeatures_frame coords force w :
  exists w',
    getNaturalFeatures coords force w = (Val tt, w') /\
    sent_only features_paths w w' /\ shown_only w w' /\
    elements w' = elements w /\ tasks w' = tasks w /\ chat w' = chat w /\
    controls (document w') = controls (document w) /\
    currentRoute (vars (document w')) = currentRoute (vars (document w)) /\
    currentPlaces (vars (document w')) = currentPlaces (vars (document w)).
Proof.
  unfold FormModule.getNaturalFeatures, FormModule.getFeaturesRequest,
    FormModule.along_route,
    FormModule.call.
  run_monad.
  destruct (negb force && _).
  { destruct (currentFeatures (vars (document w))); run_monad;
      split_calls raises;
      (eexists; split; [reflexivity|]; split; [frame_sent|];
       split; [frame_shown|]; repeat split). }
  destruct (nullish coords); run_monad.
  { eexists; split; [reflexivity|]; split; [frame_sent|];
      split; [frame_shown|]; repeat split. }
  destruct (net (length (requests w))) as [m|ok [data|]]; run_monad.
  - eexists; split; [reflexivity|]; split; [frame_sent|];
      split; [frame_shown|]; repeat split.
  - destruct ok; cbn [negb]; run_monad.
    + destruct (nullish data); run_monad.
      * eexists; split; [reflexivity|]; split; [frame_sent|];
          split; [frame_shown|]; repeat split.
      * split_calls raises;
          try (eexists; split; [reflexivity|]; split; [frame_sent|];
               split; [frame_shown|]; repeat split).
        match goal with
        | |- context [FormModule.tell_backend net ?p ?b ?w0] =>
            destruct (tell_backend_frame p b w0)
              as (w' & -> & Hd & He & Hv & Ht & Hc & Hs)
        end.
        exists w'. split; [reflexivity|].
        split.
        { eapply sent_only_trans;
            [|eapply sent_only_incl; [|exact Hs]].
          - frame_sent.
          - intros x [<-|[]]. cbn. auto. }
        split.
        { destruct (shown_only_same _ _ Hv) as (vs & Hvs & Fvs).
          eapply shown_only_trans; [|exists vs; split; eassumption].
          frame_shown. }
        rewrite He, Ht, Hc, Hd. repeat split.
    + destruct (nullish data); run_monad;
        (eexists; split; [reflexivity|]; split; [frame_sent|];
         split; [frame_shown|]; repeat split).
  - destruct ok; cbn [negb]; run_monad;
      (eexists; split; [reflexivity|]; split; [frame_sent|];
       split; [frame_shown|]; repeat split).
Qed.

(** X11.  [getPlaces] keeps to itself: it never rejects; it talks to
    [/places] and [/update_places_data] and to no other path; what it
    shows are places or an error in the places list, never an alert; and
    it leaves the route, the cached features, the controls and the display
    nodes as they are.  [getNaturalFeatures] does the same on its side. *)
Theorem X11_fetching_keeps_to_itself
    (coords : value) (force : bool) (w : world) :
  (exists w',
     getPlaces coords force w = (Val tt, w') /\
     sent_only places_paths w w' /\ shown_only w w' /\
     elements w' = elements w /\ tasks w' = tasks w /\ chat w' = chat w /\
     controls (document w') = controls (document w) /\
     currentRoute (vars (document w')) = currentRoute (vars (document w)) /\
     currentFeatures (vars (document w')) =
       currentFeatures (vars (document w))) /\
  (exists w',
     getNaturalFeatures coords force w = (Val tt, w') /\
     sent_only features_paths w w' /\ shown_only w w' /\
     elements w' = elements w /\ tasks w' = tasks w /\ chat w' = chat w /\
     controls (document w') = controls (document w) /\
     currentRoute (vars (document w')) = currentRoute (vars (document w)) /\
     currentPlaces (vars (document w')) = currentPlaces (vars (document w))).
Proof.
  split; [apply getPlaces_frame | apply getNaturalFeatures_frame].
Qed.

End FetchingFrames.

(** ** The branch of generateRoute that fetches a route *)

Section Fetched.

Variable net : nat -> response.
Variable toFixed6 : string -> string.
Variable times_1000 : string -> value.
Variable trim : string -> string.
Variable raises : view_call -> option value.

Local Abbreviation generateRoute :=
  (FormModule.generateRoute net toFixed6 times_1000 trim raises).
Local Abbreviation new_route := (FormModule.new_route net toFixed6).
Local Abbreviation geocode_waypoints :=
  (FormModule.geocode_waypoints net toFixed6).
Local Abbreviation show_route := (FormModule.show_route net times_1000 raises).

(** Without a node to write to, [geocodeAddress] returns the body of a 2xx
    answer and [null] otherwise. *)
Lemma geocode_plain_exact address w :
  geocodeAddress net toFixed6 address None w =
  (Val (geocoded (net (length (requests w)))),
   add_request (geocode_request address) w).
Proof.
  unfold geocodeAddress, show_error, given, geocoded. run_monad.
  destruct (net (length (requests w))) as [m|ok [data|]]; run_monad.
  - reflexivity.
  - destruct ok; run_monad; [reflexivity|].
    destruct (nullish data); reflexivity.
  - destruct ok; reflexivity.
Qed.

Lemma requests_add_requests rs : forall w,
  requests (add_requests rs w) = requests w ++ rs /\
  document (add_requests rs w) = document w /\
  elements (add_requests rs w) = elements w /\
  views (add_requests rs w) = views w /\
  tasks (add_requests rs w) = tasks w /\
  chat (add_requests rs w) = chat w.
Proof.
  unfold add_requests.
  induction rs as [|r rs IH]; intros w.
  - cbn. rewrite app_nil_r. repeat split.
  - cbn [fold_left]. destruct (IH (add_request r w)) as (-> & -> & -> & -> & -> & ->).
    simpl_world. rewrite <- app_assoc. repeat split.
Qed.

Lemma geocode_waypoints_exact inputs : forall w,
  geocode_waypoints inputs w =
  (Val (filter truthy
          (map geocoded (answers net (length (requests w)) (length inputs)))),
   add_requests (map geocode_request inputs) w).
Proof.
  induction inputs as [|input rest IH]; intros w; [reflexivity|].
  cbn [FormModule.geocode_waypoints]. unfold bind at 1.
  rewrite geocode_plain_exact. unfold bind at 1. rewrite IH.
  cbn [length answers map filter add_requests fold_left requests add_request].
  rewrite length_app, Nat.add_1_r. unfold ret.
  destruct (truthy (geocoded (net (length (requests w))))); reflexivity.
Qed.

(** X12.  The waypoints are geocoded one after the other, one request to
    [/geocode] each, in the order of the inputs; an address that cannot be
    geocoded is passed over without a word and does not stop the loop, so
    the result holds the truthy answers in order. *)
Theorem X12_waypoints_are_geocoded_in_order (inputs : list string) (w : world) :
  fst (geocode_waypoints inputs w) =
    Val (filter truthy
           (map geocoded (answers net (length (requests w)) (length inputs)))) /\
  requests (snd (geocode_waypoints inputs w)) =
    requests w ++ map geocode_request inputs /\
  document (snd (geocode_waypoints inputs w)) = document w /\
  elements (snd (geocode_waypoints inputs w)) = elements w /\
  views (snd (geocode_waypoints inputs w)) = views w.
Proof.
  rewrite geocode_waypoints_exact. cbn [fst snd].
  destruct (requests_add_requests (map geocode_request inputs) w)
    as (-> & -> & -> & -> & _).
  repeat split.
Qed.


Lemma generateRouteRequest_exact requestData w :
  FormModule.generateRouteRequest net requestData w =
  (route_answer (net (length (requests w))),
   add_request {| url := "/route"; payload := requestData |} w).
Proof.
  unfold FormModule.generateRouteRequest, route_answer. run_monad.
  destruct (net (length (requests w))) as [m|ok [data|]]; run_monad.
  - reflexivity.
  - destruct (nullish data); run_monad; [reflexivity|].
    destruct (negb ok || truthy (get data "error")); reflexivity.
  - destruct ok; reflexivity.
Qed.

End Fetched.

Section Generated.

Variable net : nat -> response.
Variable toFixed6 : string -> string.
Variable times_1000 : string -> value.
Variable trim : string -> string.
Variable raises : view_call -> option value.

Local Abbreviation generateRoute :=
  (FormModule.generateRoute net toFixed6 times_1000 trim raises).
Local Abbreviation new_route := (FormModule.new_route net toFixed6).
Local Abbreviation show_route := (FormModule.show_route net times_1000 raises).
Local Abbreviation getPlaces := (FormModule.getPlaces net times_1000 raises).
Local Abbreviation getNaturalFeatures :=
  (FormModule.getNaturalFeatures net times_1000 raises).

(** The two ways through [generateRoute]. *)
Lemma generateRoute_new w :
  needs_new_route w = true ->
  generateRoute w =
  finally
    (try_catch
       (routeData <- new_route (controls (document w))
                       (waypoint_texts trim (controls (document w))) ;;
        show_route (controls (document w)) routeData)
       (fun error => modify (add_view (Alert error))))
    (add_view HideLoading)
    (add_view ClearMapLayers (add_view ShowLoading w)).
Proof.
  unfold needs_new_route, FormModule.generateRoute, waypoint_texts.
  cbv beta iota zeta delta [bind read modify finally try_catch ret].
  change (currentRoute (vars (document (add_view ClearMapLayers
                                           (add_view ShowLoading w)))))
    with (currentRoute (vars (document w))).
  destruct (FormModule.valid_route (currentRoute (vars (document w))));
    [|reflexivity].
  unfold get_textContent.
  change (elements (add_view ClearMapLayers (add_view ShowLoading w)))
    with (elements w).
  destruct (find_element "origin-coords" (elements w)); [|discriminate].
  change (elements (add_view ClearMapLayers (add_view ShowLoading w)))
    with (elements w).
  destruct (find_element "destination-coords" (elements w)); [|discriminate].
  intros H. apply negb_true_iff in H. rewrite H. reflexivity.
Qed.

Lemma generateRoute_kept w :
  keeps_route w = true ->
  generateRoute w =
  finally
    (try_catch
       (show_route (controls (document w)) (currentRoute (vars (document w))))
       (fun error => modify (add_view (Alert error))))
    (add_view HideLoading)
    (add_view ClearMapLayers (add_view ShowLoading w)).
Proof.
  unfold keeps_route, FormModule.generateRoute.
  cbv beta iota zeta delta [bind read modify finally try_catch ret].
  change (currentRoute (vars (document (add_view ClearMapLayers
                                           (add_view ShowLoading w)))))
    with (currentRoute (vars (document w))).
  destruct (FormModule.valid_route (currentRoute (vars (document w))));
    [|discriminate].
  unfold get_textContent.
  change (elements (add_view ClearMapLayers (add_view ShowLoading w)))
    with (elements w).
  destruct (find_element "origin-coords" (elements w)); [|discriminate].
  change (elements (add_view ClearMapLayers (add_view ShowLoading w)))
    with (elements w).
  destruct (find_element "destination-coords" (elements w)); [|discriminate].
  cbn [andb]. intros H. rewrite H. reflexivity.
Qed.

Lemma show_sampled_frame routeData w :
  exists o w',
    FormModule.show_sampled raises routeData w = (o, w') /\
    document w' = document w /\ requests w' = requests w /\
    elements w' = elements w /\ tasks w' = tasks w /\ chat w' = chat w /\
    shown_only w w'.
Proof.
  unfold FormModule.show_sampled, FormModule.sampled_markers, FormModule.call.
  destruct (truthy (get routeData "sampled_points")); run_monad;
    split_calls raises;
    try (eexists; eexists; split; [reflexivity|];
         repeat (split; [reflexivity|]); frame_shown).
  destruct (get routeData "sampled_points");
    try (eexists; eexists; split; [reflexivity|];
         repeat (split; [reflexivity|]); frame_shown).
  destruct (existsb nullish elems);
    (eexists; eexists; split; [reflexivity|];
     repeat (split; [reflexivity|]); frame_shown).
Qed.

(** What [show_route] sends and shows: the route first; then what fills
    the map and the lists; the results last, unless it was stopped. *)
Lemma show_route_frame f routeData w :
  exists o w' vs,
    show_route f routeData w = (o, w') /\
    sent_only (places_paths ++ features_paths) w w' /\
    views w' =
      views w ++ DisplayRoute routeData :: vs ++
      match o with Val _ => [ShowResults] | Exn _ => [] end /\
    Forall (fun v => fills v = true) vs /\
    elements w' = elements w /\ tasks w' = tasks w /\ chat w' = chat w /\
    controls (document w') = controls (document w) /\
    currentRoute (vars (document w')) = currentRoute (vars (document w)).
Proof.
  unfold FormModule.show_route, FormModule.call.
  cbv beta iota zeta delta [bind modify throw ret].
  destruct (raises (DisplayRoute routeData)).
  { eexists; eexists; exists []. split; [reflexivity|].
    split; [apply sent_only_same; reflexivity|].
    split; [reflexivity|]. split; [constructor|]. repeat split. }
  destruct (raises (UpdateRouteInfo _ _)).
  { eexists; eexists;
      exists [UpdateRouteInfo (get routeData "distance_text")
                              (get routeData "duration_text")].
    split; [reflexivity|].
    split; [apply sent_only_same; reflexivity|].
    split; [simpl_world; rewrite <- !app_assoc; reflexivity|].
    split; [repeat constructor|]. repeat split. }
  match goal with
  | |- context [FormModule.show_sampled raises routeData ?w0] =>
      destruct (show_sampled_frame routeData w0)
        as (o2 & w2 & -> & D2 & R2 & E2 & T2 & C2 & (vs2 & V2 & F2))
  end.
  simpl_world_in D2. simpl_world_in R2. simpl_world_in E2.
  simpl_world_in T2. simpl_world_in C2. simpl_world_in V2.
  destruct o2 as [[]|err].
  2:{ exists (Exn err), w2,
        (UpdateRouteInfo (get routeData "distance_text")
                         (get routeData "duration_text") :: vs2).
      split; [reflexivity|].
      split; [apply sent_only_same; exact R2|].
      split; [rewrite V2, <- !app_assoc, app_nil_r; reflexivity|].
      split; [constructor; [reflexivity | exact F2]|].
      rewrite E2, T2, C2, D2. repeat split. }
  assert (Hp : exists w3 vs3,
             when (show_places f)
               (getPlaces (get routeData "polyline_coords") false) w2 =
               (Val tt, w3) /\
             sent_only places_paths w2 w3 /\
             views w3 = views w2 ++ vs3 /\
             Forall (fun v => fills v = true) vs3 /\
             elements w3 = elements w2 /\ tasks w3 = tasks w2 /\
             chat w3 = chat w2 /\
             controls (document w3) = controls (document w2) /\
             currentRoute (vars (document w3)) =
               currentRoute (vars (document w2))).
  { destruct (show_places f); unfold when.
    - destruct (getPlaces_frame net times_1000 raises
                  (get routeData "polyline_coords") false w2)
        as (w3 & E & S & (vs & V & F) & H1 & H2 & H3 & H4 & H5 & _).
      exists w3, vs. split; [exact E|]. split; [exact S|].
      split; [exact V|]. split; [exact F|]. repeat split; assumption.
    - exists w2, []. rewrite app_nil_r.
      split; [reflexivity|]. split; [apply sent_only_refl|].
      repeat split. constructor. }
  destruct Hp as (w3 & vs3 & -> & S3 & V3 & F3 & E3 & T3 & C3 & K3 & U3).
  assert (Hf : exists w4 vs4,
             when (show_features f)
               (getNaturalFeatures (get routeData "polyline_coords") false) w3 =
               (Val tt, w4) /\
             sent_only features_paths w3 w4 /\
             views w4 = views w3 ++ vs4 /\
             Forall (fun v => fills v = true) vs4 /\
             elements w4 = elements w3 /\ tasks w4 = tasks w3 /\
             chat w4 = chat w3 /\
             controls (document w4) = controls (document w3) /\
             currentRoute (vars (document w4)) =
               currentRoute (vars (document w3))).
  { destruct (show_features f); unfold when.
    - destruct (getNaturalFeatures_frame net times_1000 raises
                  (get routeData "polyline_coords") false w3)
        as (w4 & E & S & (vs & V & F) & H1 & H2 & H3 & H4 & H5 & _).
      exists w4, vs. split; [exact E|]. split; [exact S|].
      split; [exact V|]. split; [exact F|]. repeat split; assumption.
    - exists w3, []. rewrite app_nil_r.
      split; [reflexivity|]. split; [apply sent_only_refl|].
      repeat split. constructor. }
  destruct Hf as (w4 & vs4 & -> & S4 & V4 & F4 & E4 & T4 & C4 & K4 & U4).
  exists (Val tt), (add_view ShowResults w4),
    (UpdateRouteInfo (get routeData "distance_text")
                     (get routeData "duration_text") :: vs2 ++ vs3 ++ vs4).
  split; [reflexivity|].
  split.
  { apply (sent_only_trans _ w w2); [apply sent_only_same; exact R2|].
    apply (sent_only_trans _ w2 w3).
    - eapply sent_only_incl; [|exact S3]. apply incl_appl, incl_refl.
    - apply (sent_only_trans _ w3 w4).
      + eapply sent_only_incl; [|exact S4]. apply incl_appr, incl_refl.
      + apply sent_only_same. reflexivity. }
  split.
  { simpl_world. rewrite V4, V3, V2. cbn [app].
    rewrite <- !app_assoc. cbn [app]. reflexivity. }
  split.
  { constructor; [reflexivity|]. repeat (apply Forall_app; split); assumption. }
  simpl_world. rewrite E4, E3, E2, T4, T3, T2, C4, C3, C2, K4, K3, U4, U3, D2.
  repeat split.
Qed.

(** The branch that fetches a route shows nothing and talks to the
    geocoder, the router and the conversation state only. *)
Lemma new_route_frame f inputs w :
  exists o w',
    new_route f inputs w = (o, w') /\
    sent_only route_paths w w' /\
    views w' = views w /\ elements w' = elements w /\
    tasks w' = tasks w /\ chat w' = chat w /\
    controls (document w') = controls (document w).
Proof.
  unfold FormModule.new_route.
  unfold bind at 1, modify at 1. unfold bind at 1.
  rewrite geocode_plain_exact. unfold bind at 1.
  rewrite geocode_plain_exact.
  set (w2 := add_request _ (add_request _ _)).
  assert (S2 : sent_only route_paths w w2) by (subst w2; frame_sent).
  assert (H2 : views w2 = views w /\ elements w2 = elements w /\
               tasks w2 = tasks w /\ chat w2 = chat w /\
               controls (document w2) = controls (document w))
    by (repeat split).
  clearbody w2.
  destruct (negb _ || negb _).
  { eexists; eexists; split; [reflexivity|]. split; [exact S2 | exact H2]. }
  unfold bind at 1. rewrite geocode_waypoints_exact.
  destruct (requests_add_requests (map geocode_request inputs) w2)
    as (R3 & D3 & E3 & V3 & T3 & C3).
  set (w3 := add_requests _ w2) in *.
  assert (S3 : sent_only route_paths w w3).
  { apply (sent_only_trans _ w w2 w3 S2).
    exists (map geocode_request inputs). split; [exact R3|].
    apply Forall_forall. intros r Hr. apply in_map_iff in Hr as (a & <- & _).
    left. reflexivity. }
  clearbody w3.
  unfold bind at 1. rewrite generateRouteRequest_exact.
  set (w4 := add_request _ w3).
  assert (S4 : sent_only route_paths w w4).
  { apply (sent_only_trans _ w w3 w4 S3). subst w4. frame_sent. }
  assert (H4 : views w4 = views w /\ elements w4 = elements w /\
               tasks w4 = tasks w /\ chat w4 = chat w /\
               controls (document w4) = controls (document w)).
  { subst w4. simpl_world. destruct H2 as (? & ? & ? & ? & ?).
    rewrite V3, E3, T3, C3, D3. repeat split; assumption. }
  clearbody w4.
  destruct (route_answer _) as [routeData|err].
  2:{ eexists; eexists; split; [reflexivity|]. split; [exact S4 | exact H4]. }
  unfold bind at 1, modify at 1.
  set (w5 := FormModule.set_currentRoute routeData w4).
  assert (S5 : sent_only route_paths w w5)
    by (apply (sent_only_trans _ w w4 w5 S4), sent_only_same; reflexivity).
  assert (H5 : views w5 = views w /\ elements w5 = elements w /\
               tasks w5 = tasks w /\ chat w5 = chat w /\
               controls (document w5) = controls (document w)) by exact H4.
  clearbody w5.
  destruct (negb _ || negb _).
  { eexists; eexists; split; [reflexivity|]. split; [exact S5 | exact H5]. }
  unfold bind at 1.
  match goal with
  | |- context [FormModule.tell_backend net ?p ?b w5] =>
      destruct (tell_backend_frame net p b w5)
        as (w6 & -> & D6 & E6 & V6 & T6 & C6 & S6)
  end.
  eexists; eexists; split; [reflexivity|].
  split.
  { apply (sent_only_trans _ w w5 w6 S5).
    eapply sent_only_incl; [|exact S6].
    intros x [<-|[]]. cbn. auto. }
  destruct H5 as (? & ? & ? & ? & ?).
  rewrite V6, E6, T6, C6, D6. repeat split; assumption.
Qed.

End Generated.

Section GenerateRoute.

Variable net : nat -> response.
Variable toFixed6 : string -> string.
Variable times_1000 : string -> value.
Variable trim : string -> string.
Variable raises : view_call -> option value.

Local Abbreviation generateRoute :=
  (FormModule.generateRoute net toFixed6 times_1000 trim raises).
Local Abbreviation new_route := (FormModule.new_route net toFixed6).
Local Abbreviation show_route := (FormModule.show_route net times_1000 raises).

(** X14.  With a valid route in memory, both coordinate displays filled in
    and the sampling box as the route has it, [generateRoute] shows the
    route it has: it asks neither the geocoder nor the router and leaves
    [currentRoute] as it is, whatever the origin, destination and waypoint
    fields hold by now. *)
Theorem X14_valid_route_is_reused (w : world) :
  keeps_route w = true ->
  exists w',
    generateRoute w = (Val tt, w') /\
    currentRoute (vars (document w')) = currentRoute (vars (document w)) /\
    count_url "/geocode" (requests w') = count_url "/geocode" (requests w) /\
    count_url "/route" (requests w') = count_url "/route" (requests w) /\
    count_url "/update_conversation_state" (requests w') =
      count_url "/update_conversation_state" (requests w) /\
    In (DisplayRoute (currentRoute (vars (document w)))) (views w').
Proof.
  intros Hk. rewrite (generateRoute_kept net toFixed6 times_1000 trim raises w Hk).
  unfold finally, try_catch.
  destruct (show_route_frame net times_1000 raises (controls (document w))
              (currentRoute (vars (document w)))
              (add_view ClearMapLayers (add_view ShowLoading w)))
    as (o & w1 & vs & -> & S & V & _ & _ & _ & _ & _ & U).
  assert (S' : sent_only (places_paths ++ features_paths) w w1).
  { destruct S as (e & R & F). exists e. split; [exact R | exact F]. }
  assert (G : forall path, ~ In path (places_paths ++ features_paths) ->
                count_url path (requests w1) = count_url path (requests w))
    by (intros path; apply sent_only_count, S').
  assert (Hin : In (DisplayRoute (currentRoute (vars (document w)))) (views w1)).
  { rewrite V. apply in_or_app. right. left. reflexivity. }
  assert (Hno : forall path,
            In path route_paths -> ~ In path (places_paths ++ features_paths)).
  { intros path Hp Hq. cbn in Hp, Hq.
    repeat match goal with
           | H : _ \/ _ |- _ => destruct H
           | H : False |- _ => destruct H
           end; subst; discriminate. }
  destruct o as [[]|err]; unfold modify;
    (eexists; split; [reflexivity|]; simpl_world;
     split; [exact U|];
     split; [apply G, Hno; cbn; auto|];
     split; [apply G, Hno; cbn; auto|];
     split; [apply G, Hno; cbn; auto|];
     repeat (apply in_or_app; left); exact Hin).
Qed.

(** X15.  However a route generation goes, it returns, and the loading
    indicator it showed at the start is hidden at the end: the views of a
    call are [showLoading], [clearMapLayers], then what fills the map and
    the lists, then either the results or exactly one alert, and last
    [hideLoading].  The controls and the display nodes are left alone. *)
Theorem X15_loading_always_ends (w : world) :
  exists w' mid last,
    generateRoute w = (Val tt, w') /\
    views w' =
      views w ++ [ShowLoading; ClearMapLayers] ++ mid ++ [last; HideLoading] /\
    Forall (fun v => fills v = true) mid /\
    (last = ShowResults \/ exists error, last = Alert error) /\
    controls (document w') = controls (document w) /\
    elements w' = elements w /\ tasks w' = tasks w /\ chat w' = chat w.
Proof.
  set (w0 := add_view ClearMapLayers (add_view ShowLoading w)).
  assert (V0 : views w0 = views w ++ [ShowLoading; ClearMapLayers])
    by (subst w0; simpl_world; rewrite <- app_assoc; reflexivity).
  assert (Hshow : forall routeData w1,
            views w1 = views w0 -> elements w1 = elements w ->
            tasks w1 = tasks w -> chat w1 = chat w ->
            controls (document w1) = controls (document w) ->
            exists w' mid last,
              finally
                (try_catch (show_route (controls (document w)) routeData)
                   (fun error => modify (add_view (Alert error))))
                (add_view HideLoading) w1 = (Val tt, w') /\
              views w' =
                views w ++ [ShowLoading; ClearMapLayers] ++ mid
                ++ [last; HideLoading] /\
              Forall (fun v => fills v = true) mid /\
              (last = ShowResults \/ exists error, last = Alert error) /\
              controls (document w') = controls (document w) /\
              elements w' = elements w /\ tasks w' = tasks w /\
              chat w' = chat w).
  { intros routeData w1 V1 E1 T1 C1 K1. unfold finally, try_catch.
    destruct (show_route_frame net times_1000 raises (controls (document w))
                routeData w1)
      as (o & w2 & vs & -> & _ & V & F & E & T & C & K & _).
    destruct o as [[]|err]; unfold modify.
    - exists (add_view HideLoading w2), (DisplayRoute routeData :: vs),
        ShowResults.
      split; [reflexivity|]. simpl_world.
      split.
      { rewrite V, V1, V0.
        repeat (first [rewrite <- app_assoc | progress cbn [app]]).
        reflexivity. }
      split; [constructor; [reflexivity | exact F]|].
      split; [left; reflexivity|].
      rewrite K, E, T, C. repeat split; assumption.
    - exists (add_view HideLoading (add_view (Alert err) w2)),
        (DisplayRoute routeData :: vs), (Alert err).
      split; [reflexivity|]. simpl_world.
      split.
      { rewrite V, V1, V0, app_nil_r.
        repeat (first [rewrite <- app_assoc | progress cbn [app]]).
        reflexivity. }
      split; [constructor; [reflexivity | exact F]|].
      split; [right; exists err; reflexivity|].
      rewrite K, E, T, C. repeat split; assumption. }
  destruct (keeps_route w) eqn:Hk.
  { rewrite (generateRoute_kept net toFixed6 times_1000 trim raises w Hk).
    apply Hshow; reflexivity. }
  destruct (needs_new_route w) eqn:Hn.
  { rewrite (generateRoute_new net toFixed6 times_1000 trim raises w Hn).
    fold w0. unfold finally, try_catch, bind.
    destruct (new_route_frame net toFixed6 (controls (document w))
                (waypoint_texts trim (controls (document w))) w0)
      as (o & w1 & E1 & _ & V1 & El1 & T1 & C1 & K1).
    rewrite E1.
    destruct o as [routeData|err].
    - specialize (Hshow routeData w1 V1 El1 T1 C1 K1).
      unfold finally, try_catch in Hshow. exact Hshow.
    - unfold modify.
      exists (add_view HideLoading (add_view (Alert err) w1)), [], (Alert err).
      split; [reflexivity|]. simpl_world.
      split; [rewrite V1, V0, <- !app_assoc; reflexivity|].
      split; [constructor|].
      split; [right; exists err; reflexivity|].
      rewrite K1, El1, T1, C1. repeat split. }
  (* a valid route and a coordinate display that is not in the page *)
  unfold keeps_route, needs_new_route in Hk, Hn.
  unfold FormModule.generateRoute.
  cbv beta iota zeta delta [bind read modify finally try_catch ret].
  fold w0.
  change (currentRoute (vars (document w0)))
    with (currentRoute (vars (document w))).
  destruct (FormModule.valid_route (currentRoute (vars (document w))));
    [|discriminate].
  unfold get_textContent.
  change (elements w0) with (elements w).
  destruct (find_element "origin-coords" (elements w)).
  - change (elements w0) with (elements w).
    destruct (find_element "destination-coords" (elements w)).
    + cbn [andb] in Hk. rewrite Hk in Hn. discriminate.
    + exists (add_view HideLoading (add_view (Alert TypeError) w0)), [],
        (Alert TypeError).
      split; [reflexivity|]. simpl_world.
      split; [rewrite V0, <- !app_assoc; reflexivity|].
      split; [constructor|].
      split; [right; exists TypeError; reflexivity|]. repeat split.
  - exists (add_view HideLoading (add_view (Alert TypeError) w0)), [],
      (Alert TypeError).
    split; [reflexivity|]. simpl_world.
    split; [rewrite V0, <- !app_assoc; reflexivity|].
    split; [constructor|].
    split; [right; exists TypeError; reflexivity|]. repeat split.
Qed.

(** X16.  When the origin or the destination cannot be geocoded, a route
    generation stops after both were asked for: the second address is
    geocoded even when the first failed, no route is requested, the user
    gets one alert, the route in memory stays, and the cached places and
    features are gone all the same. *)
Theorem X16_geocoding_failure_stops_the_generation (w : world) :
  needs_new_route w = true ->
  truthy (geocoded (net (length (requests w)))) = false \/
  truthy (geocoded (net (S (length (requests w))))) = false ->
  generateRoute w =
  (Val tt,
   add_view HideLoading
     (add_view (Alert (Str "Failed to geocode origin or destination"))
        (add_request
           (geocode_request (destination_input (controls (document w))))
           (add_request
              (geocode_request (origin_input (controls (document w))))
              (FormModule.resetCachedData
                 (add_view ClearMapLayers (add_view ShowLoading w))))))).
Proof.
  intros Hn Hg. rewrite (generateRoute_new net toFixed6 times_1000 trim raises w Hn).
  unfold finally, try_catch, FormModule.new_route.
  unfold bind at 1. unfold bind at 1, modify at 1. unfold bind at 1.
  rewrite geocode_plain_exact. unfold bind at 1.
  rewrite geocode_plain_exact.
  simpl_world. rewrite length_app, Nat.add_1_r.
  assert (E : negb (truthy (geocoded (net (length (requests w)))))
              || negb (truthy (geocoded (net (S (length (requests w)))))) = true).
  { destruct Hg as [-> | ->]; [reflexivity | apply orb_true_r]. }
  rewrite E. reflexivity.
Qed.

(** X17.  The answer of the router is stored before it is checked.  A 2xx
    answer without an error that has no array of coordinates becomes
    [currentRoute]; the call then stops with an alert, draws nothing and
    does not report the route to the conversation state; and the next
    call starts from scratch, for the route in memory is not valid. *)
Theorem X17_route_is_stored_before_it_is_checked
    (routeData : value) (w : world) :
  needs_new_route w = true ->
  truthy (geocoded (net (length (requests w)))) = true ->
  truthy (geocoded (net (S (length (requests w))))) = true ->
  route_answer
    (net (2 + length (requests w)
          + length (waypoint_texts trim (controls (document w))))) =
    Val routeData ->
  FormModule.valid_route routeData = false ->
  exists w',
    generateRoute w = (Val tt, w') /\
    currentRoute (vars (document w')) = routeData /\
    currentPlaces (vars (document w')) = None /\
    currentFeatures (vars (document w')) = None /\
    views w' =
      views w ++
      [ShowLoading; ClearMapLayers;
       Alert (Str "Invalid route data: missing polyline coordinates");
       HideLoading] /\
    count_url "/route" (requests w') = S (count_url "/route" (requests w)) /\
    count_url "/update_conversation_state" (requests w') =
      count_url "/update_conversation_state" (requests w) /\
    needs_new_route w' = true.
Proof.
  intros Hn H1 H2 Hr Hv. rewrite (generateRoute_new net toFixed6 times_1000 trim raises w Hn).
  unfold finally, try_catch, FormModule.new_route.
  unfold bind at 1. unfold bind at 1, modify at 1. unfold bind at 1.
  rewrite geocode_plain_exact. unfold bind at 1.
  rewrite geocode_plain_exact.
  simpl_world. rewrite length_app, Nat.add_1_r, H1, H2. cbn [negb orb].
  unfold bind at 1. rewrite geocode_waypoints_exact.
  set (wps := waypoint_texts trim (controls (document w))) in *.
  set (w2 := add_request _ (add_request _ _)).
  destruct (requests_add_requests (map geocode_request wps) w2)
    as (R3 & D3 & E3 & V3 & T3 & C3).
  unfold bind at 1. rewrite generateRouteRequest_exact.
  assert (L3 : length (requests (add_requests (map geocode_request wps) w2)) =
               2 + length (requests w) + length wps).
  { rewrite R3. subst w2. simpl_world.
    rewrite !length_app, length_map. cbn [length]. lia. }
  rewrite L3, Hr.
  unfold bind at 1, modify at 1.
  assert (Hp : negb (truthy (get routeData "polyline_coords"))
               || negb (is_array (get routeData "polyline_coords")) = true).
  { unfold FormModule.valid_route in Hv.
    destruct (truthy routeData) eqn:Ht.
    - cbn [andb] in Hv.
      destruct (truthy (get routeData "polyline_coords")); [|reflexivity].
      cbn [andb] in Hv. rewrite Hv. reflexivity.
    - destruct routeData; try discriminate; reflexivity. }
  rewrite Hp. unfold throw, modify.
  eexists. split; [reflexivity|].
  simpl_world. rewrite D3, V3, R3. subst w2. simpl_world.
  split; [reflexivity|]. split; [reflexivity|]. split; [reflexivity|].
  split; [rewrite <- !app_assoc; reflexivity|].
  split.
  { rewrite !count_url_app. cbn [count_url filter length url].
    assert (G : count_url "/route" (map geocode_request wps) = 0).
    { clear. induction wps as [|a l IH]; [reflexivity | exact IH]. }
    cbn [String.eqb Ascii.eqb Bool.eqb] in *.
    unfold count_url in G |- *. cbn. cbn in G. rewrite G. lia. }
  split.
  { rewrite !count_url_app.
    assert (G : count_url "/update_conversation_state"
                  (map geocode_request wps) = 0).
    { clear. induction wps as [|a l IH]; [reflexivity | exact IH]. }
    unfold count_url in G |- *. cbn. cbn in G. rewrite G. lia. }
  unfold needs_new_route. simpl_world. rewrite Hv. reflexivity.
Qed.

End GenerateRoute.

(* ================================================================== *)
(** * The readers of the route on the backend *)
(* ================================================================== *)

Section Readers.

Variable net : nat -> response.
Variable status : nat -> string.

(** X18.  [getRouteData] and [getCurrentRouteData] never reject and make
    one request each: they return the body of a 2xx answer and [null] in
    every other case (the fetch rejects, the answer is not 2xx, the body
    does not parse).  That [getCurrentRouteData] tells status 404 from the
    other failures makes no difference to its caller. *)
Theorem X18_route_readers_never_reject (w : world) :
  getRouteData net w =
    (Val match net (length (requests w)) with
         | Responded true (Some data) => data
         | _ => Null
         end,
     add_request {| url := "/get_route"; payload := Undefined |} w) /\
  getCurrentRouteData net status w =
    (Val match net (length (requests w)) with
         | Responded true (Some data) => if nullish data then Null else data
         | _ => Null
         end,
     add_request {| url := "/get_current_route"; payload := Undefined |} w).
Proof.
  unfold getRouteData, getCurrentRouteData. run_monad.
  destruct (net (length (requests w))) as [m|ok [data|]]; run_monad.
  - split; reflexivity.
  - destruct ok; cbn [negb]; run_monad.
    + destruct (nullish data); split; reflexivity.
    + destruct (status (length (requests w)) =? "404"); split; reflexivity.
  - destruct ok; cbn [negb]; run_monad; [split; reflexivity|].
    destruct (status (length (requests w)) =? "404"); split; reflexivity.
Qed.

End Readers.

(* ================================================================== *)
(** * Scenarios of the further properties *)
(* ================================================================== *)

Import Cases.

Lemma X5_witness :
  Forall (fun data => plain data = true)
         (heard (decoded Json.parse
                   (segments_of (joined (chop 6 (framed hi_there)))))) /\
  (exists w1,
     dispatch_all numbers_valid
       (removelast
          (filter is_event
             (processStream Json.parse fresh_page waypoint_html sum "" initial
                (chop 6 (framed hi_there)) EndOfStream)))
       fresh_world = Some w1 /\
     text (chat w1) =
       (text (chat fresh_world)
        ++ concat_text
             (chunks (heard (decoded Json.parse
                               (segments_of
                                  (joined (chop 6 (framed hi_there))))))))%string) /\
  exists w',
    dispatch_all numbers_valid
      (processStream Json.parse fresh_page waypoint_html sum "" initial
         (chop 6 (framed hi_there)) EndOfStream) fresh_world = Some w' /\
    text (chat w') =
      concat_text
        (chunks (heard (decoded Json.parse
                          (segments_of (joined (chop 6 (framed hi_there))))))).
Proof.
  assert (Hp : Forall (fun data => plain data = true)
                 (heard (decoded Json.parse
                           (segments_of (joined (chop 6 (framed hi_there)))))))
    by (vm_compute; repeat constructor).
  split; [exact Hp|].
  destruct (X5_streamed_answer_in_the_bubble numbers_valid Json.parse waypoint_html sum
              fresh_page (chop 6 (framed hi_there)) fresh_world Hp)
    as (H1 & w' & H2 & H3 & _).
  split; [exact H1|]. exists w'. split; [exact H2 | exact H3].
Defined.

(** The bubble of the plain answer, as it ends. *)
Example plain_answer_in_the_bubble :
  option_map chat
    (dispatch_all numbers_valid
       (processStream Json.parse fresh_page waypoint_html sum "" initial
          (chop 6 (framed hi_there)) EndOfStream) fresh_world) =
  Some {| text := "Hi there"; cursor := false; error_class := false |}.
Proof. vm_compute. reflexivity. Qed.


Lemma X7_witness :
  "route-summary" <> "" /\
  find_element "route-summary" (elements fresh_world) = None /\
  geocodeAddress geocoder toFixed6 "New York" (Some "route-summary") fresh_world =
  (Exn TypeError,
   add_request {| url := "/geocode";
                  payload := Obj [("address", Str "New York")] |} fresh_world).
Proof.
  assert (H1 : "route-summary" <> "") by discriminate.
  assert (H2 : find_element "route-summary" (elements fresh_world) = None)
    by reflexivity.
  split; [exact H1|]. split; [exact H2|].
  exact (X7_geocode_missing_node_rejects geocoder toFixed6 "New York"
           "route-summary" fresh_world H1 H2).
Defined.

Lemma X8_witness :
  "origin-coords" <> "" /\
  find_element "origin-coords" (elements fresh_world) =
    Some {| textContent := ""; classList := ["coordinates"] |} /\
  geocode_failure (recovering (length (requests fresh_world))) =
    Some (Str "Failed to fetch") /\
  recovering (S (length (requests fresh_world))) =
    Responded true (Some (Obj [("lat", Num "40.7128"); ("lng", Num "-74.006")])) /\
  get (Obj [("lat", Num "40.7128"); ("lng", Num "-74.006")]) "lat" =
    Num "40.7128" /\
  get (Obj [("lat", Num "40.7128"); ("lng", Num "-74.006")]) "lng" =
    Num "-74.006" /\
  exists w' el',
    (geocodeAddress recovering toFixed6 "New Yrok" (Some "origin-coords") ;;;
     geocodeAddress recovering toFixed6 "New York" (Some "origin-coords"))
      fresh_world =
      (Val (Obj [("lat", Num "40.7128"); ("lng", Num "-74.006")]), w') /\
    find_element "origin-coords" (elements w') = Some el' /\
    textContent el' =
      ("Lat: " ++ toFixed6 "40.7128" ++ ", Lng: " ++ toFixed6 "-74.006")%string /\
    In "error" (classList el').
Proof.
  assert (H1 : "origin-coords" <> "") by discriminate.
  assert (H2 : find_element "origin-coords" (elements fresh_world) =
               Some {| textContent := ""; classList := ["coordinates"] |})
    by reflexivity.
  assert (H3 : geocode_failure (recovering (length (requests fresh_world))) =
               Some (Str "Failed to fetch")) by reflexivity.
  assert (H4 : recovering (S (length (requests fresh_world))) =
               Responded true
                 (Some (Obj [("lat", Num "40.7128"); ("lng", Num "-74.006")])))
    by reflexivity.
  assert (H5 : get (Obj [("lat", Num "40.7128"); ("lng", Num "-74.006")]) "lat" =
               Num "40.7128") by reflexivity.
  assert (H6 : get (Obj [("lat", Num "40.7128"); ("lng", Num "-74.006")]) "lng" =
               Num "-74.006") by reflexivity.
  split; [exact H1|]. split; [exact H2|]. split; [exact H3|].
  split; [exact H4|]. split; [exact H5|]. split; [exact H6|].
  exact (X8_error_mark_outlives_success recovering toFixed6
           "New Yrok" "New York" "origin-coords" "40.7128" "-74.006"
           _ _ _ fresh_world H1 H2 H3 H4 H5 H6).
Defined.

Lemma X9_witness :
  nullish (get (currentRoute (vars (document shown_world))) "polyline_coords") =
    false /\
  answering (length (requests shown_world)) = Responded true (Some both_found) /\
  nullish both_found = false /\
  FormModule.same_radius (currentPlaces (vars (document shown_world)))
    (places_radius (controls (document shown_world))) = true /\
  count_url "/places"
    (requests
       (snd (FormModule.getPlaces answering times_1000 Cases.raises
               (get (currentRoute (vars (document shown_world)))
                    "polyline_coords") true shown_world))) =
    S (count_url "/places" (requests shown_world)) /\
  currentPlaces
    (vars (document
             (snd (FormModule.getPlaces answering times_1000 Cases.raises
                     (get (currentRoute (vars (document shown_world)))
                          "polyline_coords") true shown_world)))) =
    Some {| data := get both_found "places";
            radius := places_radius (controls (document shown_world)) |}.
Proof.
  assert (H1 : nullish (get (currentRoute (vars (document shown_world)))
                            "polyline_coords") = false) by reflexivity.
  assert (H2 : answering (length (requests shown_world)) =
               Responded true (Some both_found)) by reflexivity.
  assert (H3 : nullish both_found = false) by reflexivity.
  split; [exact H1|]. split; [exact H2|]. split; [exact H3|].
  split; [reflexivity|].
  exact (proj1 (X9_force_refresh_bypasses_the_cache answering times_1000
                  Cases.raises _ both_found shown_world H1 H2 H3)).
Defined.

Lemma X10_witness :
  nullish (get (route_to "346 km") "polyline_coords") = false /\
  negb false
  && FormModule.same_radius (currentPlaces (vars (document routed_world)))
       (places_radius (controls (document routed_world))) = false /\
  request_failure "Failed to get places"
    (places_down (length (requests routed_world))) =
    Some (Str "Overpass timeout") /\
  FormModule.getPlaces places_down times_1000 Cases.raises
    (get (route_to "346 km") "polyline_coords") false routed_world =
  (Val tt,
   add_view (ListError "places-list" (Str "Overpass timeout"))
     (add_request
        (along_route_request times_1000 "/places" "node"
           (get (route_to "346 km") "polyline_coords")
           (places_radius (controls (document routed_world))))
        routed_world)).
Proof.
  assert (H1 : nullish (get (route_to "346 km") "polyline_coords") = false)
    by reflexivity.
  assert (H2 : negb false
               && FormModule.same_radius
                    (currentPlaces (vars (document routed_world)))
                    (places_radius (controls (document routed_world))) = false)
    by reflexivity.
  assert (H3 : request_failure "Failed to get places"
                 (places_down (length (requests routed_world))) =
               Some (Str "Overpass timeout")) by reflexivity.
  split; [exact H1|]. split; [exact H2|]. split; [exact H3|].
  exact (proj1 (X10_failed_request_is_reported_in_the_list places_down
                  times_1000 Cases.raises _ (Str "Overpass timeout") false routed_world H1)
           H2 H3).
Defined.


Lemma X14_witness :
  keeps_route shown_world = true /\
  exists w',
    FormModule.generateRoute answering toFixed6 times_1000 trim Cases.raises shown_world =
      (Val tt, w') /\
    currentRoute (vars (document w')) =
      currentRoute (vars (document shown_world)) /\
    count_url "/geocode" (requests w') =
      count_url "/geocode" (requests shown_world) /\
    count_url "/route" (requests w') = count_url "/route" (requests shown_world) /\
    count_url "/update_conversation_state" (requests w') =
      count_url "/update_conversation_state" (requests shown_world) /\
    In (DisplayRoute (currentRoute (vars (document shown_world)))) (views w').
Proof.
  assert (H : keeps_route shown_world = true) by reflexivity.
  split; [exact H|].
  exact (X14_valid_route_is_reused answering toFixed6 times_1000 trim
           Cases.raises shown_world H).
Defined.

Lemma X16_witness :
  needs_new_route typed_world = true /\
  (truthy (geocoded (unknown (length (requests typed_world)))) = false \/
   truthy (geocoded (unknown (S (length (requests typed_world))))) = false) /\
  FormModule.generateRoute unknown toFixed6 times_1000 trim Cases.raises typed_world =
  (Val tt,
   add_view HideLoading
     (add_view (Alert (Str "Failed to geocode origin or destination"))
        (add_request
           (geocode_request (destination_input (controls (document typed_world))))
           (add_request
              (geocode_request (origin_input (controls (document typed_world))))
              (FormModule.resetCachedData
                 (add_view ClearMapLayers (add_view ShowLoading typed_world))))))).
Proof.
  assert (H1 : needs_new_route typed_world = true) by reflexivity.
  assert (H2 : truthy (geocoded (unknown (length (requests typed_world)))) = false \/
               truthy (geocoded (unknown (S (length (requests typed_world))))) =
                 false) by (left; reflexivity).
  split; [exact H1|]. split; [exact H2|].
  exact (X16_geocoding_failure_stops_the_generation unknown toFixed6
           times_1000 trim Cases.raises typed_world H1 H2).
Defined.

Lemma X17_witness :
  needs_new_route typed_world = true /\
  truthy (geocoded (bad_router (length (requests typed_world)))) = true /\
  truthy (geocoded (bad_router (S (length (requests typed_world))))) = true /\
  route_answer
    (bad_router (2 + length (requests typed_world)
                 + length (waypoint_texts trim (controls (document typed_world))))) =
    Val no_coordinates /\
  FormModule.valid_route no_coordinates = false /\
  exists w',
    FormModule.generateRoute bad_router toFixed6 times_1000 trim Cases.raises typed_world =
      (Val tt, w') /\
    currentRoute (vars (document w')) = no_coordinates /\
    currentPlaces (vars (document w')) = None /\
    currentFeatures (vars (document w')) = None /\
    views w' =
      views typed_world ++
      [ShowLoading; ClearMapLayers;
       Alert (Str "Invalid route data: missing polyline coordinates");
       HideLoading] /\
    count_url "/route" (requests w') =
      S (count_url "/route" (requests typed_world)) /\
    count_url "/update_conversation_state" (requests w') =
      count_url "/update_conversation_state" (requests typed_world) /\
    needs_new_route w' = true.
Proof.
  assert (H1 : needs_new_route typed_world = true) by reflexivity.
  assert (H2 : truthy (geocoded (bad_router (length (requests typed_world)))) =
               true) by reflexivity.
  assert (H3 : truthy (geocoded (bad_router (S (length (requests typed_world))))) =
               true) by reflexivity.
  assert (H4 : route_answer
                 (bad_router
                    (2 + length (requests typed_world)
                     + length (waypoint_texts trim (controls (document typed_world))))) =
               Val no_coordinates) by reflexivity.
  assert (H5 : FormModule.valid_route no_coordinates = false) by reflexivity.
  split; [exact H1|]. split; [exact H2|]. split; [exact H3|].
  split; [exact H4|]. split; [exact H5|].
  exact (X17_route_is_stored_before_it_is_checked bad_router toFixed6
           times_1000 trim Cases.raises no_coordinates typed_world H1 H2 H3 H4 H5).
Defined.

(* ================================================================== *)
(** * The lists of the sidebar *)
(* ================================================================== *)

Section Grouping.

Import SidebarModule.

Lemma has_key_In k (byType : groups) :
  has_key k byType = true <-> In k (map fst byType).
Proof.
  unfold has_key. rewrite existsb_exists. split.
  - intros (g & Hg & E). apply String.eqb_eq in E. subst k.
    apply in_map, Hg.
  - intros H. apply in_map_iff in H as (g & <- & Hg).
    exists g. split; [exact Hg | apply String.eqb_refl].
Qed.

Lemma has_key_false k (byType : groups) :
  has_key k byType = false -> ~ In k (map fst byType).
Proof.
  intros H Hin. apply has_key_In in Hin. congruence.
Qed.

Lemma seen_In k seen : existsb (String.eqb k) seen = true <-> In k seen.
Proof.
  rewrite existsb_exists. split.
  - intros (x & Hx & E). apply String.eqb_eq in E. subst x. exact Hx.
  - intros H. exists k. split; [exact H | apply String.eqb_refl].
Qed.

Lemma has_key_seen k (byType : groups) :
  has_key k byType = existsb (String.eqb k) (map fst byType).
Proof.
  destruct (has_key k byType) eqn:E; symmetry.
  - apply seen_In, has_key_In, E.
  - destruct (existsb (String.eqb k) (map fst byType)) eqn:E'; [|reflexivity].
    apply seen_In in E'. apply has_key_false in E. contradiction.
Qed.

Lemma push_keys k x (byType : groups) : map fst (push k x byType) = map fst byType.
Proof.
  induction byType as [|[k' members] rest IH]; [reflexivity|].
  cbn [push]. destruct (k' =? k); cbn [map fst]; [reflexivity|].
  rewrite IH. reflexivity.
Qed.

Lemma of_type_key entry k : type_key entry = Some k -> of_type k entry = true.
Proof. unfold of_type. intros ->. apply String.eqb_refl. Qed.

Lemma of_type_other entry k k' :
  type_key entry = Some k -> k' <> k -> of_type k' entry = false.
Proof.
  unfold of_type. intros -> H. apply String.eqb_neq. congruence.
Qed.

(** Pushing an entry onto the array of its type, against the filters. *)
Lemma push_filter k x rest (byType : groups) :
  NoDup (map fst byType) ->
  type_key x = Some k ->
  map (fun g => (fst g, snd g ++ filter (of_type (fst g)) rest))
      (push k x byType) =
  map (fun g => (fst g, snd g ++ filter (of_type (fst g)) (x :: rest))) byType.
Proof.
  intros Hnd Hk.
  induction byType as [|[k' members] more IH]; [reflexivity|].
  cbn [map fst] in Hnd. inversion Hnd as [|? ? Hnotin Hnd']; subst.
  cbn [push]. destruct (k' =? k) eqn:E.
  - apply String.eqb_eq in E. subst k'.
    cbn [map fst snd filter]. rewrite (of_type_key x k Hk), <- app_assoc.
    cbn [app]. f_equal.
    apply map_ext_in. intros [k' ms] Hin. cbn [fst snd].
    assert (k' <> k).
    { intros ->. apply Hnotin. apply (in_map fst) in Hin. exact Hin. }
    cbn [filter]. rewrite (of_type_other x k k' Hk) by assumption.
    reflexivity.
  - apply String.eqb_neq in E.
    cbn [map fst snd filter]. rewrite (of_type_other x k k' Hk) by assumption.
    rewrite (IH Hnd'). reflexivity.
Qed.

Lemma skip_filter k x rest (byType : groups) :
  ~ In k (map fst byType) ->
  type_key x = Some k ->
  map (fun g => (fst g, snd g ++ filter (of_type (fst g)) rest)) byType =
  map (fun g => (fst g, snd g ++ filter (of_type (fst g)) (x :: rest))) byType.
Proof.
  intros Hnotin Hk. apply map_ext_in. intros [k' ms] Hin. cbn [fst snd].
  assert (k' <> k).
  { intros ->. apply Hnotin. apply (in_map fst) in Hin. exact Hin. }
  cbn [filter]. rewrite (of_type_other x k k' Hk) by assumption. reflexivity.
Qed.

Lemma listable_parts entry :
  listable entry = true ->
  nullish entry = false /\
  (exists k, type_key entry = Some k /\ inherited k = false) /\
  (exists t, text_of (get entry "name") = Some t).
Proof.
  unfold listable. intros H.
  apply andb_true_iff in H as [H Hn]. apply andb_true_iff in H as [H0 Hk].
  apply negb_true_iff in H0. split; [exact H0|]. split.
  - destruct (type_key entry) as [k|]; [|discriminate].
    exists k. split; [reflexivity | apply negb_true_iff, Hk].
  - destruct (text_of (get entry "name")) as [t|]; [|discriminate].
    exists t. reflexivity.
Qed.

Lemma NoDup_snoc (k : string) (keys : list string) :
  NoDup keys -> ~ In k keys -> NoDup (keys ++ [k]).
Proof.
  induction keys as [|a m IH]; intros Hnd Hnotin.
  - repeat constructor. intros [].
  - inversion Hnd; subst. cbn [app]. constructor.
    + intros Hin. apply in_app_or in Hin as [Hin|[<-|[]]];
        [contradiction | apply Hnotin; left; reflexivity].
    + apply IH; [assumption|]. intros Hin. apply Hnotin. right. exact Hin.
Qed.

Lemma map_nothing (byType : groups) :
  map (fun g => (fst g, snd g ++ [])) byType = byType.
Proof.
  induction byType as [|[k ms] rest IH]; [reflexivity|].
  cbn [map fst snd]. rewrite app_nil_r, IH. reflexivity.
Qed.

(** The one pass over the places files each of them under its type, when
    that is one of the types of the object, and drops it otherwise. *)
Lemma group_places_spec l : forall byType : groups,
  NoDup (map fst byType) ->
  Forall (fun entry => listable entry = true) l ->
  group_places byType l =
  Some (map (fun g => (fst g, snd g ++ filter (of_type (fst g)) l)) byType).
Proof.
  induction l as [|x rest IH]; intros byType Hnd Hl.
  - cbn [group_places filter]. rewrite map_nothing. reflexivity.
  - inversion Hl as [|? ? Hx Hrest]; subst.
    destruct (listable_parts x Hx) as (Hn & (k & Hk & Hi) & _).
    cbn [group_places]. rewrite Hn. unfold type_key in Hk. rewrite Hk.
    destruct (has_key k byType) eqn:E.
    + rewrite IH; [|rewrite push_keys; exact Hnd | exact Hrest].
      f_equal. apply push_filter; assumption.
    + rewrite Hi, (IH byType Hnd Hrest). f_equal.
      apply (skip_filter k); [apply has_key_false, E | exact Hk].
Qed.

Lemma first_types_fresh l : forall seen k,
  In k (first_types seen l) -> ~ In k seen.
Proof.
  induction l as [|x rest IH]; intros seen k H; [destruct H|].
  cbn [first_types] in H.
  destruct (type_key x) as [k'|]; [|exact (IH _ _ H)].
  destruct (existsb (String.eqb k') seen) eqn:E; [exact (IH _ _ H)|].
  destruct H as [<-|H].
  - intros Hin. apply seen_In in Hin. congruence.
  - intros Hin. apply (IH _ _ H). apply in_or_app. left. exact Hin.
Qed.

(** The one pass over the features makes an array for every type at its
    first appearance and files each feature under its type. *)
Lemma group_features_spec l : forall byType : groups,
  NoDup (map fst byType) ->
  Forall (fun entry => listable entry = true) l ->
  group_features byType l =
  Some (map (fun g => (fst g, snd g ++ filter (of_type (fst g)) l)) byType
        ++ map (fun k => (k, filter (of_type k) l))
               (first_types (map fst byType) l)).
Proof.
  induction l as [|x rest IH]; intros byType Hnd Hl.
  - cbn [group_features filter first_types map]. rewrite app_nil_r.
    rewrite map_nothing. reflexivity.
  - inversion Hl as [|? ? Hx Hrest]; subst.
    destruct (listable_parts x Hx) as (Hn & (k & Hk & Hi) & _).
    cbn [group_features first_types]. rewrite Hn. rewrite Hk.
    unfold type_key in Hk. rewrite Hk. fold (type_key x) in Hk.
    rewrite <- has_key_seen.
    destruct (has_key k byType) eqn:E.
    + rewrite IH; [|rewrite push_keys; exact Hnd | exact Hrest].
      rewrite push_keys, (push_filter k x rest byType Hnd Hk).
      f_equal. f_equal. apply map_ext_in. intros k' Hin.
      apply first_types_fresh in Hin.
      assert (k' <> k).
      { intros ->. apply Hin, has_key_In, E. }
      cbn [filter]. rewrite (of_type_other x k k' Hk) by assumption.
      reflexivity.
    + rewrite Hi.
      assert (Hnotin := has_key_false k byType E).
      rewrite IH; [| |exact Hrest].
      2:{ rewrite map_app. apply NoDup_snoc; assumption. }
      rewrite !map_app. cbn [map fst snd app].
      rewrite <- app_assoc. cbn [app filter].
      rewrite (of_type_key x k Hk).
      rewrite (skip_filter k x rest byType Hnotin Hk).
      f_equal. f_equal. f_equal. apply map_ext_in. intros k' Hin.
      apply first_types_fresh in Hin.
      assert (k' <> k).
      { intros ->. apply Hin, in_or_app. right. left. reflexivity. }
      cbn [filter]. rewrite (of_type_other x k k' Hk) by assumption.
      reflexivity.
Qed.

End Grouping.

Section Rendering.

Import SidebarModule.

Variable toUpperCase : string -> string.

Local Abbreviation updatePlacesList := (updatePlacesList toUpperCase).
Local Abbreviation updateFeaturesList := (updateFeaturesList toUpperCase).
Local Abbreviation list_types := (list_types toUpperCase).

Lemma list_places_spec members : forall shown,
  Forall (fun entry => listable entry = true) members ->
  list_places members shown = (Val tt, shown ++ map item_of members).
Proof.
  induction members as [|x rest IH]; intros shown H.
  - cbn. rewrite app_nil_r. reflexivity.
  - inversion H as [|? ? Hx Hrest]; subst.
    destruct (listable_parts x Hx) as (Hn & _ & (t & Ht)).
    cbn [list_places map]. rewrite Hn, Ht, (IH _ Hrest), <- app_assoc.
    unfold item_of at 2. rewrite Ht. reflexivity.
Qed.

Lemma list_features_spec members : forall shown,
  Forall (fun entry => listable entry = true) members ->
  list_features members shown =
  (Val tt, shown ++ map item_of (filter has_name members)).
Proof.
  induction members as [|x rest IH]; intros shown H.
  - cbn. rewrite app_nil_r. reflexivity.
  - inversion H as [|? ? Hx Hrest]; subst.
    destruct (listable_parts x Hx) as (Hn & _ & (t & Ht)).
    cbn [list_features filter]. rewrite Hn.
    assert (Hh : has_name x = negb (is_string (get x "name") "unnamed"))
      by reflexivity.
    rewrite Hh.
    destruct (is_string (get x "name") "unnamed"); cbn [negb].
    + apply IH, Hrest.
    + rewrite Ht, (IH _ Hrest), <- app_assoc. cbn [map app].
      unfold item_of at 2. rewrite Ht. reflexivity.
Qed.

Lemma list_types_places byType : forall shown,
  Forall (fun g => Forall (fun entry => listable entry = true) (snd g)) byType ->
  list_types list_places byType shown =
  (Val tt,
   shown ++ flat_map (fun g => places_section toUpperCase (fst g) (snd g)) byType).
Proof.
  induction byType as [|[k members] rest IH]; intros shown H.
  - cbn. rewrite app_nil_r. reflexivity.
  - inversion H as [|? ? Hm Hrest]; subst. cbn [snd] in Hm.
    cbn [SidebarModule.list_types flat_map fst snd].
    destruct members as [|x members].
    + cbn [length Nat.ltb Nat.leb places_section app]. apply IH, Hrest.
    + change (0 <? length (x :: members))%nat with true. cbn iota.
      rewrite (list_places_spec _ _ Hm), (IH _ Hrest).
      unfold places_section. rewrite <- !app_assoc. reflexivity.
Qed.

Lemma list_types_features byType : forall shown,
  Forall (fun g => Forall (fun entry => listable entry = true) (snd g)) byType ->
  list_types list_features byType shown =
  (Val tt, shown ++ flat_map (features_section toUpperCase) byType).
Proof.
  induction byType as [|[k members] rest IH]; intros shown H.
  - cbn. rewrite app_nil_r. reflexivity.
  - inversion H as [|? ? Hm Hrest]; subst. cbn [snd] in Hm.
    cbn [SidebarModule.list_types flat_map].
    unfold features_section at 2. cbn [fst snd].
    destruct members as [|x members].
    + cbn [length Nat.ltb Nat.leb app]. apply IH, Hrest.
    + change (0 <? length (x :: members))%nat with true. cbn iota.
      rewrite (list_features_spec _ _ Hm), (IH _ Hrest).
      rewrite <- !app_assoc. reflexivity.
Qed.

Lemma Forall_filter_listable (p : value -> bool) l :
  Forall (fun entry => listable entry = true) l ->
  Forall (fun entry => listable entry = true) (filter p l).
Proof.
  intros H. apply Forall_forall. intros x Hx.
  apply filter_In in Hx as [Hx _].
  rewrite Forall_forall in H. apply H, Hx.
Qed.

Lemma filter_none (k : string) (m : list value) :
  (forall entry, In entry m -> of_type k entry = false) ->
  filter (of_type k) m = [].
Proof.
  induction m as [|a m IH]; intros Hk; [reflexivity|].
  cbn [filter]. rewrite (Hk a (or_introl eq_refl)).
  apply IH. intros entry Hin. apply Hk. right. exact Hin.
Qed.

(** The closed form of [updatePlacesList]. *)
Lemma updatePlacesList_spec x l :
  Forall (fun entry => listable entry = true) (x :: l) ->
  updatePlacesList (Arr (x :: l)) =
  (Val tt,
   places_section toUpperCase "city" (filter (of_type "city") (x :: l))
   ++ places_section toUpperCase "town" (filter (of_type "town") (x :: l))
   ++ places_section toUpperCase "village"
        (filter (of_type "village") (x :: l))).
Proof.
  intros H. unfold SidebarModule.updatePlacesList.
  cbn [nullish length_is_zero].
  rewrite group_places_spec; [| |exact H].
  2:{ repeat constructor; cbn; intuition discriminate. }
  cbn [map fst snd app].
  change (entries ?g) with g.
  rewrite list_types_places.
  - cbn [flat_map fst snd app]. rewrite app_nil_r. reflexivity.
  - repeat constructor; cbn [snd]; apply Forall_filter_listable, H.
Qed.

(** X19.  [updatePlacesList] on a list of places that is not empty shows
    the cities, then the towns, then the villages, each kind under a
    heading that counts it and in the order of the list; a kind without
    places gets no heading; places of any other type are not shown. *)
Theorem X19_places_are_listed_by_kind (places : list value) :
  places <> [] ->
  Forall (fun entry => listable entry = true) places ->
  updatePlacesList (Arr places) =
  (Val tt,
   places_section toUpperCase "city" (filter (of_type "city") places)
   ++ places_section toUpperCase "town" (filter (of_type "town") places)
   ++ places_section toUpperCase "village" (filter (of_type "village") places)).
Proof.
  intros Hne H. destruct places as [|x l]; [congruence|].
  apply updatePlacesList_spec, H.
Qed.

(** X20.  When the backend found places but none of them is a city, a town
    or a village, the list is left empty: the message for no places is
    shown for an empty answer only. *)
Theorem X20_other_places_leave_the_list_empty (places : list value) :
  places <> [] ->
  Forall (fun entry => listable entry = true) places ->
  Forall (fun entry => of_type "city" entry = false
                       /\ of_type "town" entry = false
                       /\ of_type "village" entry = false) places ->
  updatePlacesList (Arr places) = (Val tt, []) /\
  updatePlacesList (Arr []) =
    (Val tt, [Paragraph "No places found along this route."]).
Proof.
  intros Hne H Hother. split; [|reflexivity].
  destruct places as [|x l]; [congruence|].
  rewrite (updatePlacesList_spec x l H).
  rewrite Forall_forall in Hother.
  rewrite !filter_none; [reflexivity | | |]; intros entry Hin;
    destruct (Hother entry Hin) as (? & ? & ?); assumption.
Qed.

End Rendering.

Section Unlistable.

Import SidebarModule.

Variable toUpperCase : string -> string.

Lemma unlistable_key x k :
  nullish x = false ->
  ToString (get x "type") = Some k ->
  unlistable x = inherited k.
Proof.
  intros Hn Hk. unfold unlistable, type_key. rewrite Hn, Hk. reflexivity.
Qed.

Lemma group_places_throws l : forall byType : groups,
  (forall k, In k (map fst byType) -> inherited k = false) ->
  existsb unlistable l = true ->
  group_places byType l = None.
Proof.
  induction l as [|x rest IH]; intros byType Hkeys H; [discriminate|].
  cbn [group_places existsb] in *.
  destruct (nullish x) eqn:Hn; [reflexivity|].
  destruct (ToString (get x "type")) as [k|] eqn:Hk; [|reflexivity].
  rewrite (unlistable_key x k Hn Hk) in H.
  destruct (has_key k byType) eqn:E.
  - apply has_key_In in E as Hin. rewrite (Hkeys k Hin) in H.
    apply IH; [rewrite push_keys; exact Hkeys | exact H].
  - destruct (inherited k); [reflexivity|]. apply IH; assumption.
Qed.

Lemma group_features_throws l : forall byType : groups,
  (forall k, In k (map fst byType) -> inherited k = false) ->
  existsb unlistable l = true ->
  group_features byType l = None.
Proof.
  induction l as [|x rest IH]; intros byType Hkeys H; [discriminate|].
  cbn [group_features existsb] in *.
  destruct (nullish x) eqn:Hn; [reflexivity|].
  destruct (ToString (get x "type")) as [k|] eqn:Hk; [|reflexivity].
  rewrite (unlistable_key x k Hn Hk) in H.
  destruct (has_key k byType) eqn:E.
  - apply has_key_In in E as Hin. rewrite (Hkeys k Hin) in H.
    apply IH; [rewrite push_keys; exact Hkeys | exact H].
  - destruct (inherited k) eqn:Hi; [reflexivity|]. apply IH; [|exact H].
    intros k' Hin. rewrite map_app in Hin.
    apply in_app_or in Hin as [Hin|[<-|[]]]; [apply Hkeys, Hin | exact Hi].
Qed.

(** X21.  One entry that the grouping cannot take makes a list function
    throw before it has shown anything, whatever the other entries are:
    an entry that is [null], one whose type does not render as a text,
    or one whose type is a name that every object inherits, such as
    [constructor] or [toString].  The list is left empty. *)
Theorem X21_one_bad_entry_empties_the_list (entries : list value) :
  existsb unlistable entries = true ->
  updatePlacesList toUpperCase (Arr entries) = (Exn TypeError, []) /\
  updateFeaturesList toUpperCase (Arr entries) = (Exn TypeError, []).
Proof.
  intros H.
  assert (Hne : length_is_zero (Arr entries) = false)
    by (destruct entries; [discriminate | reflexivity]).
  unfold SidebarModule.updatePlacesList, SidebarModule.updateFeaturesList.
  cbn [nullish]. rewrite Hne.
  rewrite group_places_throws, group_features_throws; try exact H.
  - split; reflexivity.
  - intros k [].
  - intros k Hin. cbn in Hin.
    destruct Hin as [<-|[<-|[<-|[]]]]; reflexivity.
Qed.

Lemma insert_In e sorted x : In x (insert e sorted) -> x = e \/ In x sorted.
Proof.
  induction sorted as [|e' rest IH]; cbn [insert]; intros H.
  - destruct H as [<-|[]]. left. reflexivity.
  - destruct (fst e <=? fst e')%N.
    + destruct H as [<-|H]; [left; reflexivity | right; exact H].
    + destruct H as [<-|H]; [right; left; reflexivity|].
      destruct (IH H) as [->|Hin]; [left; reflexivity | right; right; exact Hin].
Qed.

Lemma entries_In (byType : groups) g : In g (entries byType) -> In g byType.
Proof.
  unfold entries. intros H. apply in_app_or in H as [H|H].
  - apply in_map_iff in H as ([n g'] & <- & H). cbn [snd].
    assert (G : forall l,
              In (n, g') (fold_right insert [] l) -> In (n, g') l).
    { induction l as [|e l IH]; cbn [fold_right]; intros Hin; [exact Hin|].
      apply insert_In in Hin as [->|Hin]; [left; reflexivity|].
      right. apply IH, Hin. }
    apply G in H. apply in_flat_map in H as (g0 & Hg0 & Hin).
    destruct (array_index (fst g0)); [|destruct Hin].
    destruct Hin as [E|[]]. injection E as _ <-. exact Hg0.
  - apply filter_In in H as [H _]. exact H.
Qed.


End Unlistable.

Lemma X19_witness :
  some_places <> [] /\
  Forall (fun entry => listable entry = true) some_places /\
  SidebarModule.updatePlacesList upper (Arr some_places) =
  (Val tt,
   places_section upper "city" (filter (of_type "city") some_places)
   ++ places_section upper "town" (filter (of_type "town") some_places)
   ++ places_section upper "village" (filter (of_type "village") some_places)).
Proof.
  assert (H1 : some_places <> []) by discriminate.
  assert (H2 : Forall (fun entry => listable entry = true) some_places)
    by (repeat constructor).
  split; [exact H1|]. split; [exact H2|].
  exact (X19_places_are_listed_by_kind upper some_places H1 H2).
Defined.

(** The list of the scenario as the page shows it. *)
Example places_of_the_scenario :
  SidebarModule.updatePlacesList upper (Arr some_places) =
  (Val tt,
   [SidebarModule.Heading "Citys (2)"; SidebarModule.Item "Albany";
    SidebarModule.Item "Troy";
    SidebarModule.Heading "Villages (1)"; SidebarModule.Item "Catskill"]).
Proof. vm_compute. reflexivity. Qed.

Lemma X20_witness :
  other_places <> [] /\
  Forall (fun entry => listable entry = true) other_places /\
  Forall (fun entry => of_type "city" entry = false
                       /\ of_type "town" entry = false
                       /\ of_type "village" entry = false) other_places /\
  SidebarModule.updatePlacesList upper (Arr other_places) = (Val tt, []) /\
  SidebarModule.updatePlacesList upper (Arr []) =
    (Val tt,
     [SidebarModule.Paragraph "No places found along this route."]).
Proof.
  assert (H1 : other_places <> []) by discriminate.
  assert (H2 : Forall (fun entry => listable entry = true) other_places)
    by (repeat constructor).
  assert (H3 : Forall (fun entry => of_type "city" entry = false
                                    /\ of_type "town" entry = false
                                    /\ of_type "village" entry = false)
                 other_places) by (repeat constructor).
  split; [exact H1|]. split; [exact H2|]. split; [exact H3|].
  exact (X20_other_places_leave_the_list_empty upper other_places H1 H2 H3).
Defined.

Lemma X21_witness :
  existsb unlistable odd_places = true /\
  SidebarModule.updatePlacesList upper (Arr odd_places) = (Exn TypeError, []) /\
  SidebarModule.updateFeaturesList upper (Arr odd_places) = (Exn TypeError, []).
Proof.
  assert (H : existsb unlistable odd_places = true) by reflexivity.
  split; [exact H|].
  exact (X21_one_bad_entry_empties_the_list upper odd_places H).
Defined.


(** The features of the scenario as the page shows them: two rivers
    announced and one listed, a peak announced and none listed. *)
Example features_of_the_scenario :
  SidebarModule.updateFeaturesList upper (Arr some_features) =
  (Val tt,
   [SidebarModule.Heading "Rivers (2)"; SidebarModule.Item "Hudson";
    SidebarModule.Heading "Peaks (1)";
    SidebarModule.Heading "Waterfalls (1)"; SidebarModule.Item "Kaaterskill"]).
Proof. vm_compute. reflexivity. Qed.

(* ================================================================== *)
(** * The chat history *)
(* ================================================================== *)

Section History.

Import ChatHistory.

Variable net : nat -> response.

Lemma add_messages_length history : forall shown panel,
  add_messages history shown = Some panel ->
  length panel = length shown + length history.
Proof.
  induction history as [|message rest IH]; intros shown panel H.
  - cbn in H. injection H as <-. cbn. lia.
  - cbn [add_messages] in H.
    destruct (nullish message); [discriminate|].
    destruct (ToString (get message "role")); [|discriminate].
    destruct (text_of (get message "content")); [|discriminate].
    apply IH in H. rewrite H, length_app. cbn [length]. lia.
Qed.

Lemma add_messages_spec history : forall shown,
  Forall (fun message => showable message = true) history ->
  add_messages history shown = Some (shown ++ map history_node history).
Proof.
  induction history as [|message rest IH]; intros shown H.
  - cbn. rewrite app_nil_r. reflexivity.
  - inversion H as [|? ? Hm Hrest]; subst.
    unfold showable in Hm.
    apply andb_true_iff in Hm as [Hm Hc]. apply andb_true_iff in Hm as [Hn Hr].
    apply negb_true_iff in Hn.
    cbn [add_messages map]. rewrite Hn.
    assert (Hnode : history_node message =
              {| className :=
                   ("chat-message " ++
                    match ToString (get message "role") with
                    | Some role => role
                    | None => ""
                    end)%string;
                 content :=
                   match text_of (get message "content") with
                   | Some t => t
                   | None => ""
                   end |}) by reflexivity.
    rewrite Hnode.
    destruct (ToString (get message "role")); [|discriminate].
    destruct (text_of (get message "content")); [|discriminate].
    rewrite (IH _ Hrest), <- app_assoc. reflexivity.
Qed.

(** X23.  Loading the chat history never rejects, makes one request, and
    never leaves the panel empty.  A history of messages that render is
    shown message by message, each with its role as class; an empty
    history gives the greeting; and every failure (the fetch rejects, the
    answer is not 2xx, the body does not parse) gives the greeting of the
    fallback alone. *)
Theorem X23_chat_panel_is_never_empty (w : world) :
  exists panel,
    loadChatHistory net w =
      (Val panel,
       add_request {| url := "/chat/history"; payload := Undefined |} w) /\
    panel <> [] /\
    (forall data messages,
       net (length (requests w)) = Responded true (Some data) ->
       get data "history" = Arr messages ->
       Forall (fun message => showable message = true) messages ->
       panel = match messages with
               | [] => [greeting]
               | _ :: _ => map history_node messages
               end) /\
    (match net (length (requests w)) with
     | Responded true (Some _) => False
     | _ => True
     end -> panel = [fallback]).
Proof.
  unfold loadChatHistory, loadChatHistoryRequest. run_monad.
  destruct (net (length (requests w))) as [m|ok [data|]]; run_monad.
  - exists [fallback]. repeat split; try discriminate.
  - destruct ok; cbn [negb]; run_monad.
    2:{ exists [fallback]. repeat split; try discriminate. }
    destruct (nullish data) eqn:Hn; run_monad.
    { exists [fallback]. split; [reflexivity|]. split; [discriminate|].
      split; [|intros []].
      intros d ms E Hh _. injection E as <-.
      destruct data; try discriminate Hn; discriminate Hh. }
    destruct (get data "history") as [| | | | | |messages] eqn:Hh;
      try (exists [fallback]; split; [reflexivity|]; split; [discriminate|];
           split; [intros d ms E Hd; injection E as <-; congruence
                  | intros []]).
    destruct (add_messages messages []) as [shown|] eqn:Ea.
    + eexists. split; [reflexivity|]. split; [|split; [|intros []]].
      * apply add_messages_length in Ea. cbn [length Nat.add] in Ea.
        destruct messages as [|x l]; cbn [length Nat.eqb].
        -- destruct shown; discriminate.
        -- destruct shown; [discriminate Ea | discriminate].
      * intros d ms E Hd Hs. injection E as <-.
        rewrite Hh in Hd. injection Hd as <-.
        rewrite (add_messages_spec _ [] Hs) in Ea. injection Ea as <-.
        destruct messages; reflexivity.
    + exists [fallback]. split; [reflexivity|]. split; [discriminate|].
      split; [|intros []].
      intros d ms E Hd Hs. injection E as <-.
      rewrite Hh in Hd. injection Hd as <-.
      rewrite (add_messages_spec _ [] Hs) in Ea. discriminate.
  - destruct ok; cbn [negb]; run_monad;
      (exists [fallback]; repeat split; try discriminate).
Qed.

End History.

(* ================================================================== *)
(** * Nothing is lost in the lists *)
(* ================================================================== *)

Section Partition.

Import SidebarModule.

Variable toUpperCase : string -> string.

Lemma insert_perm e sorted : Permutation (insert e sorted) (e :: sorted).
Proof.
  induction sorted as [|e' rest IH]; cbn [insert]; [reflexivity|].
  destruct (fst e <=? fst e')%N; [reflexivity|].
  rewrite IH. apply perm_swap.
Qed.

Lemma sort_perm l : Permutation (fold_right insert [] l) l.
Proof.
  induction l as [|e l IH]; cbn [fold_right]; [reflexivity|].
  rewrite insert_perm, IH. reflexivity.
Qed.

Lemma partition_perm {A} (p : A -> bool) l :
  Permutation (filter p l ++ filter (fun x => negb (p x)) l) l.
Proof.
  induction l as [|x l IH]; [reflexivity|].
  cbn [filter]. destruct (p x); cbn [negb app].
  - apply perm_skip, IH.
  - rewrite <- Permutation_middle. apply perm_skip, IH.
Qed.

Lemma filter_twice {A} (p q : A -> bool) l :
  filter p (filter q l) = filter (fun x => q x && p x) l.
Proof.
  induction l as [|x l IH]; [reflexivity|].
  cbn [filter]. destruct (q x); cbn [filter andb]; rewrite IH; reflexivity.
Qed.

Lemma filter_perm {A} (p : A -> bool) l l' :
  Permutation l l' -> Permutation (filter p l) (filter p l').
Proof.
  induction 1 as [|x l l' _ IH|x y l|l l' l'' _ IH1 _ IH2].
  - reflexivity.
  - cbn [filter]. destruct (p x); [apply perm_skip|]; exact IH.
  - cbn [filter]. destruct (p x), (p y); try reflexivity. apply perm_swap.
  - rewrite IH1. exact IH2.
Qed.

(** [Object.entries] reorders the properties and loses none. *)
Lemma entries_perm (byType : groups) : Permutation (entries byType) byType.
Proof.
  unfold entries.
  rewrite (Permutation_map snd (sort_perm _)).
  assert (E : map snd
                (flat_map (fun g => match array_index (fst g) with
                                    | Some n => [(n, g)]
                                    | None => []
                                    end) byType) =
              filter (fun g => match array_index (fst g) with
                               | Some _ => true
                               | None => false
                               end) byType).
  { induction byType as [|g rest IH]; [reflexivity|].
    cbn [flat_map filter]. rewrite map_app, IH.
    destruct (array_index (fst g)); reflexivity. }
  rewrite E.
  assert (F : filter (fun g => match array_index (fst g) with
                               | Some _ => false
                               | None => true
                               end) byType =
              filter (fun g => negb match array_index (fst g) with
                                    | Some _ => true
                                    | None => false
                                    end) byType).
  { apply filter_ext. intros g. destruct (array_index (fst g)); reflexivity. }
  rewrite F. apply partition_perm.
Qed.

Lemma members_by_type ks (l : list value) :
  members_of (map (fun k => (k, filter (of_type k) l)) ks) =
  flat_map (fun k => filter (of_type k) l) ks.
Proof.
  unfold members_of. induction ks as [|k ks IH]; [reflexivity|].
  cbn [map flat_map snd]. rewrite IH. reflexivity.
Qed.

Lemma flat_map_fresh x k rest ks :
  type_key x = Some k ->
  ~ In k ks ->
  flat_map (fun k' => filter (of_type k') (x :: rest)) ks =
  flat_map (fun k' => filter (of_type k') rest) ks.
Proof.
  intros Hk Hnotin. induction ks as [|k' ks IH]; [reflexivity|].
  cbn [flat_map].
  rewrite IH by (intros Hin; apply Hnotin; right; exact Hin).
  f_equal. cbn [filter]. rewrite (of_type_other x k k' Hk); [reflexivity|].
  intros ->. apply Hnotin. left. reflexivity.
Qed.

Lemma first_types_perm l : forall seen,
  Forall (fun entry => listable entry = true) l ->
  Permutation
    (flat_map (fun k => filter (of_type k) l) (first_types seen l))
    (filter (fun entry => negb (seen_type seen entry)) l).
Proof.
  induction l as [|x rest IH]; intros seen H; [reflexivity|].
  inversion H as [|? ? Hx Hrest]; subst.
  destruct (listable_parts x Hx) as (_ & (k & Hk & _) & _).
  cbn [first_types filter]. unfold seen_type at 1. rewrite Hk.
  destruct (existsb (String.eqb k) seen) eqn:E; cbn [negb].
  - rewrite (flat_map_fresh x k rest _ Hk).
    + apply IH, Hrest.
    + intros Hin. apply first_types_fresh in Hin. apply Hin, seen_In, E.
  - cbn [flat_map filter]. rewrite (of_type_key x k Hk). cbn [app].
    apply perm_skip.
    rewrite (flat_map_fresh x k rest _ Hk).
    2:{ intros Hin. apply first_types_fresh in Hin. apply Hin.
        apply in_or_app. right. left. reflexivity. }
    rewrite (IH (seen ++ [k]) Hrest).
    rewrite <- (partition_perm (of_type k)
                  (filter (fun entry => negb (seen_type seen entry)) rest)).
    rewrite !filter_twice.
    apply Permutation_app.
    + apply Permutation_refl'. apply filter_ext. intros y.
      unfold of_type, seen_type.
      destruct (type_key y) as [ky|]; [|reflexivity].
      destruct (ky =? k) eqn:Ey; [|symmetry; apply andb_false_r].
      apply String.eqb_eq in Ey. subst ky. rewrite E. reflexivity.
    + apply Permutation_refl'. apply filter_ext. intros y.
      unfold of_type, seen_type.
      destruct (type_key y) as [ky|]; [|reflexivity].
      rewrite existsb_app. cbn [existsb]. rewrite orb_false_r.
      rewrite negb_orb, (String.eqb_sym ky k). reflexivity.
Qed.

Lemma count_items_section g :
  length (filter is_item (features_section toUpperCase g)) =
  length (filter has_name (snd g)).
Proof.
  unfold features_section. destruct (snd g) as [|x l]; [reflexivity|].
  generalize (filter has_name (x :: l)). intros m.
  cbn [filter is_item].
  induction m as [|y m IH]; [reflexivity|].
  cbn [map filter is_item item_of length]. rewrite IH. reflexivity.
Qed.

Lemma count_items_sections (byType : groups) :
  length (filter is_item (flat_map (features_section toUpperCase) byType)) =
  length (filter has_name (members_of byType)).
Proof.
  unfold members_of.
  induction byType as [|g rest IH]; [reflexivity|].
  cbn [flat_map]. rewrite !filter_app, !length_app, IH, count_items_section.
  reflexivity.
Qed.

(** X24.  Grouping the features by type loses and repeats nothing, also
    through the reordering of [Object.entries]: the features filed under
    the headings are a permutation of the features received, so the
    numbers in the headings add up to the number of features, and the
    entries shown are as many as the features whose name is not
    [unnamed]. *)
Theorem X24_every_feature_is_counted_once (features : list value) :
  features <> [] ->
  Forall (fun entry => listable entry = true) features ->
  Permutation (members_of (entries (by_type features))) features /\
  length (filter is_item
            (snd (updateFeaturesList toUpperCase (Arr features)))) =
    length (filter has_name features).
Proof.
  intros Hne H.
  assert (P : Permutation (members_of (entries (by_type features))) features).
  { unfold members_of.
    rewrite (Permutation_flat_map snd (entries_perm (by_type features))).
    fold (members_of (by_type features)).
    unfold by_type. rewrite members_by_type, (first_types_perm features [] H).
    apply Permutation_refl'.
    rewrite (filter_ext (fun entry => negb (seen_type [] entry))
               (fun _ => true)).
    - clear. induction features as [|x l IH]; [reflexivity|].
      cbn [filter]. rewrite IH. reflexivity.
    - intros entry. unfold seen_type.
      destruct (type_key entry); reflexivity. }
  split; [exact P|].
  assert (Hz : length_is_zero (Arr features) = false)
    by (destruct features; [congruence | reflexivity]).
  unfold SidebarModule.updateFeaturesList. cbn [nullish]. rewrite Hz.
  rewrite group_features_spec; [|constructor | exact H].
  cbn [map app]. fold (by_type features).
  rewrite list_types_features.
  - cbn [snd app]. rewrite count_items_sections.
    apply Permutation_length, filter_perm, P.
  - apply Forall_forall. intros g Hg. apply entries_In in Hg.
    unfold by_type in Hg. apply in_map_iff in Hg as (k & <- & _).
    cbn [snd]. apply Forall_filter_listable, H.
Qed.

End Partition.

Lemma X24_witness :
  some_features <> [] /\
  Forall (fun entry => listable entry = true) some_features /\
  Permutation (members_of (SidebarModule.entries (by_type some_features)))
              some_features /\
  length (filter is_item
            (snd (SidebarModule.updateFeaturesList upper (Arr some_features)))) =
    length (filter has_name some_features).
Proof.
  assert (H1 : some_features <> []) by discriminate.
  assert (H2 : Forall (fun entry => listable entry = true) some_features)
    by (repeat constructor).
  split; [exact H1|]. split; [exact H2|].
  exact (X24_every_feature_is_counted_once upper some_features H1 H2).
Defined.

(* ================================================================== *)
(** * The cache and the route *)
(* ================================================================== *)

Section CacheKey.

Variable net : nat -> response.
Variable times_1000 : string -> value.
Variable raises : view_call -> option value.


End CacheKey.


(** A history of two messages, an empty history and a backend that is
    down, as the panel shows them. *)
Example history_of_two :
  fst (ChatHistory.loadChatHistory
         (fun _ => Responded true
            (Some (Obj [("history",
                         Arr [Obj [("role", Str "user");
                                   ("content", Str "Route to Boston?")];
                              Obj [("role", Str "assistant");
                                   ("content", Str "Here it is.")]])])))
         fresh_world) =
  Val [ {| ChatHistory.className := "chat-message user";
           ChatHistory.content := "Route to Boston?" |};
        {| ChatHistory.className := "chat-message assistant";
           ChatHistory.content := "Here it is." |} ] /\
  fst (ChatHistory.loadChatHistory
         (fun _ => Responded true (Some (Obj [("history", Arr [])])))
         fresh_world) = Val [ChatHistory.greeting] /\
  fst (ChatHistory.loadChatHistory
         (fun _ => Responded false (Some (Obj [("error", Str "down")])))
         fresh_world) = Val [ChatHistory.fallback].
Proof. repeat split. Qed.

(* ================================================================== *)
(** * A waypoint from the chat *)
(* ================================================================== *)

Section WaypointAdded.

Variable numbers_valid : string -> string -> bool.

Variable net : nat -> response.
Variable toFixed6 : string -> string.
Variable times_1000 : string -> value.
Variable trim : string -> string.
Variable raises : view_call -> option value.
Variable waypoint_html : string -> markup.
Variable sum : string -> string -> string.

(** X26.  A waypoint added through the chat does not change a route that
    is on display.  Handling a [waypoint_added] message whose name has a
    string and whose markup keeps the remove button, the decoder appends
    the [div] with its waypoint inputs to the form, whatever the HTML
    parser made of the name, and clicks the submit button; on a valid
    form that starts [generateRoute].  But where
    [generateRoute] would have kept its route before, it keeps it now:
    the waypoints are not part of what it compares, so the call sends no
    request to the geocoder or the router and [currentRoute] stays. *)
Theorem X26_chat_waypoint_keeps_the_route
    (d : decoder) (data : value) (name : string) (w : world) :
  is_string (get data "status") "waypoint_added" = true ->
  truthy (get data "waypoint") = true ->
  ToString (waypoint_name data) = Some name ->
  remove_button (waypoint_html name) = true ->
  keeps_route w = true ->
  submits numbers_valid (controls (document w)) = true ->
  handle_data (document w) waypoint_html sum d data =
    Finished (Return ([AppendWaypoint (fields (waypoint_html name));
                       ClickGenerateRoute] ++ complete_now data)) /\
  dispatch_all numbers_valid [AppendWaypoint (fields (waypoint_html name));
                ClickGenerateRoute] w =
    Some (add_task TGenerateRoute
            (at_the_click (fields (waypoint_html name)) w)) /\
  waypoint_inputs
    (controls (document (at_the_click (fields (waypoint_html name)) w))) =
    waypoint_inputs (controls (document w)) ++ fields (waypoint_html name) /\
  keeps_route (at_the_click (fields (waypoint_html name)) w) = true /\
  exists w',
    FormModule.generateRoute net toFixed6 times_1000 trim raises
      (at_the_click (fields (waypoint_html name)) w) = (Val tt, w') /\
    currentRoute (vars (document w')) = currentRoute (vars (document w)) /\
    count_url "/geocode" (requests w') = count_url "/geocode" (requests w) /\
    count_url "/route" (requests w') = count_url "/route" (requests w).
Proof.
  intros Hs Hw Hn Hb Hk Hr.
  set (inputs := fields (waypoint_html name)).
  assert (Hk' : keeps_route (at_the_click inputs w) = true) by exact Hk.
  split.
  { unfold handle_data. rewrite (status_not_nullish _ _ Hs).
    rewrite (is_string_other _ _ "route_generated" Hs eq_refl),
      (is_string_other _ _ "places_requested" Hs eq_refl),
      (is_string_other _ _ "features_requested" Hs eq_refl), Hs, Hw.
    unfold waypoint_added. fold (waypoint_name data). rewrite Hn, Hb.
    reflexivity. }
  split.
  { cbn [dispatch_all dispatch]. fold (at_the_click inputs w).
    change (submits numbers_valid (controls (document (at_the_click inputs w))))
      with (submits numbers_valid (controls (document w))).
    rewrite Hr. reflexivity. }
  split; [reflexivity|].
  split; [exact Hk'|].
  rewrite (generateRoute_kept net toFixed6 times_1000 trim raises _ Hk').
  unfold finally, try_catch.
  match goal with
  | |- context [FormModule.show_route net times_1000 raises ?f ?r ?w0] =>
      destruct (show_route_frame net times_1000 raises f r w0)
        as (o & w1 & vs & -> & S & _ & _ & _ & _ & _ & _ & U)
  end.
  assert (G : forall path, ~ In path (places_paths ++ features_paths) ->
                count_url path (requests w1) = count_url path (requests w)).
  { intros path Hp. rewrite (sent_only_count _ path _ _ S Hp). reflexivity. }
  destruct o as [[]|err]; unfold modify;
    (eexists; split; [reflexivity|]; simpl_world;
     split; [exact U|];
     split; apply G; cbn; intuition discriminate).
Qed.

End WaypointAdded.

Lemma X26_witness :
  is_string (get des_moines "status") "waypoint_added" = true /\
  truthy (get des_moines "waypoint") = true /\
  ToString (waypoint_name des_moines) = Some "Des Moines" /\
  remove_button (waypoint_html "Des Moines") = true /\
  keeps_route shown_world = true /\
  submits numbers_valid (controls (document shown_world)) = true /\
  dispatch_all numbers_valid [AppendWaypoint (fields (waypoint_html "Des Moines"));
                ClickGenerateRoute] shown_world =
    Some (add_task TGenerateRoute
            (at_the_click (fields (waypoint_html "Des Moines")) shown_world)) /\
  waypoint_inputs
    (controls (document
                 (at_the_click (fields (waypoint_html "Des Moines"))
                    shown_world))) =
    waypoint_inputs (controls (document shown_world))
    ++ fields (waypoint_html "Des Moines") /\
  keeps_route
    (at_the_click (fields (waypoint_html "Des Moines")) shown_world) = true.
Proof.
  assert (H1 : is_string (get des_moines "status") "waypoint_added" = true)
    by reflexivity.
  assert (H2 : truthy (get des_moines "waypoint") = true) by reflexivity.
  assert (H3 : ToString (waypoint_name des_moines) = Some "Des Moines")
    by reflexivity.
  assert (H4 : remove_button (waypoint_html "Des Moines") = true)
    by reflexivity.
  assert (H5 : keeps_route shown_world = true) by reflexivity.
  assert (H6 : submits numbers_valid (controls (document shown_world)) = true)
    by reflexivity.
  split; [exact H1|]. split; [exact H2|]. split; [exact H3|].
  split; [exact H4|]. split; [exact H5|]. split; [exact H6|].
  destruct (X26_chat_waypoint_keeps_the_route numbers_valid answering
              toFixed6 times_1000 trim Cases.raises waypoint_html sum initial des_moines "Des Moines"
              shown_world H1 H2 H3 H4 H5 H6) as (_ & Hd & Hw & Hk & _).
  split; [exact Hd|]. split; [exact Hw | exact Hk].
Defined.

(** A name with a double quote in it, [The "Rock"], where the parser ends
    the attribute at the quote: the field of the form holds what stands
    before it. *)
Example quoted_waypoint :
  handle_data (document shown_world) cut_at_quote sum initial the_rock =
    Finished (Return ([AppendWaypoint ["The "]; ClickGenerateRoute]
                      ++ complete_now the_rock)) /\
  option_map (fun w => waypoint_inputs (controls (document w)))
    (dispatch_all numbers_valid [AppendWaypoint ["The "]; ClickGenerateRoute] shown_world) =
    Some ["Omaha"; "The "].
Proof. split; vm_compute; reflexivity. Qed.

(** A [waypoint_added] message whose name is an object with a field named
    [toString], followed by a chunk: the template raises, nothing is
    added and no completion is called; the message is in the text, the
    chunk is added to it, and the stream ends with both. *)
Example unreadable_waypoint :
  processStream Json.parse fresh_page waypoint_html sum "" initial
    [("data: " ++ Json.print keyed_waypoint ++ delimiter
      ++ Json.message [("chunk", Str " and on")] ++ delimiter)%string]
    EndOfStream =
  [ReaderRead; ConsoleError ("data: " ++ Json.print keyed_waypoint);
   OnChunk (Str " and on"); ReaderRead;
   OnComplete (Str "Added and on") (Bool false)].
Proof. vm_compute. reflexivity. Qed.

(* ================================================================== *)
(** * Answers that cannot be shown *)
(* ================================================================== *)

Section FailedDisplay.

Variable net : nat -> response.
Variable times_1000 : string -> value.
Variable raises : view_call -> option value.

Local Abbreviation getPlaces := (FormModule.getPlaces net times_1000 raises).
Local Abbreviation getNaturalFeatures :=
  (FormModule.getNaturalFeatures net times_1000 raises).

(** X28.  An answer is stored before it is shown.  When [getPlaces]
    fetches places on which [displayPlaces] throws, the places are in the
    cache under the selected radius all the same, the error is written
    into the places list, and neither the list is filled nor the backend
    told; a later call at that radius sends nothing, takes the places from
    the cache and fails on them again.  [getNaturalFeatures] does the
    same. *)
Theorem X28_answer_is_stored_before_it_is_shown
    (coords body error : value) (force : bool) (w : world) :
  nullish coords = false ->
  net (length (requests w)) = Responded true (Some body) ->
  nullish body = false ->
  (negb force
   && FormModule.same_radius (currentPlaces (vars (document w)))
        (places_radius (controls (document w))) = false ->
   raises (DisplayPlaces (get body "places")) = Some error ->
   exists w',
     getPlaces coords force w = (Val tt, w') /\
     currentPlaces (vars (document w')) =
       Some {| data := get body "places";
               radius := places_radius (controls (document w)) |} /\
     requests w' =
       requests w ++
       [along_route_request times_1000 "/places" "node" coords
          (places_radius (controls (document w)))] /\
     views w' =
       views w ++ [DisplayPlaces (get body "places");
                   ListError "places-list" error] /\
     getPlaces coords false w' =
       (Val tt,
        add_view (ListError "places-list" error)
          (add_view (DisplayPlaces (get body "places")) w'))) /\
  (negb force
   && FormModule.same_radius (currentFeatures (vars (document w)))
        (features_radius (controls (document w))) = false ->
   raises (DisplayFeatures (get body "features")) = Some error ->
   exists w',
     getNaturalFeatures coords force w = (Val tt, w') /\
     currentFeatures (vars (document w')) =
       Some {| data := get body "features";
               radius := features_radius (controls (document w)) |} /\
     requests w' =
       requests w ++
       [along_route_request times_1000 "/natural_features" "way" coords
          (features_radius (controls (document w)))] /\
     views w' =
       views w ++ [DisplayFeatures (get body "features");
                   ListError "features-list" error] /\
     getNaturalFeatures coords false w' =
       (Val tt,
        add_view (ListError "features-list" error)
          (add_view (DisplayFeatures (get body "features")) w'))).
Proof.
  intros Hc Hnet Hb. split; intros Hmiss Hraise.
  - unfold FormModule.getPlaces at 1.
    unfold FormModule.getPlacesRequest, FormModule.along_route,
      FormModule.call.
    run_monad. rewrite Hmiss, Hc. run_monad. rewrite Hnet. cbn [negb].
    run_monad. rewrite Hb. run_monad. rewrite Hraise. run_monad.
    eexists. split; [reflexivity|]. simpl_world.
    split; [reflexivity|]. split; [reflexivity|].
    split; [rewrite <- app_assoc; reflexivity|].
    unfold FormModule.getPlaces, FormModule.call. run_monad. simpl_world.
    unfold FormModule.same_radius. cbn [radius data].
    rewrite String.eqb_refl. cbn [negb andb]. run_monad.
    rewrite Hraise. run_monad. reflexivity.
  - unfold FormModule.getNaturalFeatures at 1.
    unfold FormModule.getFeaturesRequest, FormModule.along_route,
      FormModule.call.
    run_monad. rewrite Hmiss, Hc. run_monad. rewrite Hnet. cbn [negb].
    run_monad. rewrite Hb. run_monad. rewrite Hraise. run_monad.
    eexists. split; [reflexivity|]. simpl_world.
    split; [reflexivity|]. split; [reflexivity|].
    split; [rewrite <- app_assoc; reflexivity|].
    unfold FormModule.getNaturalFeatures, FormModule.call. run_monad.
    simpl_world.
    unfold FormModule.same_radius. cbn [radius data].
    rewrite String.eqb_refl. cbn [negb andb]. run_monad.
    rewrite Hraise. run_monad. reflexivity.
Qed.

End FailedDisplay.

(** A 2xx answer without a list of places: [displayPlaces(undefined)]
    throws. *)
Lemma X28_witness :
  nullish (get (route_to "346 km") "polyline_coords") = false /\
  Cases.no_list (length (requests routed_world)) =
    Responded true (Some (Obj [])) /\
  nullish (Obj []) = false /\
  negb false
  && FormModule.same_radius (currentPlaces (vars (document routed_world)))
       (places_radius (controls (document routed_world))) = false /\
  Cases.raises (DisplayPlaces (get (Obj []) "places")) = Some TypeError /\
  exists w',
    FormModule.getPlaces Cases.no_list times_1000 Cases.raises
      (get (route_to "346 km") "polyline_coords") false routed_world =
      (Val tt, w') /\
    currentPlaces (vars (document w')) =
      Some {| data := Undefined;
              radius := places_radius (controls (document routed_world)) |} /\
    map url (requests w') = map url (requests routed_world) ++ ["/places"] /\
    views w' =
      views routed_world ++ [DisplayPlaces Undefined;
                             ListError "places-list" TypeError].
Proof.
  assert (H1 : nullish (get (route_to "346 km") "polyline_coords") = false)
    by reflexivity.
  assert (H2 : Cases.no_list (length (requests routed_world)) =
               Responded true (Some (Obj []))) by reflexivity.
  assert (H3 : nullish (Obj []) = false) by reflexivity.
  assert (H4 : negb false
               && FormModule.same_radius
                    (currentPlaces (vars (document routed_world)))
                    (places_radius (controls (document routed_world))) = false)
    by reflexivity.
  assert (H5 : Cases.raises (DisplayPlaces (get (Obj []) "places")) =
               Some TypeError) by reflexivity.
  split; [exact H1|]. split; [exact H2|]. split; [exact H3|].
  split; [exact H4|]. split; [exact H5|].
  destruct (proj1 (X28_answer_is_stored_before_it_is_shown Cases.no_list
                     times_1000 Cases.raises _ (Obj []) TypeError false
                     routed_world H1 H2 H3) H4 H5)
    as (w' & E & C & R & V & _).
  exists w'. split; [exact E|]. split; [exact C|].
  split; [rewrite R, map_app; reflexivity | exact V].
Defined.

(* ================================================================== *)
(** * The reset button *)
(* ================================================================== *)

Section ResetButton.

Variable net : nat -> response.

(** X27.  The reset button never raises.  The panel is set back to the
    greeting and the map is cleared exactly when the backend answers 2xx
    with a body that parses; on any other answer, also a 2xx answer whose
    body does not parse, the messages stay as they are and the map is
    not touched.  One request is made in every case. *)
Theorem X27_reset_needs_a_readable_answer
    (panel : list ChatHistory.message_node) (w : world) :
  ChatReset.reset_clicked net panel w =
  match net (length (requests w)) with
  | Responded true (Some _) =>
      (Val [ChatReset.greeting],
       add_view ClearMapLayers
         (add_request {| url := "/chat/reset"; payload := Undefined |} w))
  | _ =>
      (Val panel,
       add_request {| url := "/chat/reset"; payload := Undefined |} w)
  end.
Proof.
  unfold ChatReset.reset_clicked, ChatReset.resetChatConversation. run_monad.
  destruct (net (length (requests w))) as [m|ok [data|]]; run_monad.
  - reflexivity.
  - destruct ok; reflexivity.
  - destruct ok; reflexivity.
Qed.

End ResetButton.
